(** * ustCusipPanel: the tenor classifier and the panel builder

    A shallow embedding of [src/ustCusipPanel.py].  A polars DataFrame is a
    list of rows (a record per row, [option] for a nullable cell); a polars
    [Date] is the number of days since 1970-01-01, an integer; a Python
    exception is a value of [PyError] in the [result] monad; the system clock
    read by [date.today()] is a field of [World]. *)

From Stdlib Require Import ZArith QArith List String Ascii Bool Lia.
From Stdlib Require Import Permutation Sorted OrdersEx RelationClasses FinFun.
Import ListNotations.
Open Scope Z_scope.

(** ** Nullable cells and three-valued conditions *)

Module Null.

(** A comparison of two cells is null as soon as one side is null. *)
Definition lift2 {A B C} (f : A -> B -> C) (a : option A) (b : option B)
  : option C :=
  match a, b with
  | Some x, Some y => Some (f x y)
  | _, _ => None
  end.

Definition ltb := lift2 Z.ltb.
Definition leb := lift2 Z.leb.
Definition geb := lift2 Z.geb.

(** [a & b] on nullable booleans (Kleene): false wins over null. *)
Definition and (a b : option bool) : option bool :=
  match a, b with
  | Some false, _ | _, Some false => Some false
  | Some true, Some true => Some true
  | _, _ => None
  end.

(** [pl.when(c).then(t).otherwise(e)]: a null condition takes the
    [otherwise] branch. *)
Definition when {A} (c : option bool) (t e : A) : A :=
  match c with
  | Some true => t
  | _ => e
  end.

(** [col.fill_null(v)] on one cell. *)
Definition fill_null {A} (v : A) (a : option A) : A :=
  match a with
  | Some x => x
  | None => v
  end.

(** The first non-null of two cells. *)
Definition or_else {A} (a b : option A) : option A :=
  match a with
  | Some _ => a
  | None => b
  end.

Definition is_some {A} (a : option A) : bool :=
  match a with
  | Some _ => true
  | None => false
  end.

End Null.

(** ** Python exceptions *)

Inductive PyError : Type :=
| ValueError_concat_empty_list    (* pl.concat([]) *)
| TypeError_min_NoneType          (* min(None, today) *)
| ComputeError_date_range_null    (* pl.date_range(pl.lit(None), ...) *)
| SchemaError_null_cusip_column.  (* a [cusip] column of dtype Null *)

Inductive result (A : Type) : Type :=
| Ok (a : A)
| Raise (e : PyError).

Arguments Ok {A} a.
Arguments Raise {A} e.

Definition bind {A B} (m : result A) (k : A -> result B) : result B :=
  match m with
  | Ok a => k a
  | Raise e => Raise e
  end.

Notation "x <- m ;; k" := (bind m (fun x => k))
  (at level 61, m at next level, right associativity).

Fixpoint mapM {A B} (f : A -> result B) (l : list A) : result (list B) :=
  match l with
  | [] => Ok []
  | x :: l' => y <- f x ;; ys <- mapM f l' ;; Ok (y :: ys)
  end.

(** ** Orderings used by [DataFrame.sort] *)

Module Order.

Definition comparator (A : Type) := A -> A -> comparison.

(** A sort key column: compare rows by a projection. *)
Definition on {A B} (f : A -> B) (c : comparator B) : comparator A :=
  fun x y => c (f x) (f y).

(** [descending=True] for a column. *)
Definition desc {A} (c : comparator A) : comparator A :=
  fun x y => c y x.

(** Several sort columns: the first decides, the next breaks its ties. *)
Definition lex {A} (c1 c2 : comparator A) : comparator A :=
  fun x y =>
    match c1 x y with
    | Eq => c2 x y
    | o => o
    end.

(** polars puts nulls first ([nulls_last=False]), also in a descending
    column. *)
Definition nulls_first {A} (c : comparator A) : comparator (option A) :=
  fun x y =>
    match x, y with
    | None, None => Eq
    | None, Some _ => Lt
    | Some _, None => Gt
    | Some a, Some b => c a b
    end.

Definition bool_compare : comparator bool :=
  fun x y =>
    match x, y with
    | false, true => Lt
    | true, false => Gt
    | _, _ => Eq
    end.

Definition le {A} (c : comparator A) (x y : A) : Prop := c x y <> Gt.

(** Stable insertion sort: an element goes before the first element that
    is not smaller, so equal keys keep their input order. *)
Fixpoint insert {A} (c : comparator A) (x : A) (l : list A) : list A :=
  match l with
  | [] => [x]
  | y :: l' =>
      match c x y with
      | Gt => y :: insert c x l'
      | _ => x :: l
      end
  end.

Fixpoint sort {A} (c : comparator A) (l : list A) : list A :=
  match l with
  | [] => []
  | x :: l' => insert c x (sort c l')
  end.

(** The laws of a comparator that orders its type totally, up to the
    equivalence [c x y = Eq]. *)
Class Lawful {A} (c : comparator A) : Prop := {
  flip : forall x y, c y x = CompOpp (c x y);
  lt_trans : forall x y z, c x y = Lt -> c y z = Lt -> c x z = Lt;
  eq_left : forall x y z, c x y = Eq -> c x z = c y z
}.

End Order.


(** ** [DataFrame.group_by]: the keys of the groups *)

(** The distinct values of a key column, in order of first appearance.
    polars leaves the order of the groups open; the model fixes this one. *)
Fixpoint unique (l : list string) : list string :=
  match l with
  | [] => []
  | x :: l' => x :: filter (fun y => negb (String.eqb x y)) (unique l')
  end.

(** * TenorClassifier: [_classifyTenor] *)

Module TenorClassifier.

(** A row of the frame [_classifyTenor] receives: the thirteen columns of
    [REQUIRED_FIELDS], the date columns already parsed, the others still
    strings. *)
Record Auction : Type := {
  cusip : string;
  security_type : option string;
  issue_date : option Z;
  original_issue_date : option Z;
  maturity_date : option Z;
  int_rate : option string;
  total_accepted : option string;
  reopening : option string;
  inflation_index_security : option string;
  floating_rate : option string;
  announcemt_date : option Z;
  announcemtd_cusip : option string;
  auction_date : option Z
}.


(** [df.sort(["cusip", "issue_date"])] *)
Definition by_cusip_issue_date : Order.comparator Auction :=
  Order.lex (Order.on cusip String_as_OT.compare)
            (Order.on issue_date (Order.nulls_first Z.compare)).

Definition has_cusip (c : string) (r : Auction) : bool :=
  String.eqb (cusip r) c.










(** [termToMaturityDays >= lo] and [<= hi]: an Int64 cell against a Python
    number; [365.25] and every bound built from it are exact in binary
    floating point, so the comparison is the one on rationals. *)
Definition ge (t : option Z) (lo : Q) : option bool :=
  option_map (fun x => Qle_bool lo (inject_Z x)) t.

Definition le (t : option Z) (hi : Q) : option bool :=
  option_map (fun x => Qle_bool (inject_Z x) hi) t.

Definition within (t : option Z) (lo hi : Q) : option bool :=
  Null.and (ge t lo) (le t hi).

(** The [when/then] chain that assigns the tenor. *)
Definition assignTenor (t : option Z) : option Z :=
  Null.when (within t 6 8) (Some 1)
 (Null.when (within t 13 15) (Some 2)
 (Null.when (within t 26 30) (Some 4)
 (Null.when (within t 53 59) (Some 8)
 (Null.when (within t 86 96) (Some 13)
 (Null.when (within t 114 124) (Some 17)
 (Null.when (within t 149 159) (Some 22)
 (Null.when (within t 176 188) (Some 26)
 (Null.when (within t 357 371) (Some 52)
 (Null.when (within t (2 * 365.25 - 93) (2 * 365.25 + 93)) (Some 2)
 (Null.when (within t (3 * 365.25 - 93) (3 * 365.25 + 93)) (Some 3)
 (Null.when (within t (4 * 365.25 - 93) (4 * 365.25 + 93)) (Some 4)
 (Null.when (within t (5 * 365.25 - 180) (5 * 365.25 + 180)) (Some 5)
 (Null.when (within t (7 * 365.25 - 180) (7 * 365.25 + 180)) (Some 7)
 (Null.when (within t (10 * 365.25 - 240) (10 * 365.25 + 240)) (Some 10)
 (Null.when (within t (20 * 365.25 - 540) (20 * 365.25 + 540)) (Some 20)
 (Null.when (within t (30 * 365.25 - 720) (30 * 365.25 + 720)) (Some 30)
  None)))))))))))))))).



(** The bands of the chain as data: a day range and the tenor it gives. *)
Record Band : Type := { lo : Q; hi : Q; label : Z }.

Definition bill (l h w : Z) : Band :=
  {| lo := inject_Z l; hi := inject_Z h; label := w |}.

Definition coupon (n tol : Z) : Band :=
  {| lo := inject_Z n * 365.25 - inject_Z tol;
     hi := inject_Z n * 365.25 + inject_Z tol;
     label := n |}.

Definition bands : list Band :=
  [ bill 6 8 1; bill 13 15 2; bill 26 30 4; bill 53 59 8; bill 86 96 13;
    bill 114 124 17; bill 149 159 22; bill 176 188 26; bill 357 371 52;
    coupon 2 93; coupon 3 93; coupon 4 93; coupon 5 180; coupon 7 180;
    coupon 10 240; coupon 20 540; coupon 30 720 ].

Definition in_band (b : Band) (t : Z) : bool :=
  Qle_bool (lo b) (inject_Z t) && Qle_bool (inject_Z t) (hi b).

(** The tenor of the first band of [bs], taken in the order of the list,
    that contains [t]. *)
Fixpoint first_match (bs : list Band) (t : Z) : option Z :=
  match bs with
  | [] => None
  | b :: bs' => if in_band b t then Some (label b) else first_match bs' t
  end.

(** A band ends strictly before another one starts. *)
Definition before (a b : Band) : Prop := (hi a < lo b)%Q.

End TenorClassifier.

(** A ten-year note first issued on day 19000, and reopened 100 days later
    under an announced cusip. *)
Module TenorSample.
Import TenorClassifier.

Definition note (issue : Z) (announced : option string) (reopen : string)
  : Auction :=
  {| cusip := "91282CAA";
     security_type := Some "Note"%string;
     issue_date := Some issue;
     original_issue_date := None;
     maturity_date := Some 22653;
     int_rate := None;
     total_accepted := None;
     reopening := Some reopen;
     inflation_index_security := Some "No"%string;
     floating_rate := Some "No"%string;
     announcemt_date := None;
     announcemtd_cusip := announced;
     auction_date := None |}.

Definition opening : Auction := note 19000 None "No".

Definition reopened : Auction := note 19100 (Some "91282CAA"%string) "Yes".

Definition frame : list Auction := [reopened; opening].



End TenorSample.

(** The bands of the chain in whole days: the first and the last term, in
    days, that each band takes, and the tenor it gives. *)
Module TenorTable.

Record DayBand : Type := { first_day : Z; last_day : Z; tenor_of : Z }.

Definition day_bands : list DayBand :=
  [ {| first_day := 6; last_day := 8; tenor_of := 1 |};
    {| first_day := 13; last_day := 15; tenor_of := 2 |};
    {| first_day := 26; last_day := 30; tenor_of := 4 |};
    {| first_day := 53; last_day := 59; tenor_of := 8 |};
    {| first_day := 86; last_day := 96; tenor_of := 13 |};
    {| first_day := 114; last_day := 124; tenor_of := 17 |};
    {| first_day := 149; last_day := 159; tenor_of := 22 |};
    {| first_day := 176; last_day := 188; tenor_of := 26 |};
    {| first_day := 357; last_day := 371; tenor_of := 52 |};
    {| first_day := 638; last_day := 823; tenor_of := 2 |};
    {| first_day := 1003; last_day := 1188; tenor_of := 3 |};
    {| first_day := 1368; last_day := 1554; tenor_of := 4 |};
    {| first_day := 1647; last_day := 2006; tenor_of := 5 |};
    {| first_day := 2377; last_day := 2736; tenor_of := 7 |};
    {| first_day := 3413; last_day := 3892; tenor_of := 10 |};
    {| first_day := 6765; last_day := 7845; tenor_of := 20 |};
    {| first_day := 10238; last_day := 11677; tenor_of := 30 |} ].

Definition in_days (b : DayBand) (t : Z) : bool :=
  (first_day b <=? t) && (t <=? last_day b).

Fixpoint first_in_days (bs : list DayBand) (t : Z) : option Z :=
  match bs with
  | [] => None
  | b :: bs' => if in_days b t then Some (tenor_of b) else first_in_days bs' t
  end.

(** The tenors of bills, in weeks, and of notes and bonds, in years. *)
Definition bill_tenors : list Z := [1; 2; 4; 8; 13; 17; 22; 26; 52].

Definition coupon_tenors : list Z := [2; 3; 4; 5; 7; 10; 20; 30].

End TenorTable.


(** * Fetcher: [_fetchAuctionData] *)

(** The HTTP service is a function from the query of a GET request to the
    response: the loop never sends the same query twice.  Of the response
    the code reads the status code and, in the JSON body, the list under
    the key [data], when the key is there.  The rows are JSON objects, of
    any type [R] here; the frame returned is the list of the rows.  The
    [print] calls are left out. *)
Module Fetcher.

Definition API_BASE_URL : string :=
  "https://api.fiscaldata.treasury.gov/services/api/fiscal_service/v1/accounting/od/auctions_query".

Definition REQUIRED_FIELDS : list string :=
  [ "cusip"; "security_type"; "issue_date"; "original_issue_date";
    "maturity_date"; "int_rate"; "total_accepted"; "reopening";
    "inflation_index_security"; "floating_rate"; "announcemt_date";
    "announcemtd_cusip"; "auction_date" ]%string.

(** API maximum page size. *)
Definition pageSize : Z := 10000.

(** [requests.get(API_BASE_URL, params=params)] *)
Record Request : Type := {
  url : string;
  fields : string;
  filter : string;
  format : string;
  page_number : Z;
  page_size : Z
}.

Record Response (R : Type) : Type := {
  status_code : Z;
  data : option (list R)
}.

Arguments status_code {R} r.
Arguments data {R} r.

(** What a call ends with: the frame, or the exception raised for a status
    other than 200, with the page and the status of its message. *)
Inductive Outcome (R : Type) : Type :=
| Fetched (rows : list R)
| ApiRequestFailed (page : Z) (status : Z).

Arguments Fetched {R} rows.
Arguments ApiRequestFailed {R} page status.

Section Loop.
Context {R : Type} (server : Request -> Response R).
Context (startDate endDate : string).

Definition filterStr : string :=
  String.append "auction_date:gte:"
    (String.append startDate
       (String.append ",auction_date:lte:" endDate)).

Definition params (page : Z) : Request :=
  {| url := API_BASE_URL;
     fields := String.concat "," REQUIRED_FIELDS;
     filter := filterStr;
     format := "json";
     page_number := page;
     page_size := pageSize |}.

(** The [while True] loop: the page to ask for, the rows collected and the
    requests sent so far.  [None] when [fuel] rounds do not end it. *)
Fixpoint fetch_loop (fuel : nat) (page : Z) (allData : list R)
  (sent : list Request) : option (Outcome R * list Request) :=
  match fuel with
  | O => None
  | S fuel' =>
      let request := params page in
      let response := server request in
      let sent := sent ++ [request] in
      if negb (status_code response =? 200) then
        Some (ApiRequestFailed page (status_code response), sent)
      else
        match data response with
        | None => Some (Fetched allData, sent)
        | Some rows =>
            if Z.of_nat (List.length rows) =? 0 then
              Some (Fetched allData, sent)
            else
              let allData := allData ++ rows in
              if Z.of_nat (List.length rows) <? pageSize then
                Some (Fetched allData, sent)
              else fetch_loop fuel' (page + 1) allData sent
        end
  end.

Definition _fetchAuctionData (fuel : nat)
  : option (Outcome R * list Request) :=
  fetch_loop fuel 1 [] [].

(** The requests for the pages 1 to [k]. *)
Definition requests (k : nat) : list Request :=
  map (fun i => params (Z.of_nat i)) (seq 1 k).

End Loop.

(** A service that holds [records] and answers page [p] of size [size]
    with the records of that page, an empty list past the end. *)
Definition pageOf {R} (records : list R) (size p : Z) : list R :=
  firstn (Z.to_nat size) (skipn (Z.to_nat (size * (p - 1))) records).

Definition paginating {R} (records : list R) (request : Request)
  : Response R :=
  {| status_code := 200;
     data := Some (pageOf records (page_size request)
                          (page_number request)) |}.

(** A page that does not end the loop: status 200 and at least [pageSize]
    rows. *)
Definition FullPage {R} (response : Response R) : Prop :=
  status_code response = 200 /\
  exists rows, data response = Some rows /\
               pageSize <= Z.of_nat (List.length rows).

End Fetcher.

(** * PanelBuilder: [_createCusipPanel] *)

(** ** The system clock *)

(** What [date.today()] reads: the clock and the local time zone. *)
Record World : Type := {
  epoch_seconds : Z;
  utc_offset_seconds : Z
}.

(** [date.today()], as days since 1970-01-01. *)
Definition date_today (w : World) : Z :=
  (epoch_seconds w + utc_offset_seconds w) / 86400.

(** [dt.weekday()]: Monday is 1 and Sunday is 7; 1970-01-01 was a
    Thursday. *)
Definition weekday (d : Z) : Z := (d + 3) mod 7 + 1.

(** [pl.date_range(start, end, interval="1d")]: every day from [start] to
    [end], both included; empty when [end < start]. *)
Definition date_range (start stop : Z) : list Z :=
  map (fun i => start + Z.of_nat i) (seq 0 (Z.to_nat (stop - start + 1))).

(** ** The frames *)

(** A row of the frame [_createCusipPanel] receives: the cached auctions,
    classified and typed by [_loadOrDownloadData].  Amounts are whole
    dollars, which a Float64 holds exactly below 2^53. *)
Module Auction.

Record t : Type := {
  cusip : string;
  security_type : option string;
  issue_date : option Z;
  original_issue_date : option Z;
  maturity_date : option Z;
  int_rate : option Q;
  total_accepted : option Z;
  inflation_index_security : option bool;
  floating_rate : option bool;
  announcemt_date : option Z;
  announcemtd_cusip : option string;
  auction_date : option Z;
  unscheduledReopeningDate : option Z;
  tenor : option Z;
  issuanceType : option string
}.

End Auction.

(** The auction-derived columns of [auctionData], which the left join
    brings into the calendar. *)
Module Attrs.

Record t : Type := {
  amountIssued : option Z;
  issuanceType : option string;
  tenor : option Z;
  coupon : option Q;
  maturityDate : option Z;
  announcementDate : option Z;
  auctionDate : option Z;
  unscheduledReopeningDate : option Z;
  firstIssueDate : option Z;
  TIPS : option bool;
  floatingRate : option bool;
  securityType : option string
}.

(** The cells of a calendar slot that no auction matches. *)
Definition null : t :=
  {| amountIssued := None; issuanceType := None; tenor := None;
     coupon := None; maturityDate := None; announcementDate := None;
     auctionDate := None; unscheduledReopeningDate := None;
     firstIssueDate := None; TIPS := None; floatingRate := None;
     securityType := None |}.

Definition set_amountIssued (v : option Z) (a : t) : t :=
  {| amountIssued := v; issuanceType := issuanceType a; tenor := tenor a;
     coupon := coupon a; maturityDate := maturityDate a;
     announcementDate := announcementDate a; auctionDate := auctionDate a;
     unscheduledReopeningDate := unscheduledReopeningDate a;
     firstIssueDate := firstIssueDate a; TIPS := TIPS a;
     floatingRate := floatingRate a; securityType := securityType a |}.

Definition set_issuanceType (v : option string) (a : t) : t :=
  {| amountIssued := amountIssued a; issuanceType := v; tenor := tenor a;
     coupon := coupon a; maturityDate := maturityDate a;
     announcementDate := announcementDate a; auctionDate := auctionDate a;
     unscheduledReopeningDate := unscheduledReopeningDate a;
     firstIssueDate := firstIssueDate a; TIPS := TIPS a;
     floatingRate := floatingRate a; securityType := securityType a |}.

Definition set_tenor (v : option Z) (a : t) : t :=
  {| amountIssued := amountIssued a; issuanceType := issuanceType a;
     tenor := v; coupon := coupon a; maturityDate := maturityDate a;
     announcementDate := announcementDate a; auctionDate := auctionDate a;
     unscheduledReopeningDate := unscheduledReopeningDate a;
     firstIssueDate := firstIssueDate a; TIPS := TIPS a;
     floatingRate := floatingRate a; securityType := securityType a |}.

Definition set_coupon (v : option Q) (a : t) : t :=
  {| amountIssued := amountIssued a; issuanceType := issuanceType a;
     tenor := tenor a; coupon := v; maturityDate := maturityDate a;
     announcementDate := announcementDate a; auctionDate := auctionDate a;
     unscheduledReopeningDate := unscheduledReopeningDate a;
     firstIssueDate := firstIssueDate a; TIPS := TIPS a;
     floatingRate := floatingRate a; securityType := securityType a |}.

Definition set_maturityDate (v : option Z) (a : t) : t :=
  {| amountIssued := amountIssued a; issuanceType := issuanceType a;
     tenor := tenor a; coupon := coupon a; maturityDate := v;
     announcementDate := announcementDate a; auctionDate := auctionDate a;
     unscheduledReopeningDate := unscheduledReopeningDate a;
     firstIssueDate := firstIssueDate a; TIPS := TIPS a;
     floatingRate := floatingRate a; securityType := securityType a |}.

Definition set_announcementDate (v : option Z) (a : t) : t :=
  {| amountIssued := amountIssued a; issuanceType := issuanceType a;
     tenor := tenor a; coupon := coupon a; maturityDate := maturityDate a;
     announcementDate := v; auctionDate := auctionDate a;
     unscheduledReopeningDate := unscheduledReopeningDate a;
     firstIssueDate := firstIssueDate a; TIPS := TIPS a;
     floatingRate := floatingRate a; securityType := securityType a |}.

Definition set_auctionDate (v : option Z) (a : t) : t :=
  {| amountIssued := amountIssued a; issuanceType := issuanceType a;
     tenor := tenor a; coupon := coupon a; maturityDate := maturityDate a;
     announcementDate := announcementDate a; auctionDate := v;
     unscheduledReopeningDate := unscheduledReopeningDate a;
     firstIssueDate := firstIssueDate a; TIPS := TIPS a;
     floatingRate := floatingRate a; securityType := securityType a |}.

Definition set_unscheduledReopeningDate (v : option Z) (a : t) : t :=
  {| amountIssued := amountIssued a; issuanceType := issuanceType a;
     tenor := tenor a; coupon := coupon a; maturityDate := maturityDate a;
     announcementDate := announcementDate a; auctionDate := auctionDate a;
     unscheduledReopeningDate := v;
     firstIssueDate := firstIssueDate a; TIPS := TIPS a;
     floatingRate := floatingRate a; securityType := securityType a |}.

Definition set_firstIssueDate (v : option Z) (a : t) : t :=
  {| amountIssued := amountIssued a; issuanceType := issuanceType a;
     tenor := tenor a; coupon := coupon a; maturityDate := maturityDate a;
     announcementDate := announcementDate a; auctionDate := auctionDate a;
     unscheduledReopeningDate := unscheduledReopeningDate a;
     firstIssueDate := v; TIPS := TIPS a;
     floatingRate := floatingRate a; securityType := securityType a |}.

Definition set_TIPS (v : option bool) (a : t) : t :=
  {| amountIssued := amountIssued a; issuanceType := issuanceType a;
     tenor := tenor a; coupon := coupon a; maturityDate := maturityDate a;
     announcementDate := announcementDate a; auctionDate := auctionDate a;
     unscheduledReopeningDate := unscheduledReopeningDate a;
     firstIssueDate := firstIssueDate a; TIPS := v;
     floatingRate := floatingRate a; securityType := securityType a |}.

Definition set_floatingRate (v : option bool) (a : t) : t :=
  {| amountIssued := amountIssued a; issuanceType := issuanceType a;
     tenor := tenor a; coupon := coupon a; maturityDate := maturityDate a;
     announcementDate := announcementDate a; auctionDate := auctionDate a;
     unscheduledReopeningDate := unscheduledReopeningDate a;
     firstIssueDate := firstIssueDate a; TIPS := TIPS a;
     floatingRate := v; securityType := securityType a |}.

Definition set_securityType (v : option string) (a : t) : t :=
  {| amountIssued := amountIssued a; issuanceType := issuanceType a;
     tenor := tenor a; coupon := coupon a; maturityDate := maturityDate a;
     announcementDate := announcementDate a; auctionDate := auctionDate a;
     unscheduledReopeningDate := unscheduledReopeningDate a;
     firstIssueDate := firstIssueDate a; TIPS := TIPS a;
     floatingRate := floatingRate a; securityType := v |}.

End Attrs.

(** A row of [auctionData]: the join keys, [date] being the auction's
    [issue_date], and the auction-derived columns. *)
Module AuctionData.

Record t : Type := {
  cusip : string;
  date : option Z;
  attrs : Attrs.t
}.

End AuctionData.

(** A row of the panel: a calendar slot of a cusip with the joined columns
    and, once computed, [totalIssued] and [vintage] (null before). *)
Module Row.

Record t : Type := {
  cusip : string;
  date : Z;
  attrs : Attrs.t;
  totalIssued : option Z;
  vintage : option Z
}.

Definition with_attrs (f : Attrs.t -> Attrs.t) (r : t) : t :=
  {| cusip := cusip r; date := date r; attrs := f (attrs r);
     totalIssued := totalIssued r; vintage := vintage r |}.

Definition set_totalIssued (v : option Z) (r : t) : t :=
  {| cusip := cusip r; date := date r; attrs := attrs r;
     totalIssued := v; vintage := vintage r |}.

Definition set_vintage (v : option Z) (r : t) : t :=
  {| cusip := cusip r; date := date r; attrs := attrs r;
     totalIssued := totalIssued r; vintage := v |}.

End Row.

Module PanelBuilder.

(** *** Helpers for columns *)

(** [filter] keeps the rows whose condition is true; null drops the row. *)
Definition holds (c : option bool) : bool :=
  match c with
  | Some true => true
  | _ => false
  end.

(** [col.min()]: the least non-null cell, null when there is none. *)
Definition min_cell (a b : option Z) : option Z :=
  match a, b with
  | Some x, Some y => Some (Z.min x y)
  | Some x, None => Some x
  | None, _ => b
  end.

Definition col_min (col : list (option Z)) : option Z :=
  fold_right min_cell None col.

(** [col.first()] *)
Definition col_first {A} (col : list (option A)) : option A :=
  match col with
  | [] => None
  | x :: _ => x
  end.

(** Equality of group keys: in [group_by] and [over], null equals null. *)
Definition cell_eqb {A} (eqb : A -> A -> bool) (a b : option A) : bool :=
  match a, b with
  | Some x, Some y => eqb x y
  | None, None => true
  | _, _ => false
  end.

(** The state of a scan partitioned by cusip: one value per cusip. *)
Definition upd {S} (st : string -> S) (c : string) (v : S) : string -> S :=
  fun c' => if String.eqb c c' then v else st c'.

(** A column of the joined frame, read and written inside [Attrs.t]. *)
Record Column (A : Type) : Type := {
  get : Attrs.t -> option A;
  set : option A -> Attrs.t -> Attrs.t
}.

Arguments get {A} c a.
Arguments set {A} c v a.

Definition tenor : Column Z :=
  {| get := Attrs.tenor; set := Attrs.set_tenor |}.
Definition coupon : Column Q :=
  {| get := Attrs.coupon; set := Attrs.set_coupon |}.
Definition maturityDate : Column Z :=
  {| get := Attrs.maturityDate; set := Attrs.set_maturityDate |}.
Definition announcementDate : Column Z :=
  {| get := Attrs.announcementDate; set := Attrs.set_announcementDate |}.
Definition auctionDate : Column Z :=
  {| get := Attrs.auctionDate; set := Attrs.set_auctionDate |}.
Definition unscheduledReopeningDate : Column Z :=
  {| get := Attrs.unscheduledReopeningDate;
     set := Attrs.set_unscheduledReopeningDate |}.
Definition firstIssueDate : Column Z :=
  {| get := Attrs.firstIssueDate; set := Attrs.set_firstIssueDate |}.
Definition TIPS : Column bool :=
  {| get := Attrs.TIPS; set := Attrs.set_TIPS |}.
Definition floatingRate : Column bool :=
  {| get := Attrs.floatingRate; set := Attrs.set_floatingRate |}.
Definition securityType : Column string :=
  {| get := Attrs.securityType; set := Attrs.set_securityType |}.

(** *** 1. firstIssueDate *)

Definition has_cusip (c : string) (r : Auction.t) : bool :=
  String.eqb (Auction.cusip r) c.

(** [pl.col("issue_date").min().over("cusip")] *)
Definition firstIssueDateOf (auctionsDf : list Auction.t) (c : string)
  : option Z :=
  col_min (map Auction.issue_date (filter (has_cusip c) auctionsDf)).

(** *** 2. Time series completion *)

(** A row of [cusipDateRanges]. *)
Record DateRange : Type := {
  range_cusip : string;
  start_date : option Z;
  end_date : option Z
}.

(** [auctionsDf.group_by("cusip").agg([announcemt_date.min(),
    maturity_date.first()])]: the row of one group, and the frame. *)
Definition dateRangeOf (auctionsDf : list Auction.t) (c : string)
  : DateRange :=
  let g := filter (has_cusip c) auctionsDf in
  {| range_cusip := c;
     start_date := col_min (map Auction.announcemt_date g);
     end_date := col_first (map Auction.maturity_date g) |}.

Definition cusipDateRanges (auctionsDf : list Auction.t) : list DateRange :=
  map (dateRangeOf auctionsDf) (unique (map Auction.cusip auctionsDf)).

(** The body of the loop: the calendar of one cusip.  [min(None, today)]
    raises a TypeError, and a null start is refused by [pl.date_range];
    a start after the end gives a calendar with no day. *)
Definition cusipDates (today : Z) (row : DateRange)
  : result (list (string * Z)) :=
  match end_date row with
  | None => Raise TypeError_min_NoneType
  | Some e =>
      let endDate := Z.min e today in
      match start_date row with
      | None => Raise ComputeError_date_range_null
      | Some s => Ok (map (pair (range_cusip row)) (date_range s endDate))
      end
  end.

(** [pl.DataFrame({"cusip": [c] * len(dateRange), "date": dateRange})]:
    for an empty range [[c] * 0] is the empty list, and the [cusip] column
    of the frame has dtype Null. *)
Definition has_null_cusip_column (frame : list (string * Z)) : bool :=
  match frame with
  | [] => true
  | _ => false
  end.

(** [pl.concat(frames)]: refuses an empty list of frames, and stacks the
    others on the first one, which gives the columns their types.  A frame
    whose [cusip] has dtype Null is cast and adds no row; but on a first
    frame whose [cusip] has dtype Null, a frame whose [cusip] is a String
    does not fit. *)
Definition pl_concat (frames : list (list (string * Z)))
  : result (list (string * Z)) :=
  match frames with
  | [] => Raise ValueError_concat_empty_list
  | first :: rest =>
      if has_null_cusip_column first
         && negb (forallb has_null_cusip_column rest)
      then Raise SchemaError_null_cusip_column
      else Ok (List.concat frames)
  end.

(** The loop over [ranges], [pl.concat], and the check that the join with
    the auction data makes of its keys: a calendar with no row has come
    from frames with no row, its [cusip] has dtype Null, and the join on
    ["cusip", "date"] refuses it.  Nothing else raises between [pl.concat]
    and the join. *)
Definition calendarOf (today : Z) (ranges : list DateRange)
  : result (list (string * Z)) :=
  allCusipDates <- mapM (cusipDates today) ranges ;;
  completeDates <- pl_concat allCusipDates ;;
  if has_null_cusip_column completeDates
  then Raise SchemaError_null_cusip_column
  else Ok completeDates.

Definition completeDates (today : Z) (auctionsDf : list Auction.t)
  : result (list (string * Z)) :=
  calendarOf today (cusipDateRanges auctionsDf).

(** *** Auction data prepared for the join *)

(** [auctionsDf.select([...])], with the [firstIssueDate] of step 1. *)
Definition select (auctionsDf : list Auction.t) (r : Auction.t)
  : AuctionData.t :=
  {| AuctionData.cusip := Auction.cusip r;
     AuctionData.date := Auction.issue_date r;
     AuctionData.attrs :=
       {| Attrs.amountIssued := Auction.total_accepted r;
          Attrs.issuanceType := Auction.issuanceType r;
          Attrs.tenor := Auction.tenor r;
          Attrs.coupon := Auction.int_rate r;
          Attrs.maturityDate := Auction.maturity_date r;
          Attrs.announcementDate := Auction.announcemt_date r;
          Attrs.auctionDate := Auction.auction_date r;
          Attrs.unscheduledReopeningDate := Auction.unscheduledReopeningDate r;
          Attrs.firstIssueDate := firstIssueDateOf auctionsDf (Auction.cusip r);
          Attrs.TIPS := Auction.inflation_index_security r;
          Attrs.floatingRate := Auction.floating_rate r;
          Attrs.securityType := Auction.security_type r |} |}.

(** *** Bonds to be issued (future-dated) *)

Definition is_future (today : Z) (a : AuctionData.t) : bool :=
  holds (Null.ltb (Some today) (AuctionData.date a)).

Definition is_today (today : Z) (a : AuctionData.t) : bool :=
  holds (Null.lift2 Z.eqb (AuctionData.date a) (Some today)).

Definition not_after (today : Z) (a : AuctionData.t) : bool :=
  holds (Null.leb (AuctionData.date a) (Some today)).

(** The four [with_columns] of the future-dated branch. *)
Definition moveToToday (today : Z) (a : AuctionData.t) : AuctionData.t :=
  {| AuctionData.cusip := AuctionData.cusip a;
     AuctionData.date := Some today;
     AuctionData.attrs :=
       Attrs.set_amountIssued (Some 0)
         (Attrs.set_unscheduledReopeningDate None
            (Attrs.set_issuanceType None (AuctionData.attrs a))) |}.

Definition resolveFutureDated (today : Z) (auctionData : list AuctionData.t)
  : list AuctionData.t :=
  let futureDated := filter (is_future today) auctionData in
  if (0 <? Z.of_nat (List.length futureDated)) then
    let cusipsWithToday :=
      map AuctionData.cusip (filter (is_today today) auctionData) in
    (* anti join on cusip *)
    let futureWithoutToday :=
      filter (fun a => negb (existsb (String.eqb (AuctionData.cusip a))
                                     cusipsWithToday))
             futureDated in
    let auctionData := filter (not_after today) auctionData in
    if (0 <? Z.of_nat (List.length futureWithoutToday)) then
      auctionData ++ map (moveToToday today) futureWithoutToday
    else auctionData
  else auctionData.

(** *** The left join of the calendar with the auction data *)

Definition matches (c : string) (d : Z) (a : AuctionData.t) : bool :=
  String.eqb (AuctionData.cusip a) c &&
  holds (Null.lift2 Z.eqb (AuctionData.date a) (Some d)).

Definition slot (c : string) (d : Z) (a : Attrs.t) : Row.t :=
  {| Row.cusip := c; Row.date := d; Row.attrs := a;
     Row.totalIssued := None; Row.vintage := None |}.

(** One calendar slot joined: a row per matching auction, or one row of
    nulls when none matches. *)
Definition joinSlot (auctionData : list AuctionData.t) (cd : string * Z)
  : list Row.t :=
  match filter (matches (fst cd) (snd cd)) auctionData with
  | [] => [slot (fst cd) (snd cd) Attrs.null]
  | ms => map (fun a => slot (fst cd) (snd cd) (AuctionData.attrs a)) ms
  end.

Definition leftJoin (dates : list (string * Z))
  (auctionData : list AuctionData.t) : list Row.t :=
  flat_map (joinSlot auctionData) dates.

(** *** Forward and backward fill *)

(** [auctionsDf.sort(["cusip", "date"])] *)
Definition by_cusip_date : Order.comparator Row.t :=
  Order.lex (Order.on Row.cusip String_as_OT.compare)
            (Order.on Row.date Z.compare).

(** [pl.col(c).forward_fill().over("cusip")]: one pass in row order that
    remembers, per cusip, the last non-null cell seen. *)
Fixpoint forward_fill_from {A} (col : Column A) (last : string -> option A)
  (rows : list Row.t) : list Row.t :=
  match rows with
  | [] => []
  | r :: rows' =>
      let v := Null.or_else (get col (Row.attrs r)) (last (Row.cusip r)) in
      Row.with_attrs (set col v) r
        :: forward_fill_from col (upd last (Row.cusip r) v) rows'
  end.

Definition forward_fill {A} (col : Column A) (rows : list Row.t)
  : list Row.t :=
  forward_fill_from col (fun _ => None) rows.

(** [pl.col(c).backward_fill().over("cusip")]: the same pass from the last
    row to the first. *)
Definition backward_fill {A} (col : Column A) (rows : list Row.t)
  : list Row.t :=
  rev (forward_fill col (rev rows)).

Definition forwardFillStatic (rows : list Row.t) : list Row.t :=
  forward_fill securityType
 (forward_fill floatingRate
 (forward_fill TIPS
 (forward_fill firstIssueDate
 (forward_fill unscheduledReopeningDate
 (forward_fill auctionDate
 (forward_fill announcementDate
 (forward_fill maturityDate
 (forward_fill coupon
 (forward_fill tenor rows))))))))).

Definition backwardFillStatic (rows : list Row.t) : list Row.t :=
  backward_fill securityType
 (backward_fill floatingRate
 (backward_fill TIPS
 (backward_fill firstIssueDate
 (backward_fill auctionDate
 (backward_fill announcementDate
 (backward_fill maturityDate
 (backward_fill coupon
 (backward_fill tenor rows)))))))).

(** *** amountIssued on non-issue dates and before the first issue *)

Definition isWhenIssued (r : Row.t) : option bool :=
  Null.ltb (Some (Row.date r)) (Attrs.firstIssueDate (Row.attrs r)).

Definition zeroAmountIssued (r : Row.t) : Row.t :=
  Row.with_attrs
    (Attrs.set_amountIssued
       (Null.when (isWhenIssued r)
          (Some 0)
          (Some (Null.fill_null 0 (Attrs.amountIssued (Row.attrs r))))))
    r.

(** *** 3. Cumulative issuance *)

(** [sort(["cusip", "date", "tenor", "firstIssueDate"],
          descending=[True, False, False, True])] *)
Definition by_cusip_desc_date : Order.comparator Row.t :=
  Order.lex (Order.on Row.cusip (Order.desc String_as_OT.compare))
 (Order.lex (Order.on Row.date Z.compare)
 (Order.lex (Order.on (fun r => Attrs.tenor (Row.attrs r))
                      (Order.nulls_first Z.compare))
            (Order.on (fun r => Attrs.firstIssueDate (Row.attrs r))
                      (Order.nulls_first (Order.desc Z.compare))))).

(** [pl.col("amountIssued").cum_sum().over("cusip")]: a running sum per
    cusip in row order; a null cell stays null and adds nothing. *)
Fixpoint cum_sum_from (acc : string -> Z) (rows : list Row.t)
  : list Row.t :=
  match rows with
  | [] => []
  | r :: rows' =>
      match Attrs.amountIssued (Row.attrs r) with
      | Some a =>
          let s := acc (Row.cusip r) + a in
          Row.set_totalIssued (Some s) r
            :: cum_sum_from (upd acc (Row.cusip r) s) rows'
      | None => Row.set_totalIssued None r :: cum_sum_from acc rows'
      end
  end.

Definition cumulativeIssuance (rows : list Row.t) : list Row.t :=
  cum_sum_from (fun _ => 0) rows.

(** *** 4. Vintage *)

(** The rows of one (date, securityType, TIPS, floatingRate, tenor)
    group. *)
Definition same_group (r r' : Row.t) : bool :=
  Z.eqb (Row.date r) (Row.date r') &&
  cell_eqb String.eqb (Attrs.securityType (Row.attrs r))
                      (Attrs.securityType (Row.attrs r')) &&
  cell_eqb Bool.eqb (Attrs.TIPS (Row.attrs r)) (Attrs.TIPS (Row.attrs r')) &&
  cell_eqb Bool.eqb (Attrs.floatingRate (Row.attrs r))
                    (Attrs.floatingRate (Row.attrs r')) &&
  cell_eqb Z.eqb (Attrs.tenor (Row.attrs r)) (Attrs.tenor (Row.attrs r')).

Definition group_of (rows : list Row.t) (r : Row.t) : list Row.t :=
  filter (same_group r) rows.

(** The non-null cells of a column. *)
Definition non_null {A} (col : list (option A)) : list A :=
  flat_map (fun o => match o with Some x => [x] | None => [] end) col.

(** [col.rank(method="dense", descending=True)] for one cell of the
    column: one more than the number of distinct values above it; the rank
    of a null is null, and nulls are not ranked. *)
Definition rank_dense_descending (col : list (option Z)) (v : option Z)
  : option Z :=
  option_map
    (fun x =>
       1 + Z.of_nat (List.length (nodup Z.eq_dec
                               (filter (fun y => x <? y) (non_null col)))))
    v.

Definition firstIssueDates (rows : list Row.t) : list (option Z) :=
  map (fun r => Attrs.firstIssueDate (Row.attrs r)) rows.

(** [(firstIssueDate.rank(...).over([...]) - 1).cast(pl.Int64)] *)
Definition rankVintage (rows : list Row.t) (r : Row.t) : Row.t :=
  Row.set_vintage
    (option_map (fun k => k - 1)
       (rank_dense_descending (firstIssueDates (group_of rows r))
                              (Attrs.firstIssueDate (Row.attrs r))))
    r.

(** [(date < firstIssueDate).any().over([...])]: nulls count as false. *)
Definition hasWhenIssued (rows : list Row.t) (r : Row.t) : bool :=
  existsb (fun r' => holds (isWhenIssued r')) (group_of rows r).

Definition adjustWhenIssued (rows : list Row.t) (r : Row.t) : Row.t :=
  if hasWhenIssued rows r
  then Row.set_vintage (option_map (fun k => k - 1) (Row.vintage r)) r
  else r.

Definition computeVintage (rows : list Row.t) : list Row.t :=
  let ranked := map (rankVintage rows) rows in
  map (adjustWhenIssued ranked) ranked.

(** *** 5. Weekends and the final order *)

Definition isBusinessDay (r : Row.t) : bool := weekday (Row.date r) <? 6.

(** [sort(["floatingRate", "TIPS", "date", "securityType", "tenor",
           "vintage"], descending=[False, False, True, True, False, False])] *)
Definition finalOrder : Order.comparator Row.t :=
  Order.lex (Order.on (fun r => Attrs.floatingRate (Row.attrs r))
                      (Order.nulls_first Order.bool_compare))
 (Order.lex (Order.on (fun r => Attrs.TIPS (Row.attrs r))
                      (Order.nulls_first Order.bool_compare))
 (Order.lex (Order.on Row.date (Order.desc Z.compare))
 (Order.lex (Order.on (fun r => Attrs.securityType (Row.attrs r))
                      (Order.nulls_first (Order.desc String_as_OT.compare)))
 (Order.lex (Order.on (fun r => Attrs.tenor (Row.attrs r))
                      (Order.nulls_first Z.compare))
            (Order.on Row.vintage (Order.nulls_first Z.compare)))))).

(** *** The pipeline *)

(** The auction data that enters the join. *)
Definition auctionData (today : Z) (auctionsDf : list Auction.t)
  : list AuctionData.t :=
  resolveFutureDated today (map (select auctionsDf) auctionsDf).

(** The frame after the join, the fills and the zeroing of
    [amountIssued]. *)
Definition zeroedFrame (today : Z) (auctionsDf : list Auction.t)
  (dates : list (string * Z)) : list Row.t :=
  let joined := leftJoin dates (auctionData today auctionsDf) in
  let sorted := Order.sort by_cusip_date joined in
  let filled := backwardFillStatic (forwardFillStatic sorted) in
  map zeroAmountIssued filled.

(** The frame with [totalIssued]. *)
Definition summedFrame (today : Z) (auctionsDf : list Auction.t)
  (dates : list (string * Z)) : list Row.t :=
  let ordered :=
    Order.sort by_cusip_desc_date (zeroedFrame today auctionsDf dates) in
  cumulativeIssuance ordered.

(** Everything after the calendar is built, down to the vintages, the
    weekend filter and the final sort. *)
Definition buildPanel (today : Z) (auctionsDf : list Auction.t)
  (dates : list (string * Z)) : list Row.t :=
  let ranked := computeVintage (summedFrame today auctionsDf dates) in
  let weekdays := filter isBusinessDay ranked in
  Order.sort finalOrder weekdays.

Definition _createCusipPanel (w : World) (auctionsDf : list Auction.t)
  : result (list Row.t) :=
  let today := date_today w in
  dates <- completeDates today auctionsDf ;;
  Ok (buildPanel today auctionsDf dates).

(** *** The order of groups and of tied rows *)

(** [group_by] returns its groups in no fixed order, and [DataFrame.sort]
    does not keep the order of rows that compare equal ([maintain_order] is
    False): what the build returns can change from one run to the next.
    A run is told by the order in which these steps take their rows: the
    groups of [cusipDateRanges], and the rows of each of the three sorts.
    A sort puts the rows it takes in order, and rows that compare equal
    stay as it took them: every sorted arrangement of the rows is the
    outcome of some way of taking them. *)
Record Ties : Type := {
  takeGroups : list DateRange -> list DateRange;  (* group_by("cusip") *)
  takeJoined : list Row.t -> list Row.t;    (* sort(["cusip", "date"]) *)
  takeZeroed : list Row.t -> list Row.t;    (* the sort before cum_sum *)
  takeRanked : list Row.t -> list Row.t     (* the final sort *)
}.

Definition unstable_sort {A} (take : list A -> list A)
  (c : Order.comparator A) (rows : list A) : list A :=
  Order.sort c (take rows).

Definition zeroedFrameOf (t : Ties) (today : Z)
  (auctionsDf : list Auction.t) (dates : list (string * Z)) : list Row.t :=
  let joined := leftJoin dates (auctionData today auctionsDf) in
  let sorted := unstable_sort (takeJoined t) by_cusip_date joined in
  let filled := backwardFillStatic (forwardFillStatic sorted) in
  map zeroAmountIssued filled.

Definition summedFrameOf (t : Ties) (today : Z)
  (auctionsDf : list Auction.t) (dates : list (string * Z)) : list Row.t :=
  let ordered :=
    unstable_sort (takeZeroed t) by_cusip_desc_date
      (zeroedFrameOf t today auctionsDf dates) in
  cumulativeIssuance ordered.

Definition buildPanelOf (t : Ties) (today : Z)
  (auctionsDf : list Auction.t) (dates : list (string * Z)) : list Row.t :=
  let ranked := computeVintage (summedFrameOf t today auctionsDf dates) in
  let weekdays := filter isBusinessDay ranked in
  unstable_sort (takeRanked t) finalOrder weekdays.

(** One run of [_createCusipPanel]. *)
Definition run (t : Ties) (w : World) (auctionsDf : list Auction.t)
  : result (list Row.t) :=
  let today := date_today w in
  dates <- calendarOf today (takeGroups t (cusipDateRanges auctionsDf)) ;;
  Ok (buildPanelOf t today auctionsDf dates).

(** The run that takes groups and rows in the order it finds them, which
    is [_createCusipPanel] above; one that takes them in the reverse order;
    and one that does so for the sort before the running sum only. *)
Definition asFound : Ties :=
  {| takeGroups := fun l => l; takeJoined := fun l => l;
     takeZeroed := fun l => l; takeRanked := fun l => l |}.

Definition reversed : Ties :=
  {| takeGroups := @rev _; takeJoined := @rev _;
     takeZeroed := @rev _; takeRanked := @rev _ |}.

Definition reversedBeforeSum : Ties :=
  {| takeGroups := fun l => l; takeJoined := fun l => l;
     takeZeroed := @rev _; takeRanked := fun l => l |}.

End PanelBuilder.

(** ** Frames related row by row *)

Definition Zsum (l : list Z) : Z := fold_right Z.add 0 l.

Module Linked.

(** [l'] holds, in some order, one row for each row of [l], related to it
    by [R]: what a pipeline of sorts and row-wise steps does to a frame. *)
Definition t {A B} (R : A -> B -> Prop) (l : list A) (l' : list B) : Prop :=
  exists l1, Permutation l l1 /\ Forall2 R l1 l'.

Definition compose {A B C} (R1 : A -> B -> Prop) (R2 : B -> C -> Prop)
  : A -> C -> Prop :=
  fun a c => exists b, R1 a b /\ R2 b c.

End Linked.

(** ** Vocabulary of the claims about the panel *)

Module Panel.
Import PanelBuilder.

(** The rows of a frame for one cusip, and for one cusip on one date. *)
Definition of_cusip (c : string) (r : Row.t) : bool :=
  String.eqb (Row.cusip r) c.

Definition at_slot (c : string) (d : Z) (r : Row.t) : bool :=
  String.eqb (Row.cusip r) c && Z.eqb (Row.date r) d.

Definition rowsAt (c : string) (d : Z) (panel : list Row.t) : list Row.t :=
  filter (at_slot c d) panel.

(** The calendar span of a cusip:
    [min(announcemt_date), min(first maturity_date, today)]. *)
Definition inSpan (today : Z) (auctionsDf : list Auction.t) (c : string)
  (d : Z) : Prop :=
  exists s e,
    start_date (dateRangeOf auctionsDf c) = Some s /\
    end_date (dateRangeOf auctionsDf c) = Some e /\
    s <= d <= Z.min e today.

Definition inSpanb (today : Z) (auctionsDf : list Auction.t) (c : string)
  (d : Z) : bool :=
  match start_date (dateRangeOf auctionsDf c),
        end_date (dateRangeOf auctionsDf c) with
  | Some s, Some e => (s <=? d) && (d <=? Z.min e today)
  | _, _ => false
  end.

(** The sum of [amountIssued] over the rows of a cusip. *)
Definition amountOf (r : Row.t) : Z :=
  Null.fill_null 0 (Attrs.amountIssued (Row.attrs r)).

Definition issuedInPanel (c : string) (panel : list Row.t) : Z :=
  Zsum (map amountOf (filter (of_cusip c) panel)).

(** The sum of [total_accepted] over the auctions of a cusip, and over
    those of them issued on a business day of the cusip's span. *)
Definition accepted (r : Auction.t) : Z :=
  Null.fill_null 0 (Auction.total_accepted r).

Definition acceptedTotal (c : string) (auctionsDf : list Auction.t) : Z :=
  Zsum (map accepted (filter (has_cusip c) auctionsDf)).

Definition issuedOnPanelDay (today : Z) (auctionsDf : list Auction.t)
  (r : Auction.t) : bool :=
  match Auction.issue_date r with
  | Some d => inSpanb today auctionsDf (Auction.cusip r) d && (weekday d <? 6)
  | None => false
  end.

Definition acceptedOnPanelDays (today : Z) (c : string)
  (auctionsDf : list Auction.t) : Z :=
  Zsum (map accepted
          (filter (fun r => has_cusip c r && issuedOnPanelDay today auctionsDf r)
                  auctionsDf)).

(** What the sort by cusip and date and the fills keep of a joined row:
    its slot, [amountIssued], [issuanceType], and a [firstIssueDate] that is
    already known. *)
Definition FillStep (a b : Row.t) : Prop :=
  Row.cusip b = Row.cusip a /\ Row.date b = Row.date a /\
  Attrs.amountIssued (Row.attrs b) = Attrs.amountIssued (Row.attrs a) /\
  Attrs.issuanceType (Row.attrs b) = Attrs.issuanceType (Row.attrs a) /\
  forall f, Attrs.firstIssueDate (Row.attrs a) = Some f ->
            Attrs.firstIssueDate (Row.attrs b) = Some f.

(** What the steps after [zeroAmountIssued] keep: the slot and every joined
    column; they only add [totalIssued] and [vintage] and reorder. *)
Definition SameAttrs (a b : Row.t) : Prop :=
  Row.cusip b = Row.cusip a /\ Row.date b = Row.date a /\
  Row.attrs b = Row.attrs a.

(** A row [r] of the panel comes from the joined row [j]. *)
Definition Trace (j r : Row.t) : Prop :=
  exists a, FillStep j a /\ SameAttrs (zeroAmountIssued a) r.

(** A column whose fill leaves [amountIssued] and [issuanceType] alone and
    never overwrites a known [firstIssueDate]. *)
Definition StaticColumn {A} (col : Column A) : Prop :=
  forall (a : Attrs.t) (w : option A),
    let v := Null.or_else (get col a) w in
    Attrs.amountIssued (set col v a) = Attrs.amountIssued a /\
    Attrs.issuanceType (set col v a) = Attrs.issuanceType a /\
    forall f, Attrs.firstIssueDate a = Some f ->
              Attrs.firstIssueDate (set col v a) = Some f.

(** Within a cusip, the order of the cumulative sum is by ascending
    date. *)
Definition dateOrdered (a b : Row.t) : Prop :=
  Row.cusip a = Row.cusip b -> Row.date a <= Row.date b.

(** A joined row whose amount, if any, is zero or dated on or after the
    first issue of its cusip: the zeroing of [amountIssued] before the
    first issue leaves such an amount as it is. *)
Definition AmountStands (j : Row.t) : Prop :=
  match Attrs.amountIssued (Row.attrs j) with
  | None => True
  | Some x =>
      x = 0 \/
      exists f, Attrs.firstIssueDate (Row.attrs j) = Some f /\ f <= Row.date j
  end.

(** The amount an auction brings into the join, null counting as zero. *)
Definition joinedAmount (a : AuctionData.t) : Z :=
  Null.fill_null 0 (Attrs.amountIssued (AuctionData.attrs a)).

(** An auction of cusip [c] dated on a business day of the span of [c]. *)
Definition onPanelDay (today : Z) (auctionsDf : list Auction.t) (c : string)
  (a : AuctionData.t) : bool :=
  String.eqb (AuctionData.cusip a) c &&
  match AuctionData.date a with
  | Some d => inSpanb today auctionsDf c d && (weekday d <? 6)
  | None => false
  end.

(** The slots of cusip [c] on business days. *)
Definition picked (c : string) (cd : string * Z) : bool :=
  String.eqb (fst cd) c && (weekday (snd cd) <? 6).

(** The amounts the join brings into one slot. *)
Definition slotSum (aD : list AuctionData.t) (cd : string * Z) : Z :=
  Zsum (map joinedAmount (filter (matches (fst cd) (snd cd)) aD)).

(** The distinct non-null values of a column, and those above [x]. *)
Definition distinctValues (col : list (option Z)) : list Z :=
  nodup Z.eq_dec (non_null col).

Definition above (col : list (option Z)) (x : Z) : list Z :=
  nodup Z.eq_dec (filter (fun y => x <? y) (non_null col)).

(** The dense descending rank of a non-null value [x]. *)
Definition rankOf (col : list (option Z)) (x : Z) : Z :=
  1 + Z.of_nat (List.length (above col x)).

(** The vintage the ranking gives a first issue date [f] in a group [g]:
    its dense rank from 0, one less when the group has a when-issued
    member. *)
Definition hasWhenIssuedMember (g : list Row.t) : bool :=
  existsb (fun r => holds (isWhenIssued r)) g.

Definition vintageIn (g : list Row.t) (f : Z) : Z :=
  rankOf (firstIssueDates g) f - 1 - (if hasWhenIssuedMember g then 1 else 0).

Definition firstIssue (r : Row.t) : option Z :=
  Attrs.firstIssueDate (Row.attrs r).

(** The auction data before the future-dated records are resolved. *)
Definition selected (auctionsDf : list Auction.t) : list AuctionData.t :=
  map (select auctionsDf) auctionsDf.

(** The records of cusip [c] dated after today, and those dated today. *)
Definition pending (today : Z) (c : string) (aD : list AuctionData.t)
  : list AuctionData.t :=
  filter (fun a => String.eqb (AuctionData.cusip a) c && is_future today a) aD.

Definition issuedToday (today : Z) (c : string) (aD : list AuctionData.t)
  : list AuctionData.t :=
  filter (matches c today) aD.

(** The records the future-dated branch makes for cusip [c]: one for each
    pending record, when no record of [c] is dated today. *)
Definition synthesized (today : Z) (c : string) (aD : list AuctionData.t)
  : list AuctionData.t :=
  match issuedToday today c aD with
  | [] => map (moveToToday today) (pending today c aD)
  | _ :: _ => []
  end.

(** A row is when-issued on its date: the date is before the first issue. *)
Definition whenIssued (r : Row.t) : bool := holds (isWhenIssued r).

End Panel.


(** ** Sample frames *)

Module Sample.
Import PanelBuilder.

(** The clock reads 2024-10-04 (day 20000, a Friday) at 01:00 and at 02:00
    UTC, and the Monday after. *)
Definition friday : World :=
  {| epoch_seconds := 20000 * 86400 + 3600; utc_offset_seconds := 0 |}.

Definition friday_later : World :=
  {| epoch_seconds := 20000 * 86400 + 7200; utc_offset_seconds := 0 |}.

Definition monday : World :=
  {| epoch_seconds := 20003 * 86400 + 3600; utc_offset_seconds := 0 |}.

(** A four-week bill: issue date, maturity date, announcement date and the
    amount accepted; the auction is the day after the announcement. *)
Definition bill (c : string) (issue maturity announced amount : Z)
  : Auction.t :=
  {| Auction.cusip := c;
     Auction.security_type := Some "Bill"%string;
     Auction.issue_date := Some issue;
     Auction.original_issue_date := None;
     Auction.maturity_date := Some maturity;
     Auction.int_rate := None;
     Auction.total_accepted := Some amount;
     Auction.inflation_index_security := Some false;
     Auction.floating_rate := Some false;
     Auction.announcemt_date := Some announced;
     Auction.announcemtd_cusip := None;
     Auction.auction_date := Some (announced + 1);
     Auction.unscheduledReopeningDate := None;
     Auction.tenor := Some 4;
     Auction.issuanceType := Some "Opening"%string |}.

(** One bill issued on Monday 2024-09-30. *)
Definition one_bill : list Auction.t :=
  [bill "912797LA" 19996 20024 19993 100].

(** The same bill sold in two auctions with the same issue date. *)
Definition same_day_twice : list Auction.t :=
  [bill "912797LA" 19996 20024 19993 100;
   bill "912797LA" 19996 20024 19993 50].

(** An issued bill and one announced but issued next Monday. *)
Definition one_pending : list Auction.t :=
  [bill "912797LA" 19996 20024 19993 100;
   bill "912797LB" 20003 20031 19998 70].

(** A bill with two auctions settling after today. *)
Definition two_pending_auctions : list Auction.t :=
  [bill "912797LB" 20003 20031 19998 70;
   bill "912797LB" 20010 20031 19998 30].

(** An issued bill and two pending bills of the same tenor. *)
Definition two_pending_bills : list Auction.t :=
  [bill "912797LA" 19996 20024 19993 100;
   bill "912797LC" 20003 20031 19998 70;
   bill "912797LB" 20010 20038 19999 30].

(** Two issued bills of one tenor, first issued a week apart. *)
Definition two_issued : list Auction.t :=
  [bill "912797KZ" 19989 20017 19986 80;
   bill "912797LA" 19996 20024 19993 100].

(** A bill whose second record carries a negative amount. *)
Definition negative_amount : list Auction.t :=
  [bill "912797LA" 19996 20024 19993 100;
   bill "912797LA" 19998 20024 19993 (-30)].

(** A bill issued on Saturday 2024-09-28. *)
Definition weekend_issue : list Auction.t :=
  [bill "912797LA" 19994 20024 19990 100].

(** A record marked as an unscheduled reopening on day [d]. *)
Definition marked (d : Z) (r : Auction.t) : Auction.t :=
  {| Auction.cusip := Auction.cusip r;
     Auction.security_type := Auction.security_type r;
     Auction.issue_date := Auction.issue_date r;
     Auction.original_issue_date := Auction.original_issue_date r;
     Auction.maturity_date := Auction.maturity_date r;
     Auction.int_rate := Auction.int_rate r;
     Auction.total_accepted := Auction.total_accepted r;
     Auction.inflation_index_security := Auction.inflation_index_security r;
     Auction.floating_rate := Auction.floating_rate r;
     Auction.announcemt_date := Auction.announcemt_date r;
     Auction.announcemtd_cusip := Auction.announcemtd_cusip r;
     Auction.auction_date := Auction.auction_date r;
     Auction.unscheduledReopeningDate := Some d;
     Auction.tenor := Auction.tenor r;
     Auction.issuanceType := Auction.issuanceType r |}.

(** A bill reopened on Monday, with one more auction settling after
    today. *)
Definition reopened_then_pending : list Auction.t :=
  [marked 19996 (bill "912797LA" 19996 20024 19993 100);
   bill "912797LA" 20003 20024 19993 50].

(** A bill issued on Monday and reopened, unscheduled, on Wednesday. *)
Definition reopened_midweek : list Auction.t :=
  [bill "912797LA" 19996 20024 19993 100;
   marked 19998 (bill "912797LA" 19998 20024 19993 50)].

(** A bill whose maturity date is before its announcement date. *)
Definition matured_before_announced : list Auction.t :=
  [bill "912797LA" 19996 19990 19993 100].

(** A row with every cell null, and the row of a panel at a position. *)
Definition blank : Row.t :=
  {| Row.cusip := EmptyString; Row.date := 0; Row.attrs := Attrs.null;
     Row.totalIssued := None; Row.vintage := None |}.

Definition row_at (n : nat) (panel : list Row.t) : Row.t :=
  nth n panel blank.

(** The panel of a frame, empty when the build raises. *)
Definition panel_of (w : World) (auctionsDf : list Auction.t) : list Row.t :=
  match _createCusipPanel w auctionsDf with
  | Ok panel => panel
  | Raise _ => []
  end.

End Sample.

(** ** Vocabulary of the further properties of the panel *)

Module Carry.
Import PanelBuilder Panel.

(** A cell that is known stays as it is. *)
Definition keeps {A} (x y : option A) : Prop :=
  forall v, x = Some v -> y = Some v.

(** Every known cell of the ten filled columns of [a] stands in [b]. *)
Definition KeepsKnown (a b : Attrs.t) : Prop :=
  keeps (Attrs.tenor a) (Attrs.tenor b) /\
  keeps (Attrs.coupon a) (Attrs.coupon b) /\
  keeps (Attrs.maturityDate a) (Attrs.maturityDate b) /\
  keeps (Attrs.announcementDate a) (Attrs.announcementDate b) /\
  keeps (Attrs.auctionDate a) (Attrs.auctionDate b) /\
  keeps (Attrs.unscheduledReopeningDate a)
        (Attrs.unscheduledReopeningDate b) /\
  keeps (Attrs.firstIssueDate a) (Attrs.firstIssueDate b) /\
  keeps (Attrs.TIPS a) (Attrs.TIPS b) /\
  keeps (Attrs.floatingRate a) (Attrs.floatingRate b) /\
  keeps (Attrs.securityType a) (Attrs.securityType b).

(** What the fills do to a joined row, and what the whole pipeline does to
    it. *)
Definition FillKeeps (j a : Row.t) : Prop :=
  FillStep j a /\ KeepsKnown (Row.attrs j) (Row.attrs a).

Definition Carried (j r : Row.t) : Prop :=
  exists a, FillKeeps j a /\ SameAttrs (zeroAmountIssued a) r.

(** The fill of one column is harmless for a relation [R] on rows. *)
Definition Harmless {A} (R : Row.t -> Row.t -> Prop) (col : Column A)
  : Prop :=
  forall (r : Row.t) (w : option A),
    R r (Row.with_attrs
           (set col (Null.or_else (get col (Row.attrs r)) w)) r).

(** A step that leaves the slot and the [firstIssueDate] of a row alone. *)
Definition SameFirstIssue (a b : Row.t) : Prop :=
  Row.cusip b = Row.cusip a /\ Row.date b = Row.date a /\
  firstIssue b = firstIssue a.

(** In a frame, the rows of cusip [c] all have, or all lack, a
    [firstIssueDate]; or one of them has it and so do those after it. *)
Definition AllKnown (c : string) (rows : list Row.t) : Prop :=
  forall r, In r rows -> Row.cusip r = c -> firstIssue r <> None.

Definition NoneKnown (c : string) (rows : list Row.t) : Prop :=
  forall r, In r rows -> Row.cusip r = c -> firstIssue r = None.

Definition TailKnown (c : string) (rows : list Row.t) : Prop :=
  exists l1 x l2, rows = l1 ++ x :: l2 /\ Row.cusip x = c /\
                  firstIssue x <> None /\ AllKnown c l2.

(** Every [firstIssueDate] of the frame is null or the value [V] gives the
    cusip of the row. *)
Definition Consistent (V : string -> option Z) (rows : list Row.t) : Prop :=
  forall r, In r rows ->
    firstIssue r = None \/ firstIssue r = V (Row.cusip r).

(** *** The running total *)

(** The rows of cusip [c] dated [d] or before, the slots of the calendar
    for them, and the auctions that fall in such a slot. *)
Definition before_or_at (c : string) (d : Z) (r : Row.t) : bool :=
  String.eqb (Row.cusip r) c && (Row.date r <=? d).

Definition upTo (c : string) (d : Z) (cd : string * Z) : bool :=
  String.eqb (fst cd) c && (snd cd <=? d).

Definition onCalendarUpTo (today : Z) (auctionsDf : list Auction.t)
  (c : string) (d : Z) (a : AuctionData.t) : bool :=
  String.eqb (AuctionData.cusip a) c &&
  match AuctionData.date a with
  | Some x => inSpanb today auctionsDf c x && (x <=? d)
  | None => false
  end.

(** A record issued on a day of the span of its cusip, [d] or before; the
    amounts accepted in such records of cusip [c]. *)
Definition issuedUpTo (today : Z) (auctionsDf : list Auction.t) (d : Z)
  (r : Auction.t) : bool :=
  match Auction.issue_date r with
  | Some x => inSpanb today auctionsDf (Auction.cusip r) x && (x <=? d)
  | None => false
  end.

Definition acceptedUpTo (today : Z) (c : string) (d : Z)
  (auctionsDf : list Auction.t) : Z :=
  Zsum (map accepted
          (filter (fun r => has_cusip c r && issuedUpTo today auctionsDf d r)
                  auctionsDf)).

(** The amounts are Float64 in the code.  Float64 holds every whole
    number up to 2^53 in absolute value and adds two of them exactly when
    the sum is one of them too: the running total of a cusip is the exact
    sum as long as the absolute values of the amounts of the cusip sum to
    2^53 at most. *)
Definition amountsExact (c : string) (auctionsDf : list Auction.t) : Prop :=
  Zsum (map (fun r => Z.abs (accepted r)) (filter (has_cusip c) auctionsDf))
  <= 2 ^ 53.

(** *** Gaps in a filled column *)

(** The cell of column [col] is known in row [r]; in a frame, the rows of
    cusip [c] all have it, none has it, one has it, or one has it and so do
    those after it. *)
Definition known {A} (col : Column A) (r : Row.t) : Prop :=
  get col (Row.attrs r) <> None.

Definition EveryKnown {A} (col : Column A) (c : string) (rows : list Row.t)
  : Prop :=
  forall r, In r rows -> Row.cusip r = c -> known col r.

Definition NoKnown {A} (col : Column A) (c : string) (rows : list Row.t)
  : Prop :=
  forall r, In r rows -> Row.cusip r = c -> get col (Row.attrs r) = None.

Definition SomeKnown {A} (col : Column A) (c : string) (rows : list Row.t)
  : Prop :=
  exists x, In x rows /\ Row.cusip x = c /\ known col x.

Definition KnownFrom {A} (col : Column A) (c : string) (rows : list Row.t)
  : Prop :=
  exists l1 x l2, rows = l1 ++ x :: l2 /\ Row.cusip x = c /\
                  known col x /\ EveryKnown col c l2.

(** A step that leaves the cusip of a row and its cell of [col] alone. *)
Definition SameCell {A} (col : Column A) (a b : Row.t) : Prop :=
  Row.cusip b = Row.cusip a /\
  get col (Row.attrs b) = get col (Row.attrs a).

(** Writing [col] and reading it back gives what was written. *)
Definition Lens {A} (col : Column A) : Prop :=
  forall (v : option A) (a : Attrs.t), get col (set col v a) = v.

(** *** A column filled forward only *)

(** A step that leaves the slot of a row and its cell of column [col]
    alone. *)
Definition SameSlotCell {A} (col : Column A) (a b : Row.t) : Prop :=
  Row.cusip b = Row.cusip a /\ Row.date b = Row.date a /\
  get col (Row.attrs b) = get col (Row.attrs a).

(** The cell of [r], when it is not null, is the cell of a row of [src] of
    the same cusip, dated as [r] or before. *)
Definition FromEarlier {A} (col : Column A) (src : list Row.t) (r : Row.t)
  : Prop :=
  forall v, get col (Row.attrs r) = Some v ->
    exists x, In x src /\ Row.cusip x = Row.cusip r /\
              Row.date x <= Row.date r /\
              get col (Row.attrs x) = Some v.

(** A cell known in [a] is known in [b], a row of the same cusip. *)
Definition Persists {A} (col : Column A) (a b : Row.t) : Prop :=
  Row.cusip a = Row.cusip b -> known col a -> known col b.

(** The fills before that of [unscheduledReopeningDate], and those after
    it. *)
Definition fillsBeforeUnscheduled (rows : list Row.t) : list Row.t :=
  forward_fill auctionDate
 (forward_fill announcementDate
 (forward_fill maturityDate
 (forward_fill coupon
 (forward_fill tenor rows)))).

Definition fillsAfterUnscheduled (rows : list Row.t) : list Row.t :=
  backwardFillStatic
 (forward_fill securityType
 (forward_fill floatingRate
 (forward_fill TIPS
 (forward_fill firstIssueDate rows)))).

(** *** Runs *)

(** A run takes the rows it is given, each once. *)
Definition Fair (t : Ties) : Prop :=
  (forall l, Permutation l (takeGroups t l)) /\
  (forall l, Permutation l (takeJoined t l)) /\
  (forall l, Permutation l (takeZeroed t l)) /\
  (forall l, Permutation l (takeRanked t l)).

(** The slot of a row, and the slot a record of the auction data is joined
    to; a record with no date is joined to none. *)
Definition slotOf (r : Row.t) : string * Z := (Row.cusip r, Row.date r).

Definition datedSlot (a : AuctionData.t) : option (string * Z) :=
  option_map (pair (AuctionData.cusip a)) (AuctionData.date a).

Definition slot_eqb (k k' : string * Z) : bool :=
  String.eqb (fst k) (fst k') && Z.eqb (snd k) (snd k').

Fixpoint distinctSlots (keys : list (string * Z)) : bool :=
  match keys with
  | [] => true
  | k :: ks => negb (existsb (slot_eqb k) ks) && distinctSlots ks
  end.

(** No two records of the auction data are joined to the same slot. *)
Definition oneRecordPerSlot (aD : list AuctionData.t) : bool :=
  distinctSlots (non_null (map datedSlot aD)).

(** The panel of a run, empty when the run raises. *)
Definition panel_in (t : Ties) (w : World) (auctionsDf : list Auction.t)
  : list Row.t :=
  match run t w auctionsDf with
  | Ok panel => panel
  | Raise _ => []
  end.

End Carry.

(** * Facts about sorting *)

Module OrderFacts.
Import Order.

Section Comparator.
Context {A : Type} (c : comparator A) `{!Lawful c}.

Lemma eq_right x y z : c y z = Eq -> c x z = c x y.
Proof.
  intros H.
  assert (Hzy : c z y = Eq) by (rewrite (flip y z), H; reflexivity).
  rewrite (flip z x), (flip y x), (eq_left z y x Hzy). reflexivity.
Qed.

Lemma le_trans x y z : le c x y -> le c y z -> le c x z.
Proof.
  unfold le. intros Hxy Hyz.
  destruct (c x y) eqn:Exy; try congruence.
  - rewrite (eq_left x y z Exy). exact Hyz.
  - destruct (c y z) eqn:Eyz; try congruence.
    + rewrite (eq_right x y z Eyz), Exy. discriminate.
    + rewrite (lt_trans x y z Exy Eyz). discriminate.
Qed.

Lemma cmp_refl x : c x x = Eq.
Proof.
  pose proof (flip x x) as H. destruct (c x x); simpl in H; congruence.
Qed.


Lemma gt_le x y : c x y = Gt -> le c y x.
Proof. unfold le. intros H. rewrite (flip x y), H. discriminate. Qed.

Lemma insert_perm x l : Permutation (insert c x l) (x :: l).
Proof.
  induction l as [|y l IH]; simpl; [reflexivity|].
  destruct (c x y); try reflexivity.
  rewrite IH. apply perm_swap.
Qed.

Lemma sort_perm l : Permutation (sort c l) l.
Proof.
  induction l as [|x l IH]; simpl; [reflexivity|].
  rewrite insert_perm. constructor. exact IH.
Qed.

Lemma sort_In x l : In x (sort c l) <-> In x l.
Proof.
  split; apply Permutation_in; [|symmetry]; apply sort_perm.
Qed.

Lemma insert_sorted x l :
  StronglySorted (le c) l -> StronglySorted (le c) (insert c x l).
Proof.
  induction 1 as [|y l Hs IH Hy]; simpl.
  - repeat constructor.
  - destruct (c x y) eqn:E.
    + constructor; [constructor; assumption|].
      assert (Hxy : le c x y) by (unfold le; congruence).
      constructor; [exact Hxy|].
      eapply Forall_impl; [|exact Hy]. intros z Hz. eapply le_trans; eauto.
    + constructor; [constructor; assumption|].
      assert (Hxy : le c x y) by (unfold le; congruence).
      constructor; [exact Hxy|].
      eapply Forall_impl; [|exact Hy]. intros z Hz. eapply le_trans; eauto.
    + constructor; [exact IH|].
      rewrite Forall_forall. intros z Hz.
      apply (Permutation_in _ (insert_perm x l)) in Hz.
      destruct Hz as [<-|Hz].
      * apply gt_le. exact E.
      * rewrite Forall_forall in Hy. auto.
Qed.

Lemma sort_sorted l : StronglySorted (le c) (sort c l).
Proof.
  induction l as [|x l IH]; simpl; [constructor|].
  apply insert_sorted. exact IH.
Qed.

End Comparator.

#[export] Instance Lawful_Z : Lawful Z.compare.
Proof.
  split.
  - intros x y. apply Z.compare_antisym.
  - intros x y z. rewrite !Z.compare_lt_iff. lia.
  - intros x y z H. apply Z.compare_eq in H. subst. reflexivity.
Qed.

#[export] Instance Lawful_string : Lawful String_as_OT.compare.
Proof.
  pose proof (@StrictOrder_Irreflexive _ _ String_as_OT.lt_strorder) as irr.
  pose proof (@StrictOrder_Transitive _ _ String_as_OT.lt_strorder) as tr.
  split.
  - intros x y.
    destruct (String_as_OT.compare_spec x y) as [E|L|G];
      destruct (String_as_OT.compare_spec y x) as [E'|L'|G'];
      unfold String_as_OT.eq in *; simpl; subst; try reflexivity; exfalso;
      solve [ eapply irr; eassumption
            | eapply irr; eapply tr; eassumption ].
  - intros x y z. apply tr.
  - intros x y z H.
    destruct (String_as_OT.compare_spec x y) as [E|L|G]; try discriminate.
    unfold String_as_OT.eq in E. subst. reflexivity.
Qed.

#[export] Instance Lawful_bool : Lawful bool_compare.
Proof.
  split.
  - intros [] []; reflexivity.
  - intros [] [] []; simpl; congruence.
  - intros [] [] []; simpl; congruence.
Qed.

Lemma Lawful_on {A B} (f : A -> B) (c : comparator B)
  `{!Lawful c} : Lawful (on f c).
Proof.
  split; unfold on.
  - intros x y. apply flip.
  - intros x y z. apply lt_trans.
  - intros x y z. apply eq_left.
Qed.

Lemma Lawful_desc {A} (c : comparator A) `{!Lawful c}
  : Lawful (desc c).
Proof.
  split; unfold desc.
  - intros x y. apply flip.
  - intros x y z Hxy Hyz. eapply lt_trans; eassumption.
  - intros x y z H. exact (@eq_right _ c _ z y x H).
Qed.

Lemma Lawful_lex {A} (c1 c2 : comparator A)
  `{!Lawful c1} `{!Lawful c2} : Lawful (lex c1 c2).
Proof.
  split; unfold lex.
  - intros x y. rewrite (flip (c := c1) x y).
    destruct (c1 x y); simpl; try reflexivity. apply flip.
  - intros x y z Hxy Hyz.
    destruct (c1 x y) eqn:Exy; try discriminate;
      destruct (c1 y z) eqn:Eyz; try discriminate.
    + rewrite (eq_left (c := c1) x y z Exy), Eyz.
      eapply lt_trans; eassumption.
    + rewrite (eq_left (c := c1) x y z Exy), Eyz. reflexivity.
    + rewrite (eq_right c1 x y z Eyz), Exy. reflexivity.
    + rewrite (lt_trans (c := c1) x y z Exy Eyz). reflexivity.
  - intros x y z H.
    destruct (c1 x y) eqn:Exy; try discriminate.
    rewrite (eq_left (c := c1) x y z Exy), (eq_left (c := c2) x y z H).
    reflexivity.
Qed.

Lemma Lawful_nulls_first {A} (c : comparator A) `{!Lawful c}
  : Lawful (nulls_first c).
Proof.
  split.
  - intros [x|] [y|]; simpl; try reflexivity. apply flip.
  - intros [x|] [y|] [z|]; simpl; try congruence. apply lt_trans.
  - intros [x|] [y|] [z|]; simpl; try congruence. apply eq_left.
Qed.

End OrderFacts.


(** * Facts about [unique] *)

Lemma unique_In (x : string) (l : list string) : In x (unique l) <-> In x l.
Proof.
  induction l as [|y l IH]; simpl; [tauto|].
  rewrite filter_In, IH, negb_true_iff, String.eqb_neq.
  destruct (string_dec y x); intuition congruence.
Qed.

Lemma unique_NoDup (l : list string) : NoDup (unique l).
Proof.
  induction l as [|y l IH]; simpl; constructor.
  - rewrite filter_In, negb_true_iff, String.eqb_neq. intros [_ H]. congruence.
  - apply NoDup_filter. exact IH.
Qed.


(** * TenorClassifier: the claims *)

Module TenorFacts.
Import TenorClassifier OrderFacts.

#[export] Instance Lawful_by_cusip_issue_date
  : Order.Lawful by_cusip_issue_date.
Proof.
  apply Lawful_lex; apply Lawful_on;
    [apply Lawful_string|apply Lawful_nulls_first, Lawful_Z].
Qed.

(** One link of the chain is a test of its band. *)
Lemma when_within (t : Z) (l h : Q) (v rest : option Z) :
  Null.when (within (Some t) l h) v rest =
  if Qle_bool l (inject_Z t) && Qle_bool (inject_Z t) h then v else rest.
Proof.
  unfold within, ge, le. cbn [option_map].
  destruct (Qle_bool l (inject_Z t)), (Qle_bool (inject_Z t) h); reflexivity.
Qed.

(** The chain of [assignTenor] is [first_match] over [bands] in the order
    the source lists them. *)
Lemma assignTenor_first_match (t : Z) :
  assignTenor (Some t) = first_match bands t.
Proof.
  unfold assignTenor. rewrite !when_within.
  unfold bands, first_match, in_band, bill, coupon.
  cbn [lo hi label inject_Z]. reflexivity.
Qed.

Lemma assignTenor_null : assignTenor None = None.
Proof. reflexivity. Qed.

Lemma in_band_iff (b : Band) (t : Z) :
  in_band b t = true <-> (lo b <= inject_Z t /\ inject_Z t <= hi b)%Q.
Proof.
  unfold in_band. rewrite andb_true_iff, !Qle_bool_iff. reflexivity.
Qed.

Lemma bands_separated : StronglySorted before bands.
Proof.
  repeat (constructor; [|repeat (constructor; [reflexivity|])]);
    constructor.
Qed.

Lemma separated_disjoint (bs : list Band) (t : Z) :
  StronglySorted before bs ->
  forall b1 b2, In b1 bs -> In b2 bs ->
  in_band b1 t = true -> in_band b2 t = true -> b1 = b2.
Proof.
  induction 1 as [|b bs Hs IH Hb]; intros b1 b2 H1 H2 T1 T2.
  - destruct H1.
  - rewrite Forall_forall in Hb.
    apply in_band_iff in T1 as T1'. apply in_band_iff in T2 as T2'.
    destruct H1 as [<- | H1], H2 as [<- | H2]; auto.
    + exfalso. specialize (Hb _ H2). unfold before in Hb.
      apply (Qlt_irrefl (hi b)).
      eapply Qlt_le_trans; [exact Hb|].
      eapply Qle_trans; [apply T2'|apply T1'].
    + exfalso. specialize (Hb _ H1). unfold before in Hb.
      apply (Qlt_irrefl (hi b)).
      eapply Qlt_le_trans; [exact Hb|].
      eapply Qle_trans; [apply T1'|apply T2'].
Qed.

(** With disjoint bands the first match is the only match, wherever it
    stands in the list. *)
Lemma first_match_only (bs : list Band) (t : Z) (b : Band) :
  (forall b1 b2, In b1 bs -> In b2 bs ->
     in_band b1 t = true -> in_band b2 t = true -> b1 = b2) ->
  In b bs -> in_band b t = true -> first_match bs t = Some (label b).
Proof.
  induction bs as [|a bs IH]; intros Hd Hin Hb; [destruct Hin|].
  simpl. destruct (in_band a t) eqn:Ea.
  - rewrite (Hd a b); auto. left; reflexivity.
  - destruct Hin as [->|Hin]; [congruence|].
    apply IH; auto. intros b1 b2 H1 H2. apply Hd; right; assumption.
Qed.

Lemma first_match_none (bs : list Band) (t : Z) :
  (forall b, In b bs -> in_band b t = false) -> first_match bs t = None.
Proof.
  induction bs as [|a bs IH]; intros H; [reflexivity|].
  simpl. rewrite (H a (or_introl eq_refl)). apply IH.
  intros b Hb. apply H. right; exact Hb.
Qed.

Lemma first_match_perm (bs bs' : list Band) (t : Z) :
  (forall b1 b2, In b1 bs -> In b2 bs ->
     in_band b1 t = true -> in_band b2 t = true -> b1 = b2) ->
  Permutation bs bs' -> first_match bs' t = first_match bs t.
Proof.
  intros Hd Hp. pose proof (Permutation_sym Hp) as Hp'.
  destruct (existsb (fun b => in_band b t) bs) eqn:E.
  - apply existsb_exists in E as (b & Hin & Hb).
    rewrite (first_match_only bs t b Hd Hin Hb).
    apply first_match_only; auto.
    + intros b1 b2 H1 H2.
      apply Hd; [exact (Permutation_in _ Hp' H1)|exact (Permutation_in _ Hp' H2)].
    + exact (Permutation_in _ Hp Hin).
  - assert (Hn : forall b, In b bs -> in_band b t = false).
    { intros b Hb. destruct (in_band b t) eqn:Eb; [|reflexivity].
      rewrite <- E. symmetry. apply existsb_exists. eauto. }
    rewrite (first_match_none bs t Hn). apply first_match_none.
    intros b Hb. apply Hn. exact (Permutation_in _ Hp' Hb).
Qed.

Lemma bands_NoDup : NoDup bands.
Proof.
  assert (H : forall bs, StronglySorted before bs ->
            Forall (fun b => (lo b <= hi b)%Q) bs -> NoDup bs).
  { induction 1 as [|b bs Hs IH Hb]; intros Hw; constructor.
    - intros Hin. rewrite Forall_forall in Hb. specialize (Hb _ Hin).
      inversion Hw; subst. unfold before in Hb.
      apply (Qlt_irrefl (hi b)). eapply Qlt_le_trans; eauto.
    - apply IH. inversion Hw; assumption. }
  apply H; [apply bands_separated|].
  repeat (constructor; [discriminate|]). constructor.
Qed.

(** C9.  No number of days lies in two different tenor bands: two bands of
    the table that both contain [t] are one band, the table lists no band
    twice, and so the tenor [assignTenor] gives is the one of the only
    matching band whatever order the bands are tried in. *)
Theorem tenor_bands_non_overlapping (t : Z) :
  (forall b1 b2, In b1 bands -> In b2 bands ->
     in_band b1 t = true -> in_band b2 t = true -> b1 = b2) /\
  NoDup bands /\
  (forall bs, Permutation bands bs -> first_match bs t = assignTenor (Some t)).
Proof.
  split; [|split].
  - apply separated_disjoint, bands_separated.
  - apply bands_NoDup.
  - intros bs Hp. rewrite assignTenor_first_match.
    apply first_match_perm; [|exact Hp].
    apply separated_disjoint, bands_separated.
Qed.

(** *** The unscheduled-reopening override *)








End TenorFacts.

(** * Facts about frames related row by row *)

Set Implicit Arguments.

Module LinkedFacts.
Import Linked.

Lemma Forall2_compose {A B C} (R1 : A -> B -> Prop) (R2 : B -> C -> Prop)
  l l' l'' :
  Forall2 R1 l l' -> Forall2 R2 l' l'' -> Forall2 (compose R1 R2) l l''.
Proof.
  intros H. revert l''. induction H; intros l'' H2; inversion H2; subst.
  - constructor.
  - constructor; [exists y; split; assumption|auto].
Qed.

Lemma Forall2_weaken {A B} (R R' : A -> B -> Prop) l l' :
  (forall a b, R a b -> R' a b) -> Forall2 R l l' -> Forall2 R' l l'.
Proof. intros H. induction 1; constructor; auto. Qed.

Lemma Forall2_map_r {A B} (R : A -> B -> Prop) (f : A -> B) l :
  (forall a, In a l -> R a (f a)) -> Forall2 R l (map f l).
Proof.
  induction l as [|x l IH]; intros H; simpl; constructor.
  - apply H. left; reflexivity.
  - apply IH. intros a Ha. apply H. right; exact Ha.
Qed.

Lemma Forall2_rev {A B} (R : A -> B -> Prop) l l' :
  Forall2 R l l' -> Forall2 R (rev l) (rev l').
Proof.
  induction 1; simpl; [constructor|].
  apply Forall2_app; [assumption|]. constructor; [assumption|constructor].
Qed.

Lemma Forall2_filter {A B} (R : A -> B -> Prop) (p : A -> bool)
  (q : B -> bool) l l' :
  (forall a b, R a b -> p a = q b) ->
  Forall2 R l l' -> Forall2 R (filter p l) (filter q l').
Proof.
  intros H. induction 1 as [|a b l l' Hab HF IH]; simpl; [constructor|].
  rewrite <- (H a b Hab). destruct (p a); [constructor|]; assumption.
Qed.

Lemma Forall2_In_r {A B} (R : A -> B -> Prop) l l' b :
  Forall2 R l l' -> In b l' -> exists a, In a l /\ R a b.
Proof.
  induction 1 as [|x y l l' Hxy HF IH]; simpl; [tauto|].
  intros [<-|Hb].
  - exists x. auto.
  - destruct (IH Hb) as (a & Ha & Hab). exists a. auto.
Qed.

Lemma Forall2_In_l {A B} (R : A -> B -> Prop) l l' a :
  Forall2 R l l' -> In a l -> exists b, In b l' /\ R a b.
Proof.
  induction 1 as [|x y l l' Hxy HF IH]; simpl; [tauto|].
  intros [<-|Ha].
  - exists y. auto.
  - destruct (IH Ha) as (b & Hb & Hab). exists b. auto.
Qed.

Lemma of_Forall2 {A B} (R : A -> B -> Prop) l l' :
  Forall2 R l l' -> t R l l'.
Proof. intros H. exists l. split; [reflexivity|exact H]. Qed.

Lemma of_map {A B} (R : A -> B -> Prop) (f : A -> B) l :
  (forall a, In a l -> R a (f a)) -> t R l (map f l).
Proof. intros H. apply of_Forall2, Forall2_map_r, H. Qed.

Lemma weaken {A B} (R R' : A -> B -> Prop) l l' :
  (forall a b, R a b -> R' a b) -> t R l l' -> t R' l l'.
Proof.
  intros H (l1 & Hp & HF). exists l1. split; [exact Hp|].
  eapply Forall2_weaken; eauto.
Qed.

Lemma perm_l {A B} (R : A -> B -> Prop) l0 l l' :
  Permutation l0 l -> t R l l' -> t R l0 l'.
Proof.
  intros Hp (l1 & Hp1 & HF). exists l1. split; [|exact HF].
  etransitivity; eauto.
Qed.

Lemma perm_r {A B} (R : A -> B -> Prop) l l' l'' :
  t R l l' -> Permutation l' l'' -> t R l l''.
Proof.
  intros (l1 & Hp1 & HF) Hp.
  apply Forall2_flip in HF.
  destruct (Permutation_Forall2 Hp HF) as (l2 & Hp2 & HF2).
  apply Forall2_flip in HF2.
  exists l2. split; [etransitivity; eauto|exact HF2].
Qed.

Lemma trans {A B C} (R1 : A -> B -> Prop) (R2 : B -> C -> Prop) l l' l'' :
  t R1 l l' -> t R2 l' l'' -> t (compose R1 R2) l l''.
Proof.
  intros H1 (l2 & Hp2 & HF2).
  destruct (perm_r H1 Hp2) as (l1 & Hp1 & HF1).
  exists l1. split; [exact Hp1|].
  eapply Forall2_compose; eauto.
Qed.

Lemma Permutation_filter {A} (p : A -> bool) (l l' : list A) :
  Permutation l l' -> Permutation (filter p l) (filter p l').
Proof.
  induction 1; simpl.
  - constructor.
  - destruct (p x); [constructor|]; assumption.
  - destruct (p x), (p y); try apply perm_swap; reflexivity.
  - etransitivity; eauto.
Qed.

Lemma filter_both {A B} (R : A -> B -> Prop) (p : A -> bool) (q : B -> bool)
  l l' :
  (forall a b, R a b -> p a = q b) ->
  t R l l' -> t R (filter p l) (filter q l').
Proof.
  intros H (l1 & Hp & HF). exists (filter p l1). split.
  - clear HF. induction Hp; simpl.
    + constructor.
    + destruct (p x); [constructor|]; assumption.
    + destruct (p x), (p y); try apply perm_swap; reflexivity.
    + etransitivity; eauto.
  - apply Forall2_filter; assumption.
Qed.

Lemma In_r {A B} (R : A -> B -> Prop) l l' b :
  t R l l' -> In b l' -> exists a, In a l /\ R a b.
Proof.
  intros (l1 & Hp & HF) Hb.
  destruct (Forall2_In_r b HF Hb) as (a & Ha & Hab).
  exists a. split; [|exact Hab].
  eapply Permutation_in; [symmetry; exact Hp|exact Ha].
Qed.

Lemma In_l {A B} (R : A -> B -> Prop) l l' a :
  t R l l' -> In a l -> exists b, In b l' /\ R a b.
Proof.
  intros (l1 & Hp & HF) Ha.
  apply (Permutation_in _ Hp) in Ha.
  exact (Forall2_In_l a HF Ha).
Qed.

Lemma length_eq {A B} (R : A -> B -> Prop) l l' :
  t R l l' -> List.length l = List.length l'.
Proof.
  intros (l1 & Hp & HF). rewrite (Permutation_length Hp).
  exact (Forall2_length HF).
Qed.

(** Two related frames give the same sum of a quantity the relation
    preserves. *)
Lemma sum_eq {A B} (R : A -> B -> Prop) (g : A -> Z) (h : B -> Z) l l' :
  (forall a b, R a b -> g a = h b) ->
  t R l l' -> Zsum (map g l) = Zsum (map h l').
Proof.
  intros H (l1 & Hp & HF). unfold Zsum.
  transitivity (fold_right Z.add 0 (map g l1)).
  - clear HF. induction Hp; simpl; lia.
  - clear Hp. induction HF as [|a b l1 l' Hab HF IH]; simpl; [reflexivity|].
    rewrite (H a b Hab), IH. reflexivity.
Qed.

(** A property of every row of the first frame can be carried by the
    relation. *)
Lemma strengthen_l {A B} (R : A -> B -> Prop) (P : A -> Prop) l l' :
  (forall a, In a l -> P a) -> t R l l' -> t (fun a b => R a b /\ P a) l l'.
Proof.
  intros HP (l1 & Hp & HF). exists l1. split; [exact Hp|].
  assert (HP1 : forall a, In a l1 -> P a).
  { intros a Ha. apply HP.
    eapply Permutation_in; [symmetry; exact Hp|exact Ha]. }
  clear Hp HP. induction HF as [|a b l1 l' Hab HF IH]; constructor.
  - split; [exact Hab|]. apply HP1. left; reflexivity.
  - apply IH. intros x Hx. apply HP1. right; exact Hx.
Qed.

End LinkedFacts.

(** * PanelBuilder: every step, row by row *)

Module PanelSteps.
Import PanelBuilder Panel Linked LinkedFacts.

Lemma FillStep_refl (a : Row.t) : FillStep a a.
Proof. unfold FillStep. auto. Qed.

Lemma FillStep_trans (a b c : Row.t) :
  FillStep a b -> FillStep b c -> FillStep a c.
Proof.
  unfold FillStep. intros (A1 & A2 & A3 & A4 & A5) (B1 & B2 & B3 & B4 & B5).
  repeat split; try congruence. auto.
Qed.

Lemma SameAttrs_refl (a : Row.t) : SameAttrs a a.
Proof. unfold SameAttrs. auto. Qed.

Lemma SameAttrs_trans (a b c : Row.t) :
  SameAttrs a b -> SameAttrs b c -> SameAttrs a c.
Proof.
  unfold SameAttrs. intros (A1 & A2 & A3) (B1 & B2 & B3).
  repeat split; congruence.
Qed.

Lemma Forall2_trans {A} (R : A -> A -> Prop) l l' l'' :
  (forall a b c, R a b -> R b c -> R a c) ->
  Forall2 R l l' -> Forall2 R l' l'' -> Forall2 R l l''.
Proof.
  intros HR H1 H2.
  apply (Forall2_weaken (R := compose R R)).
  - intros a c (b & Hab & Hbc). eauto.
  - eapply Forall2_compose; eauto.
Qed.

Ltac static_column :=
  intros a w; destruct a; simpl; repeat split; auto.

Lemma static_tenor : StaticColumn tenor.
Proof. static_column. Qed.
Lemma static_coupon : StaticColumn coupon.
Proof. static_column. Qed.
Lemma static_maturityDate : StaticColumn maturityDate.
Proof. static_column. Qed.
Lemma static_announcementDate : StaticColumn announcementDate.
Proof. static_column. Qed.
Lemma static_auctionDate : StaticColumn auctionDate.
Proof. static_column. Qed.
Lemma static_unscheduledReopeningDate : StaticColumn unscheduledReopeningDate.
Proof. static_column. Qed.
Lemma static_firstIssueDate : StaticColumn firstIssueDate.
Proof. static_column. intros f ->. reflexivity. Qed.
Lemma static_TIPS : StaticColumn TIPS.
Proof. static_column. Qed.
Lemma static_floatingRate : StaticColumn floatingRate.
Proof. static_column. Qed.
Lemma static_securityType : StaticColumn securityType.
Proof. static_column. Qed.

Lemma forward_fill_from_step {A} (col : Column A) (last : string -> option A)
  (rows : list Row.t) :
  StaticColumn col -> Forall2 FillStep rows (forward_fill_from col last rows).
Proof.
  intros Hc. revert last.
  induction rows as [|r rows IH]; intros last; simpl; constructor; [|apply IH].
  destruct (Hc (Row.attrs r) (last (Row.cusip r))) as (H1 & H2 & H3).
  unfold FillStep. simpl. auto.
Qed.

Lemma forward_fill_step {A} (col : Column A) (rows : list Row.t) :
  StaticColumn col -> Forall2 FillStep rows (forward_fill col rows).
Proof. apply forward_fill_from_step. Qed.

Lemma backward_fill_step {A} (col : Column A) (rows : list Row.t) :
  StaticColumn col -> Forall2 FillStep rows (backward_fill col rows).
Proof.
  intros Hc. unfold backward_fill.
  rewrite <- (rev_involutive rows) at 1.
  apply Forall2_rev, forward_fill_step, Hc.
Qed.

Ltac fill_chain step :=
  repeat (eapply Forall2_trans;
          [exact FillStep_trans| |apply step; solve
             [ exact static_tenor | exact static_coupon
             | exact static_maturityDate | exact static_announcementDate
             | exact static_auctionDate
             | exact static_unscheduledReopeningDate
             | exact static_firstIssueDate | exact static_TIPS
             | exact static_floatingRate | exact static_securityType ]]).

Lemma forwardFillStatic_step (rows : list Row.t) :
  Forall2 FillStep rows (forwardFillStatic rows).
Proof.
  unfold forwardFillStatic. fill_chain (@forward_fill_step).
  induction rows; constructor; auto using FillStep_refl.
Qed.

Lemma backwardFillStatic_step (rows : list Row.t) :
  Forall2 FillStep rows (backwardFillStatic rows).
Proof.
  unfold backwardFillStatic. fill_chain (@backward_fill_step).
  induction rows; constructor; auto using FillStep_refl.
Qed.

Lemma cum_sum_from_step (acc : string -> Z) (rows : list Row.t) :
  Forall2 SameAttrs rows (cum_sum_from acc rows).
Proof.
  revert acc. induction rows as [|r rows IH]; intros acc; simpl;
    [constructor|].
  destruct (Attrs.amountIssued (Row.attrs r)); constructor;
    try apply IH; unfold SameAttrs; simpl; auto.
Qed.

Lemma rankVintage_step (rows : list Row.t) (r : Row.t) :
  SameAttrs r (rankVintage rows r).
Proof. unfold SameAttrs, rankVintage. simpl. auto. Qed.

Lemma adjustWhenIssued_step (rows : list Row.t) (r : Row.t) :
  SameAttrs r (adjustWhenIssued rows r).
Proof.
  unfold SameAttrs, adjustWhenIssued.
  destruct (hasWhenIssued rows r); simpl; auto.
Qed.

Lemma computeVintage_step (rows : list Row.t) :
  Forall2 SameAttrs rows (computeVintage rows).
Proof.
  unfold computeVintage.
  eapply Forall2_trans; [exact SameAttrs_trans| |].
  - apply Forall2_map_r. intros a _. apply rankVintage_step.
  - apply Forall2_map_r. intros a _. apply adjustWhenIssued_step.
Qed.

Lemma SameAttrs_businessDay (a b : Row.t) :
  SameAttrs a b -> isBusinessDay a = isBusinessDay b.
Proof. intros (_ & H & _). unfold isBusinessDay. rewrite H. reflexivity. Qed.

Lemma Trace_businessDay (j r : Row.t) :
  Trace j r -> isBusinessDay j = isBusinessDay r.
Proof.
  intros (a & (_ & Hd & _) & (_ & Hd' & _)).
  unfold isBusinessDay. rewrite Hd'. simpl. rewrite Hd. reflexivity.
Qed.

(** The panel holds one row for each joined row on a business day, that
    row traced through the fills, the zeroing and the later columns. *)
Lemma buildPanel_trace (today : Z) (auctionsDf : list Auction.t)
  (dates : list (string * Z)) :
  Linked.t Trace
    (filter isBusinessDay (leftJoin dates (auctionData today auctionsDf)))
    (buildPanel today auctionsDf dates).
Proof.
  unfold buildPanel, summedFrame, zeroedFrame.
  set (joined := leftJoin dates (auctionData today auctionsDf)).
  set (sorted := Order.sort by_cusip_date joined).
  set (filled := backwardFillStatic (forwardFillStatic sorted)).
  set (zeroed := map zeroAmountIssued filled).
  set (ordered := Order.sort by_cusip_desc_date zeroed).
  set (summed := cumulativeIssuance ordered).
  set (ranked := computeVintage summed).
  assert (H1 : Linked.t FillStep joined filled).
  { apply perm_l with (l := sorted).
    - symmetry. apply OrderFacts.sort_perm.
    - apply of_Forall2. eapply Forall2_trans; [exact FillStep_trans| |].
      + apply forwardFillStatic_step.
      + apply backwardFillStatic_step. }
  assert (H2 : Linked.t SameAttrs zeroed ranked).
  { apply perm_l with (l := ordered).
    - symmetry. apply OrderFacts.sort_perm.
    - apply of_Forall2. eapply Forall2_trans; [exact SameAttrs_trans| |].
      + apply cum_sum_from_step.
      + apply computeVintage_step. }
  assert (H3 : Linked.t Trace joined ranked).
  { assert (Hz : Linked.t (fun a z => z = zeroAmountIssued a) filled zeroed)
      by (apply of_map; reflexivity).
    pose proof (trans (trans H1 Hz) H2) as H.
    eapply weaken; [|exact H].
    intros j r (z & (a & Hja & ->) & Hzr). exists a. auto. }
  eapply perm_r.
  - apply filter_both; [|exact H3]. apply Trace_businessDay.
  - symmetry. apply OrderFacts.sort_perm.
Qed.

End PanelSteps.

(** * PanelBuilder: the calendar and the join *)

Module CalendarFacts.
Import PanelBuilder Panel Linked LinkedFacts PanelSteps.

Lemma in_date_range (s e d : Z) : In d (date_range s e) <-> s <= d <= e.
Proof.
  unfold date_range. rewrite in_map_iff. split.
  - intros (i & <- & Hi). apply in_seq in Hi. lia.
  - intros H. exists (Z.to_nat (d - s)). split; [lia|].
    apply in_seq. lia.
Qed.

Lemma NoDup_date_range (s e : Z) : NoDup (date_range s e).
Proof.
  unfold date_range. apply Injective_map_NoDup.
  - intros i j H. lia.
  - apply seq_NoDup.
Qed.

Lemma mapM_map_Ok {A B C} (f : B -> result C) (g : A -> B) (cs : list A)
  (ys : list C) :
  mapM f (map g cs) = Ok ys -> Forall2 (fun c y => f (g c) = Ok y) cs ys.
Proof.
  revert ys. induction cs as [|c cs IH]; simpl; intros ys H.
  - injection H as <-. constructor.
  - destruct (f (g c)) as [y|e] eqn:E; simpl in H; [|discriminate].
    destruct (mapM f (map g cs)) as [ys'|e]; simpl in H; [|discriminate].
    injection H as <-. constructor; auto.
Qed.

Lemma cusipDates_Ok (today : Z) (row : DateRange) (y : list (string * Z)) :
  cusipDates today row = Ok y ->
  exists s e, start_date row = Some s /\ end_date row = Some e /\
    y = map (pair (range_cusip row)) (date_range s (Z.min e today)).
Proof.
  unfold cusipDates.
  destruct (end_date row) as [e|]; [|discriminate].
  destruct (start_date row) as [s|]; [|discriminate].
  intros [= <-]. exists s, e. auto.
Qed.

Lemma calendar_of (today : Z) (auctionsDf : list Auction.t)
  (cs : list string) (ys : list (list (string * Z))) :
  NoDup cs ->
  Forall2 (fun c y => cusipDates today (dateRangeOf auctionsDf c) = Ok y)
          cs ys ->
  NoDup (List.concat ys) /\
  forall c d, In (c, d) (List.concat ys) <->
              In c cs /\ inSpan today auctionsDf c d.
Proof.
  intros Hnd HF. induction HF as [|c y cs ys Hy HF IH]; simpl.
  - split; [constructor|]. intros c d. tauto.
  - inversion Hnd as [|? ? Hc Hcs]; subst.
    destruct (IH Hcs) as (IHnd & IHin).
    destruct (cusipDates_Ok _ _ Hy) as (s & e & Hs & He & ->).
    change (range_cusip (dateRangeOf auctionsDf c)) with c in *.
    assert (Hin : forall c' d,
               In (c', d) (map (pair c) (date_range s (Z.min e today)))
               <-> c' = c /\ s <= d <= Z.min e today).
    { intros c' d. rewrite in_map_iff. split.
      - intros (x & [= <- <-] & Hx). apply in_date_range in Hx. auto.
      - intros (-> & Hd). exists d. split; [reflexivity|].
        apply in_date_range. exact Hd. }
    split.
    + apply NoDup_app.
      * apply Injective_map_NoDup; [|apply NoDup_date_range].
        intros i j [= H]. exact H.
      * exact IHnd.
      * intros [c' d] H1 H2. apply Hin in H1 as (-> & _).
        apply IHin in H2 as (H2 & _). contradiction.
    + intros c' d. rewrite in_app_iff, Hin, IHin. split.
      * intros [(-> & Hd)|(Hc' & Hsp)]; [|tauto].
        split; [left; reflexivity|]. exists s, e. auto.
      * intros ([<-|Hc'] & Hsp); [|tauto].
        left. split; [reflexivity|].
        destruct Hsp as (s' & e' & Hs' & He' & Hd).
        rewrite Hs in Hs'. rewrite He in He'.
        injection Hs' as <-. injection He' as <-. exact Hd.
Qed.

(** When the calendar is built, it lists every day of every cusip's span
    exactly once. *)
Lemma completeDates_spec (today : Z) (auctionsDf : list Auction.t)
  (dates : list (string * Z)) :
  completeDates today auctionsDf = Ok dates ->
  NoDup dates /\
  forall c d, In (c, d) dates <->
              In c (map Auction.cusip auctionsDf) /\
              inSpan today auctionsDf c d.
Proof.
  unfold completeDates, calendarOf, cusipDateRanges.
  destruct (mapM _ _) as [ys|e] eqn:E; simpl; [|discriminate].
  apply mapM_map_Ok in E.
  destruct ys as [|y ys]; [discriminate|].
  cbn [pl_concat].
  destruct (has_null_cusip_column y && _); [discriminate|]. cbn [bind].
  destruct (has_null_cusip_column (List.concat (y :: ys)));
    [discriminate|].
  intros [= <-].
  destruct (@calendar_of today auctionsDf _ _ (unique_NoDup _) E)
    as (Hnd & Hin).
  split; [exact Hnd|].
  intros c d. rewrite (Hin c d), unique_In. reflexivity.
Qed.

(** The calendar is built when the frame is not empty and the span of
    every cusip has a day; it is built exactly when the loop returns a
    frame for every group and the first of them has a row. *)
Lemma date_range_nil (s e : Z) : date_range s e = [] <-> e < s.
Proof.
  split.
  - intros H. destruct (Z_lt_le_dec e s) as [Hlt|Hle]; [exact Hlt|].
    assert (Hin : In s (date_range s e)) by (apply in_date_range; lia).
    rewrite H in Hin. destruct Hin.
  - intros H. unfold date_range.
    replace (Z.to_nat (e - s + 1)) with 0%nat by lia. reflexivity.
Qed.

Lemma cusipDates_days (today : Z) (auctionsDf : list Auction.t) (c : string)
  (y : list (string * Z)) :
  cusipDates today (dateRangeOf auctionsDf c) = Ok y ->
  (has_null_cusip_column y = false <-> exists d, inSpan today auctionsDf c d).
Proof.
  intros Hy. destruct (cusipDates_Ok _ _ Hy) as (s & e & Hs & He & ->).
  assert (Hnil : has_null_cusip_column
                   (map (pair (range_cusip (dateRangeOf auctionsDf c)))
                        (date_range s (Z.min e today))) = false
                 <-> s <= Z.min e today).
  { pose proof (@date_range_nil s (Z.min e today)) as H.
    destruct (date_range s (Z.min e today)) as [|d l]; cbn.
    - split; [discriminate|]. intros Hle.
      assert (Hlt : Z.min e today < s) by (apply H; reflexivity). lia.
    - split; [|reflexivity]. intros _.
      destruct (Z_lt_le_dec (Z.min e today) s) as [Hlt|Hle]; [|exact Hle].
      apply H in Hlt. discriminate. }
  rewrite Hnil. split.
  - intros Hle. exists s, s, e. repeat split; auto; lia.
  - intros (d & s' & e' & Hs' & He' & Hd).
    rewrite Hs in Hs'. rewrite He in He'.
    injection Hs' as <-. injection He' as <-. lia.
Qed.

Lemma mapM_Forall2 {A B} (f : A -> result B) (l : list A) (ys : list B) :
  mapM f l = Ok ys <-> Forall2 (fun x y => f x = Ok y) l ys.
Proof.
  revert ys. induction l as [|x l IH]; intros ys; simpl.
  - split.
    + intros [= <-]. constructor.
    + intros H. inversion H. reflexivity.
  - split.
    + destruct (f x) as [y|e] eqn:E; simpl; [|discriminate].
      destruct (mapM f l) as [ys'|e]; simpl; [|discriminate].
      intros [= <-]. constructor; [exact E|]. apply IH. reflexivity.
    + intros H. inversion H as [|x0 y l0 ys' Hy HF]; subst.
      rewrite Hy. simpl. apply IH in HF. rewrite HF. reflexivity.
Qed.

Lemma concat_rows (y : list (string * Z)) (ys : list (list (string * Z))) :
  has_null_cusip_column y = false ->
  has_null_cusip_column (List.concat (y :: ys)) = false.
Proof. destruct y; [discriminate|reflexivity]. Qed.

Lemma concat_no_row (ys : list (list (string * Z))) :
  forallb has_null_cusip_column ys = true -> List.concat ys = [].
Proof.
  induction ys as [|y ys IH]; [reflexivity|]. cbn [forallb List.concat].
  intros H. apply andb_true_iff in H as (Hy & Hys).
  destruct y; [|discriminate]. exact (IH Hys).
Qed.

Lemma calendarOf_Ok (today : Z) (ranges : list DateRange)
  (dates : list (string * Z)) :
  calendarOf today ranges = Ok dates <->
  exists y ys,
    Forall2 (fun row y => cusipDates today row = Ok y) ranges (y :: ys) /\
    has_null_cusip_column y = false /\
    dates = List.concat (y :: ys).
Proof.
  unfold calendarOf. split.
  - destruct (mapM _ _) as [frames|e] eqn:E; simpl; [|discriminate].
    apply mapM_Forall2 in E.
    destruct frames as [|y ys]; [discriminate|]. cbn [pl_concat].
    destruct (has_null_cusip_column y) eqn:Y; cbn [andb].
    + destruct (forallb has_null_cusip_column ys) eqn:F; cbn [negb bind];
        [|discriminate].
      destruct y; [|discriminate]. cbn [List.concat app].
      rewrite (concat_no_row _ F). discriminate.
    + cbn [bind]. rewrite (concat_rows _ ys Y). intros [= <-].
      exists y, ys. auto.
  - intros (y & ys & HF & Y & ->).
    apply mapM_Forall2 in HF. rewrite HF. cbn [bind pl_concat].
    rewrite Y. cbn [andb bind]. rewrite (concat_rows _ ys Y). reflexivity.
Qed.

Lemma cusipDates_total (today : Z) (auctionsDf : list Auction.t)
  (cs : list string) :
  (forall c, In c cs -> exists d, inSpan today auctionsDf c d) ->
  exists ys,
    Forall2 (fun row y => cusipDates today row = Ok y)
            (map (dateRangeOf auctionsDf) cs) ys.
Proof.
  induction cs as [|c cs IH]; intros H.
  - exists []. constructor.
  - destruct IH as (ys & HF); [intros; apply H; right; assumption|].
    destruct (H c (or_introl eq_refl)) as (d & s & e & Hs & He & Hd).
    exists (map (pair c) (date_range s (Z.min e today)) :: ys).
    cbn [map]. constructor; [|exact HF].
    unfold cusipDates. rewrite Hs, He. reflexivity.
Qed.

Lemma calendar_built (today : Z) (auctionsDf : list Auction.t)
  (cs : list string) :
  cs <> [] ->
  (forall c, In c cs -> exists d, inSpan today auctionsDf c d) ->
  exists dates,
    calendarOf today (map (dateRangeOf auctionsDf) cs) = Ok dates.
Proof.
  intros Hne Hsp.
  destruct (@cusipDates_total today auctionsDf cs Hsp) as (ys & HF).
  destruct cs as [|c cs]; [contradiction|].
  inversion HF as [|r y l ys' Hy HF']; subst.
  exists (List.concat (y :: ys')). apply calendarOf_Ok.
  exists y, ys'. split; [exact HF|]. split; [|reflexivity].
  apply (@cusipDates_days today auctionsDf c y Hy).
  apply Hsp. left. reflexivity.
Qed.

Lemma completeDates_total (today : Z) (auctionsDf : list Auction.t) :
  auctionsDf <> [] ->
  (forall c, In c (map Auction.cusip auctionsDf) ->
     exists d, inSpan today auctionsDf c d) ->
  exists dates, completeDates today auctionsDf = Ok dates.
Proof.
  intros Hne Hsp. unfold completeDates, cusipDateRanges.
  apply calendar_built.
  - destruct auctionsDf as [|r df]; [contradiction|].
    intros H.
    assert (Hin : In (Auction.cusip r)
                     (unique (map Auction.cusip (r :: df))))
      by (apply unique_In; left; reflexivity).
    rewrite H in Hin. destruct Hin.
  - intros c Hc. apply Hsp. apply (proj1 (unique_In _ _)). exact Hc.
Qed.

End CalendarFacts.

Module JoinFacts.
Import PanelBuilder Panel Linked LinkedFacts PanelSteps CalendarFacts.

Lemma filter_all {A} (p : A -> bool) (l : list A) :
  (forall x, In x l -> p x = true) -> filter p l = l.
Proof.
  induction l as [|x l IH]; intros H; simpl; [reflexivity|].
  rewrite (H x (or_introl eq_refl)), IH; [reflexivity|].
  intros y Hy. apply H. right; exact Hy.
Qed.

Lemma filter_none {A} (p : A -> bool) (l : list A) :
  (forall x, In x l -> p x = false) -> filter p l = [].
Proof.
  induction l as [|x l IH]; intros H; simpl; [reflexivity|].
  rewrite (H x (or_introl eq_refl)). apply IH.
  intros y Hy. apply H. right; exact Hy.
Qed.

Lemma filter_comm {A} (p q : A -> bool) (l : list A) :
  filter p (filter q l) = filter q (filter p l).
Proof.
  induction l as [|x l IH]; simpl; [reflexivity|].
  destruct (p x) eqn:Px, (q x) eqn:Qx; simpl; rewrite ?Px, ?Qx, IH;
    reflexivity.
Qed.

(** Every row of a joined slot sits in that slot, with the columns of a
    matching auction or nulls. *)
Lemma joinSlot_In (aD : list AuctionData.t) (cd : string * Z) (r : Row.t) :
  In r (joinSlot aD cd) ->
  Row.cusip r = fst cd /\ Row.date r = snd cd /\
  ((filter (matches (fst cd) (snd cd)) aD = [] /\ Row.attrs r = Attrs.null) \/
   exists a, In a (filter (matches (fst cd) (snd cd)) aD) /\
             Row.attrs r = AuctionData.attrs a).
Proof.
  unfold joinSlot.
  destruct (filter (matches (fst cd) (snd cd)) aD) as [|m ms] eqn:E.
  - intros [<-|[]]. simpl. auto.
  - intros H. apply in_map_iff in H as (a & <- & Ha). simpl.
    repeat split. right. exists a. auto.
Qed.

Lemma joinSlot_length (aD : list AuctionData.t) (cd : string * Z) :
  List.length (joinSlot aD cd)
  = Nat.max 1 (List.length (filter (matches (fst cd) (snd cd)) aD)).
Proof.
  unfold joinSlot.
  destruct (filter (matches (fst cd) (snd cd)) aD) as [|m ms]; simpl.
  - reflexivity.
  - rewrite length_map. reflexivity.
Qed.

Lemma at_slot_iff (c : string) (d : Z) (r : Row.t) :
  at_slot c d r = true <-> Row.cusip r = c /\ Row.date r = d.
Proof.
  unfold at_slot. rewrite andb_true_iff, String.eqb_eq, Z.eqb_eq. tauto.
Qed.

Lemma rowsAt_joinSlot_same (aD : list AuctionData.t) (c : string) (d : Z) :
  rowsAt c d (joinSlot aD (c, d)) = joinSlot aD (c, d).
Proof.
  apply filter_all. intros r Hr.
  apply joinSlot_In in Hr as (Hc & Hd & _). apply at_slot_iff. auto.
Qed.

Lemma rowsAt_joinSlot_other (aD : list AuctionData.t) (cd : string * Z)
  (c : string) (d : Z) :
  cd <> (c, d) -> rowsAt c d (joinSlot aD cd) = [].
Proof.
  intros Hne. apply filter_none. intros r Hr.
  apply joinSlot_In in Hr as (Hc & Hd & _).
  destruct (at_slot c d r) eqn:E; [|reflexivity].
  apply at_slot_iff in E as (E1 & E2). exfalso. apply Hne.
  destruct cd; simpl in *. congruence.
Qed.

Lemma rowsAt_app (c : string) (d : Z) (l1 l2 : list Row.t) :
  rowsAt c d (l1 ++ l2) = rowsAt c d l1 ++ rowsAt c d l2.
Proof. apply filter_app. Qed.

Lemma leftJoin_cons (cd : string * Z) (dates : list (string * Z))
  (aD : list AuctionData.t) :
  leftJoin (cd :: dates) aD = joinSlot aD cd ++ leftJoin dates aD.
Proof. reflexivity. Qed.

Lemma rowsAt_leftJoin_out (dates : list (string * Z))
  (aD : list AuctionData.t) (c : string) (d : Z) :
  ~ In (c, d) dates -> rowsAt c d (leftJoin dates aD) = [].
Proof.
  induction dates as [|cd dates IH]; intros Hn; [reflexivity|].
  rewrite leftJoin_cons, rowsAt_app.
  rewrite (@rowsAt_joinSlot_other aD cd c d), IH; [reflexivity| |].
  - intros H. apply Hn. right; exact H.
  - intros H. apply Hn. left; exact H.
Qed.

(** The joined frame holds, for a slot of the calendar, exactly the rows of
    that slot's join. *)
Lemma rowsAt_leftJoin_in (dates : list (string * Z))
  (aD : list AuctionData.t) (c : string) (d : Z) :
  NoDup dates -> In (c, d) dates ->
  rowsAt c d (leftJoin dates aD) = joinSlot aD (c, d).
Proof.
  induction 1 as [|cd dates Hcd Hnd IH]; intros Hin; [destruct Hin|].
  rewrite leftJoin_cons, rowsAt_app.
  destruct Hin as [->|Hin].
  - rewrite rowsAt_joinSlot_same.
    rewrite rowsAt_leftJoin_out by exact Hcd. apply app_nil_r.
  - rewrite IH by exact Hin.
    rewrite (@rowsAt_joinSlot_other aD cd c d); [reflexivity|].
    intros ->. contradiction.
Qed.

Lemma Trace_slot (c : string) (d : Z) (j r : Row.t) :
  Trace j r -> at_slot c d j = at_slot c d r.
Proof.
  intros (a & (Hc & Hd & _) & (Hc' & Hd' & _)). unfold at_slot.
  rewrite Hc', Hd'. simpl. rewrite Hc, Hd. reflexivity.
Qed.

(** The rows of the panel in a slot of the calendar that is a business day
    are the rows of that slot's join, traced through the pipeline. *)
Lemma panel_slot (today : Z) (auctionsDf : list Auction.t)
  (dates : list (string * Z)) (c : string) (d : Z) :
  NoDup dates -> In (c, d) dates -> weekday d < 6 ->
  Linked.t Trace (joinSlot (auctionData today auctionsDf) (c, d))
                 (rowsAt c d (buildPanel today auctionsDf dates)).
Proof.
  intros Hnd Hin Hwd.
  pose proof (filter_both (at_slot c d) (at_slot c d) (@Trace_slot c d)
                (buildPanel_trace today auctionsDf dates)) as H.
  rewrite filter_comm in H.
  fold (rowsAt c d (leftJoin dates (auctionData today auctionsDf))) in H.
  rewrite rowsAt_leftJoin_in in H by assumption.
  rewrite filter_all in H; [exact H|].
  intros r Hr. apply joinSlot_In in Hr as (_ & Hd & _).
  unfold isBusinessDay. simpl in Hd. rewrite Hd. apply Z.ltb_lt. exact Hwd.
Qed.

(** Every row of the panel sits in a slot of the calendar, on a business
    day. *)
Lemma panel_row_slot (today : Z) (auctionsDf : list Auction.t)
  (dates : list (string * Z)) (r : Row.t) :
  In r (buildPanel today auctionsDf dates) ->
  In (Row.cusip r, Row.date r) dates /\ weekday (Row.date r) < 6.
Proof.
  intros Hr.
  pose proof (In_r r (buildPanel_trace today auctionsDf dates) Hr)
    as (j & Hj & Ht).
  apply filter_In in Hj as (Hj & Hb).
  pose proof (Trace_businessDay Ht) as Hb'. rewrite Hb in Hb'.
  destruct Ht as (a & (Hc & Hd & _) & (Hc' & Hd' & _)).
  change (Row.cusip (zeroAmountIssued a)) with (Row.cusip a) in Hc'.
  change (Row.date (zeroAmountIssued a)) with (Row.date a) in Hd'.
  split.
  - unfold leftJoin in Hj. apply in_flat_map in Hj as (cd & Hcd & Hj).
    apply joinSlot_In in Hj as (Hjc & Hjd & _).
    rewrite Hc', Hd', Hc, Hd, Hjc, Hjd. destruct cd; exact Hcd.
  - symmetry in Hb'. apply Z.ltb_lt in Hb'. exact Hb'.
Qed.

End JoinFacts.

(** * PanelBuilder: the cumulative sum *)

Module SumFacts.
Import PanelBuilder Panel Linked LinkedFacts PanelSteps OrderFacts.

Lemma Lawful_by_cusip_desc_date : Order.Lawful by_cusip_desc_date.
Proof.
  unfold by_cusip_desc_date.
  apply Lawful_lex; [apply Lawful_on, Lawful_desc, Lawful_string|].
  apply Lawful_lex; [apply Lawful_on, Lawful_Z|].
  apply Lawful_lex; apply Lawful_on, Lawful_nulls_first;
    try exact Lawful_Z; apply Lawful_desc, Lawful_Z.
Qed.

Lemma le_dateOrdered (a b : Row.t) :
  Order.le by_cusip_desc_date a b -> dateOrdered a b.
Proof.
  unfold Order.le, by_cusip_desc_date, Order.lex, Order.on, Order.desc,
    dateOrdered.
  intros H Hc. rewrite Hc, (cmp_refl String_as_OT.compare) in H.
  unfold Z.le. destruct (Row.date a ?= Row.date b); congruence.
Qed.

Lemma StronglySorted_weaken {A} (P Q : A -> A -> Prop) (l : list A) :
  (forall a b, P a b -> Q a b) -> StronglySorted P l -> StronglySorted Q l.
Proof.
  intros H. induction 1 as [|a l Hs IH Ha]; constructor; auto.
  eapply Forall_impl; [|exact Ha]. auto.
Qed.

Lemma sorted_dateOrdered (rows : list Row.t) :
  StronglySorted dateOrdered (Order.sort by_cusip_desc_date rows).
Proof.
  eapply StronglySorted_weaken; [exact le_dateOrdered|].
  apply (@sort_sorted _ by_cusip_desc_date Lawful_by_cusip_desc_date).
Qed.

Lemma zeroAmountIssued_amount (r : Row.t) :
  exists a, Attrs.amountIssued (Row.attrs (zeroAmountIssued r)) = Some a.
Proof.
  unfold zeroAmountIssued. simpl.
  destruct (isWhenIssued r) as [[]|]; simpl; eauto.
Qed.

(** A row of the summed frame is a row of its input with [totalIssued]
    set. *)
Lemma cum_sum_from_In (acc : string -> Z) (rows : list Row.t) (r : Row.t) :
  In r (cum_sum_from acc rows) ->
  exists x, In x rows /\ SameAttrs x r.
Proof. apply Forall2_In_r, cum_sum_from_step. Qed.

Lemma cum_sum_from_total (acc : string -> Z) (rows : list Row.t)
  (r : Row.t) :
  (forall x, In x rows -> Attrs.amountIssued (Row.attrs x) <> None) ->
  In r (cum_sum_from acc rows) ->
  Attrs.amountIssued (Row.attrs r) <> None /\ Row.totalIssued r <> None.
Proof.
  revert acc. induction rows as [|r0 rows IH]; intros acc Ha; simpl;
    [tauto|].
  pose proof (Ha r0 (or_introl eq_refl)) as H0.
  destruct (Attrs.amountIssued (Row.attrs r0)) as [a|] eqn:E; [|congruence].
  intros [<-|Hr].
  - simpl. rewrite E. split; discriminate.
  - apply (IH _ (fun x Hx => Ha x (or_intror Hx)) Hr).
Qed.

(** Every total of a scan is at least the sum the scan started from, when
    no amount is negative. *)
Lemma cum_sum_from_lower (acc : string -> Z) (rows : list Row.t)
  (r : Row.t) :
  (forall x, In x rows ->
     exists a, Attrs.amountIssued (Row.attrs x) = Some a /\ 0 <= a) ->
  In r (cum_sum_from acc rows) ->
  exists t, Row.totalIssued r = Some t /\ acc (Row.cusip r) <= t.
Proof.
  revert acc. induction rows as [|r0 rows IH]; intros acc Ha; simpl;
    [tauto|].
  destruct (Ha r0 (or_introl eq_refl)) as (a & E & Hpos). rewrite E.
  intros [<-|Hr].
  - simpl. exists (acc (Row.cusip r0) + a). split; [reflexivity|lia].
  - destruct (IH _ (fun x Hx => Ha x (or_intror Hx)) Hr) as (t & Ht & Hle).
    exists t. split; [exact Ht|].
    unfold upd in Hle.
    destruct (String.eqb_spec (Row.cusip r0) (Row.cusip r)) as [Heq|Hne];
      [rewrite <- Heq|]; lia.
Qed.

(** The running sum of non-negative amounts does not decrease from a date
    of a cusip to a later one. *)
Lemma cum_sum_from_monotone (acc : string -> Z) (rows : list Row.t) :
  (forall x, In x rows ->
     exists a, Attrs.amountIssued (Row.attrs x) = Some a /\ 0 <= a) ->
  StronglySorted dateOrdered rows ->
  forall r1 r2,
    In r1 (cum_sum_from acc rows) -> In r2 (cum_sum_from acc rows) ->
    Row.cusip r1 = Row.cusip r2 -> Row.date r1 < Row.date r2 ->
    exists t1 t2, Row.totalIssued r1 = Some t1 /\
                  Row.totalIssued r2 = Some t2 /\ t1 <= t2.
Proof.
  intros Ha Hs. revert acc.
  induction Hs as [|r0 rows Hs IH H0]; intros acc r1 r2; simpl; [tauto|].
  destruct (Ha r0 (or_introl eq_refl)) as (a & E & Hpos). rewrite E.
  assert (Ha' : forall x, In x rows ->
            exists a, Attrs.amountIssued (Row.attrs x) = Some a /\ 0 <= a)
    by (intros x Hx; apply Ha; right; exact Hx).
  intros [<-|H1] [<-|H2] Hc Hd.
  - simpl in Hd. lia.
  - destruct (cum_sum_from_lower _ _ _ Ha' H2) as (t2 & Ht2 & Hle).
    simpl in Hc. unfold upd in Hle. rewrite <- Hc, String.eqb_refl in Hle.
    simpl. eauto.
  - exfalso. destruct (cum_sum_from_In _ _ _ H1) as (x & Hx & (Hxc & Hxd & _)).
    rewrite Forall_forall in H0. specialize (H0 x Hx).
    simpl in Hc, Hd. unfold dateOrdered in H0.
    assert (Row.date r0 <= Row.date x) by (apply H0; congruence). lia.
  - apply (IH Ha' _ r1 r2 H1 H2 Hc Hd).
Qed.

(** The steps after the cumulative sum keep the slot, the amount and the
    total of every row, and add no row. *)
Lemma computeVintage_keeps (rows : list Row.t) (r : Row.t) :
  In r (computeVintage rows) ->
  exists s, In s rows /\ SameAttrs s r /\
            Row.totalIssued r = Row.totalIssued s.
Proof.
  unfold computeVintage. intros H.
  apply in_map_iff in H as (r' & <- & H).
  apply in_map_iff in H as (s & <- & H).
  exists s. split; [exact H|]. split.
  - eapply SameAttrs_trans; [apply rankVintage_step|].
    apply adjustWhenIssued_step.
  - unfold adjustWhenIssued, rankVintage.
    destruct (hasWhenIssued _ _); reflexivity.
Qed.

Lemma buildPanel_summed (today : Z) (auctionsDf : list Auction.t)
  (dates : list (string * Z)) (r : Row.t) :
  In r (buildPanel today auctionsDf dates) ->
  exists s, In s (summedFrame today auctionsDf dates) /\ SameAttrs s r /\
            Row.totalIssued r = Row.totalIssued s.
Proof.
  unfold buildPanel. intros H.
  apply (proj1 (sort_In _ _ _)) in H. apply filter_In in H as (H & _).
  exact (computeVintage_keeps _ _ H).
Qed.

End SumFacts.

(** * PanelBuilder: where the rows come from *)

Module TraceFacts.
Import PanelBuilder Panel Linked LinkedFacts PanelSteps OrderFacts JoinFacts.

Lemma min_cell_le (a b : option Z) (d : Z) :
  a = Some d \/ (exists f, b = Some f /\ f <= d) ->
  exists f, min_cell a b = Some f /\ f <= d.
Proof.
  intros [->|(f & -> & Hf)]; simpl.
  - destruct b as [y|]; eexists; split; try reflexivity; lia.
  - destruct a as [x|]; eexists; split; try reflexivity; lia.
Qed.

(** [col.min()] is below every non-null cell of the column. *)
Lemma col_min_le (col : list (option Z)) (d : Z) :
  In (Some d) col -> exists f, col_min col = Some f /\ f <= d.
Proof.
  induction col as [|x col IH]; simpl; [tauto|].
  intros [->|H]; apply min_cell_le; auto.
Qed.

Lemma firstIssueDateOf_le (auctionsDf : list Auction.t) (r : Auction.t)
  (d : Z) :
  In r auctionsDf -> Auction.issue_date r = Some d ->
  exists f, firstIssueDateOf auctionsDf (Auction.cusip r) = Some f /\ f <= d.
Proof.
  intros Hr Hd. unfold firstIssueDateOf. apply col_min_le.
  rewrite <- Hd. apply in_map, filter_In. split; [exact Hr|].
  unfold has_cusip. apply String.eqb_refl.
Qed.

(** A row of the auction data is the selection of an auction, or that of a
    future-dated auction moved to today. *)
Lemma auctionData_In (today : Z) (auctionsDf : list Auction.t)
  (a : AuctionData.t) :
  In a (auctionData today auctionsDf) ->
  exists r, In r auctionsDf /\
    (a = select auctionsDf r \/
     (a = moveToToday today (select auctionsDf r) /\
      is_future today (select auctionsDf r) = true)).
Proof.
  unfold auctionData, resolveFutureDated.
  set (aD := map (select auctionsDf) auctionsDf).
  assert (Hsel : forall x, In x aD ->
            exists r, In r auctionsDf /\ x = select auctionsDf r).
  { intros x Hx. apply in_map_iff in Hx as (r & <- & Hr). eauto. }
  destruct (0 <? _); [|intros H; destruct (Hsel a H) as (r & ? & ?); eauto].
  destruct (0 <? _).
  - intros H. apply in_app_or in H as [H|H].
    + apply filter_In in H as (H & _).
      destruct (Hsel a H) as (r & ? & ?); eauto.
    + apply in_map_iff in H as (x & <- & H).
      apply filter_In in H as (H & _). apply filter_In in H as (H & Hf).
      destruct (Hsel x H) as (r & Hr & ->). eauto.
  - intros H. apply filter_In in H as (H & _).
    destruct (Hsel a H) as (r & ? & ?); eauto.
Qed.

(** A row of the joined frame carries nulls or the columns of an auction
    of its cusip dated on its date. *)
Lemma leftJoin_In (dates : list (string * Z)) (aD : list AuctionData.t)
  (j : Row.t) :
  In j (leftJoin dates aD) ->
  In (Row.cusip j, Row.date j) dates /\
  (Row.attrs j = Attrs.null \/
   exists a, In a aD /\ Row.attrs j = AuctionData.attrs a /\
             AuctionData.cusip a = Row.cusip j /\
             AuctionData.date a = Some (Row.date j)).
Proof.
  unfold leftJoin. intros H. apply in_flat_map in H as (cd & Hcd & H).
  apply joinSlot_In in H as (Hc & Hd & H). rewrite Hc, Hd.
  split; [destruct cd; exact Hcd|].
  destruct H as [(_ & H)|(a & Ha & H)]; [left; exact H|right].
  apply filter_In in Ha as (Ha & Hm). exists a.
  unfold matches in Hm. apply andb_true_iff in Hm as (Hm1 & Hm2).
  apply String.eqb_eq in Hm1.
  destruct (AuctionData.date a) as [x|]; simpl in Hm2; [|discriminate].
  destruct (x =? snd cd) eqn:E; [|discriminate].
  apply Z.eqb_eq in E. rewrite E. auto.
Qed.

Lemma joined_AmountStands (today : Z) (auctionsDf : list Auction.t)
  (dates : list (string * Z)) (j : Row.t) :
  In j (leftJoin dates (auctionData today auctionsDf)) -> AmountStands j.
Proof.
  intros H. apply leftJoin_In in H as (_ & [H|(a & Ha & H & Hc & Hd)]);
    unfold AmountStands; rewrite H; [exact I|].
  apply auctionData_In in Ha as (r & Hr & [->|(-> & _)]).
  - simpl in *.
    destruct (Auction.total_accepted r) as [x|]; [|exact I]. right.
    destruct (firstIssueDateOf_le auctionsDf r Hr Hd) as (f & Hf & Hle).
    eauto.
  - simpl. left. reflexivity.
Qed.

(** The amount of a panel row traced to a joined row whose amount stands
    is that amount, null counting as zero. *)
Lemma traced_amount (j r : Row.t) :
  AmountStands j -> Trace j r ->
  Attrs.amountIssued (Row.attrs r)
  = Some (Null.fill_null 0 (Attrs.amountIssued (Row.attrs j))).
Proof.
  intros Hst (a & (Hc & Hd & Ham & _ & Hf) & (_ & _ & ->)).
  unfold zeroAmountIssued, AmountStands in *.
  cbn [Row.attrs Row.with_attrs Attrs.amountIssued Attrs.set_amountIssued].
  rewrite Ham.
  destruct (Attrs.amountIssued (Row.attrs j)) as [x|]; cbn [Null.fill_null].
  - destruct Hst as [->|(f & Hj & Hle)].
    + destruct (isWhenIssued a) as [[]|]; reflexivity.
    + unfold isWhenIssued. rewrite (Hf f Hj). cbn.
      destruct (Z.ltb_spec (Row.date a) f); [lia|reflexivity].
  - destruct (isWhenIssued a) as [[]|]; reflexivity.
Qed.

Lemma zeroedFrame_In (today : Z) (auctionsDf : list Auction.t)
  (dates : list (string * Z)) (z : Row.t) :
  In z (zeroedFrame today auctionsDf dates) ->
  exists j a, In j (leftJoin dates (auctionData today auctionsDf)) /\
              FillStep j a /\ z = zeroAmountIssued a.
Proof.
  unfold zeroedFrame. intros H. apply in_map_iff in H as (a & <- & H).
  apply (Forall2_In_r a (backwardFillStatic_step _)) in H as (b & H & Hba).
  apply (Forall2_In_r b (forwardFillStatic_step _)) in H as (j & H & Hjb).
  apply (proj1 (sort_In _ _ _)) in H.
  exists j, a. split; [exact H|]. split; [|reflexivity].
  eapply FillStep_trans; eauto.
Qed.

End TraceFacts.

(** * PanelBuilder: what is issued in the panel *)

Module ConservationFacts.
Import PanelBuilder Panel Linked LinkedFacts PanelSteps CalendarFacts.
Import JoinFacts TraceFacts.

#[local] Arguments buildPanel : simpl never.
#[local] Arguments auctionData : simpl never.

Lemma Zsum_app (l1 l2 : list Z) : Zsum (l1 ++ l2) = Zsum l1 + Zsum l2.
Proof.
  unfold Zsum. induction l1 as [|x l1 IH]; simpl; [reflexivity|]. lia.
Qed.

Lemma Zsum_zero {A} (g : A -> Z) (l : list A) :
  (forall x, In x l -> g x = 0) -> Zsum (map g l) = 0.
Proof.
  unfold Zsum. induction l as [|x l IH]; intros H; simpl; [reflexivity|].
  rewrite (H x (or_introl eq_refl)), IH; [reflexivity|].
  intros y Hy. apply H. right; exact Hy.
Qed.

Lemma Zsum_map_add {A} (f g : A -> Z) (l : list A) :
  Zsum (map (fun x => f x + g x) l) = Zsum (map f l) + Zsum (map g l).
Proof.
  unfold Zsum. induction l as [|x l IH]; simpl; [reflexivity|]. lia.
Qed.

Lemma filter_implied {A} (p q : A -> bool) (l : list A) :
  (forall x, In x l -> p x = true -> q x = true) ->
  filter p (filter q l) = filter p l.
Proof.
  induction l as [|x l IH]; intros H; simpl; [reflexivity|].
  assert (IH' : filter p (filter q l) = filter p l)
    by (apply IH; intros y Hy; apply H; right; exact Hy).
  destruct (q x) eqn:Q; simpl.
  - rewrite IH'. reflexivity.
  - destruct (p x) eqn:P; [|exact IH'].
    rewrite (H x (or_introl eq_refl) P) in Q. discriminate.
Qed.

Lemma joinSlot_sum (aD : list AuctionData.t) (cd : string * Z) :
  Zsum (map amountOf (joinSlot aD cd)) = slotSum aD cd.
Proof.
  unfold joinSlot, slotSum.
  destruct (filter (matches (fst cd) (snd cd)) aD) as [|m ms];
    [reflexivity|].
  rewrite map_map. reflexivity.
Qed.

Lemma joinSlot_picked (c : string) (aD : list AuctionData.t)
  (cd : string * Z) :
  filter (of_cusip c) (filter isBusinessDay (joinSlot aD cd))
  = if picked c cd then joinSlot aD cd else [].
Proof.
  unfold picked.
  destruct (String.eqb_spec (fst cd) c) as [Hc|Hc];
    destruct (Z.ltb_spec (weekday (snd cd)) 6) as [Hd|Hd]; simpl.
  - rewrite !filter_all; [reflexivity| |].
    + intros r Hr. apply joinSlot_In in Hr as (_ & Hr & _).
      unfold isBusinessDay. rewrite Hr. apply Z.ltb_lt. exact Hd.
    + intros r Hr. apply filter_In in Hr as (Hr & _).
      apply joinSlot_In in Hr as (Hr & _).
      unfold of_cusip. rewrite Hr, Hc. apply String.eqb_refl.
  - rewrite (filter_none isBusinessDay); [reflexivity|].
    intros r Hr. apply joinSlot_In in Hr as (_ & Hr & _).
    unfold isBusinessDay. rewrite Hr. apply Z.ltb_ge. exact Hd.
  - apply filter_none. intros r Hr. apply filter_In in Hr as (Hr & _).
    apply joinSlot_In in Hr as (Hr & _).
    unfold of_cusip. rewrite Hr. apply String.eqb_neq. exact Hc.
  - apply filter_none. intros r Hr. apply filter_In in Hr as (Hr & _).
    apply joinSlot_In in Hr as (Hr & _).
    unfold of_cusip. rewrite Hr. apply String.eqb_neq. exact Hc.
Qed.

(** The amounts of a cusip on business days in the joined frame, slot by
    slot. *)
Lemma joined_sum (c : string) (dates : list (string * Z))
  (aD : list AuctionData.t) :
  Zsum (map amountOf
          (filter (of_cusip c) (filter isBusinessDay (leftJoin dates aD))))
  = Zsum (map (fun cd => if picked c cd then slotSum aD cd else 0) dates).
Proof.
  induction dates as [|cd dates IH]; [reflexivity|].
  rewrite leftJoin_cons, !filter_app, map_app, Zsum_app, IH.
  rewrite joinSlot_picked. simpl. unfold Zsum at 3. simpl. fold (Zsum).
  destruct (picked c cd); [rewrite joinSlot_sum|]; reflexivity.
Qed.

Lemma matches_unique (cd cd' : string * Z) (a : AuctionData.t) :
  matches (fst cd) (snd cd) a = true ->
  matches (fst cd') (snd cd') a = true -> cd = cd'.
Proof.
  unfold matches. rewrite !andb_true_iff, !String.eqb_eq.
  intros (H1 & H2) (H1' & H2').
  destruct (AuctionData.date a) as [d|]; simpl in *; [|discriminate].
  destruct (Z.eqb_spec d (snd cd)); [|discriminate].
  destruct (Z.eqb_spec d (snd cd')); [|discriminate].
  destruct cd, cd'; simpl in *. congruence.
Qed.

(** An auction falls in at most one slot of the calendar. *)
Lemma one_hit (c : string) (a : AuctionData.t) (v : Z)
  (dates : list (string * Z)) :
  NoDup dates ->
  Zsum (map (fun cd =>
               if picked c cd && matches (fst cd) (snd cd) a then v else 0)
            dates)
  = if existsb (fun cd => picked c cd && matches (fst cd) (snd cd) a) dates
    then v else 0.
Proof.
  induction 1 as [|cd dates Hcd Hnd IH]; [reflexivity|].
  cbn [map existsb]. unfold Zsum in *. cbn [fold_right]. rewrite IH.
  destruct (picked c cd && matches (fst cd) (snd cd) a) eqn:E; simpl;
    [|reflexivity].
  destruct (existsb _ dates) eqn:Ex; [|lia].
  exfalso. apply existsb_exists in Ex as (cd' & Hin & E').
  apply andb_true_iff in E as (_ & E). apply andb_true_iff in E' as (_ & E').
  rewrite (matches_unique cd cd' a E E') in Hcd. contradiction.
Qed.

(** The amounts summed slot by slot are the amounts summed auction by
    auction, over the auctions that fall in a picked slot. *)
Lemma sum_by_auction (c : string) (dates : list (string * Z))
  (aD : list AuctionData.t) :
  NoDup dates ->
  Zsum (map (fun cd => if picked c cd then slotSum aD cd else 0) dates)
  = Zsum (map joinedAmount
            (filter (fun a =>
                       existsb (fun cd => picked c cd &&
                                          matches (fst cd) (snd cd) a) dates)
                    aD)).
Proof.
  intros Hnd. induction aD as [|a aD IH].
  - simpl. apply Zsum_zero. intros cd _. destruct (picked c cd); reflexivity.
  - transitivity
      (Zsum (map (fun cd =>
                    (if picked c cd && matches (fst cd) (snd cd) a
                     then joinedAmount a else 0)
                    + (if picked c cd then slotSum aD cd else 0)) dates)).
    + f_equal. apply map_ext. intros cd. unfold slotSum. simpl.
      destruct (picked c cd), (matches (fst cd) (snd cd) a); simpl;
        unfold Zsum; simpl; lia.
    + rewrite Zsum_map_add, IH, (one_hit c a (joinedAmount a) Hnd). simpl.
      destruct (existsb _ dates); simpl; unfold Zsum; simpl; lia.
Qed.

Lemma inSpanb_iff (today : Z) (auctionsDf : list Auction.t) (c : string)
  (d : Z) :
  inSpanb today auctionsDf c d = true <-> inSpan today auctionsDf c d.
Proof.
  unfold inSpanb, inSpan.
  destruct (start_date _) as [s|]; destruct (end_date _) as [e|].
  - rewrite andb_true_iff, !Z.leb_le. split.
    + intros H. exists s, e. auto.
    + intros (s' & e' & [= <-] & [= <-] & H). exact H.
  - split; [discriminate|]. intros (s' & e' & _ & H & _). discriminate.
  - split; [discriminate|]. intros (s' & e' & H & _). discriminate.
  - split; [discriminate|]. intros (s' & e' & H & _). discriminate.
Qed.

Lemma auctionData_cusip (today : Z) (auctionsDf : list Auction.t)
  (a : AuctionData.t) :
  In a (auctionData today auctionsDf) ->
  In (AuctionData.cusip a) (map Auction.cusip auctionsDf).
Proof.
  intros H. apply auctionData_In in H as (r & Hr & [->|(-> & _)]); simpl;
    apply in_map; exact Hr.
Qed.

(** Falling in a picked slot of the calendar is being dated on a business
    day of the span. *)
Lemma hit_onPanelDay (today : Z) (auctionsDf : list Auction.t)
  (dates : list (string * Z)) (c : string) (a : AuctionData.t) :
  (forall c d, In (c, d) dates <->
               In c (map Auction.cusip auctionsDf) /\
               inSpan today auctionsDf c d) ->
  In a (auctionData today auctionsDf) ->
  existsb (fun cd => picked c cd && matches (fst cd) (snd cd) a) dates
  = onPanelDay today auctionsDf c a.
Proof.
  intros Hdates Ha. apply auctionData_cusip in Ha.
  apply eq_true_iff_eq. rewrite existsb_exists. unfold onPanelDay, picked,
    matches. split.
  - intros ([c' d] & Hin & H). simpl in H.
    rewrite !andb_true_iff, !String.eqb_eq, Z.ltb_lt in H.
    destruct H as ((-> & Hwd) & Hc & Hd).
    destruct (AuctionData.date a) as [x|]; simpl in Hd; [|discriminate].
    destruct (x =? d) eqn:E; [|discriminate].
    apply Z.eqb_eq in E. subst x.
    rewrite Hc, String.eqb_refl. simpl.
    apply andb_true_iff. split; [|apply Z.ltb_lt; exact Hwd].
    apply inSpanb_iff. apply Hdates in Hin. tauto.
  - rewrite andb_true_iff, String.eqb_eq. intros (Hc & H).
    destruct (AuctionData.date a) as [d|]; [|discriminate].
    apply andb_true_iff in H as (Hsp & Hwd).
    apply inSpanb_iff in Hsp.
    exists (c, d). split; [apply Hdates; split; [congruence|exact Hsp]|].
    simpl. rewrite Hc, String.eqb_refl, Hwd, Z.eqb_refl. reflexivity.
Qed.

Lemma onPanelDay_not_after (today : Z) (auctionsDf : list Auction.t)
  (c : string) (a : AuctionData.t) :
  onPanelDay today auctionsDf c a = true -> not_after today a = true.
Proof.
  unfold onPanelDay, not_after. rewrite andb_true_iff. intros (_ & H).
  destruct (AuctionData.date a) as [d|]; [|discriminate].
  apply andb_true_iff in H as (H & _). apply inSpanb_iff in H.
  destruct H as (s & e & _ & _ & H). simpl.
  destruct (Z.leb_spec d today); [reflexivity|lia].
Qed.

Lemma select_sum (today : Z) (auctionsDf : list Auction.t) (c : string)
  (l : list Auction.t) :
  Zsum (map joinedAmount
          (filter (onPanelDay today auctionsDf c) (map (select auctionsDf) l)))
  = Zsum (map accepted
            (filter (fun r => has_cusip c r &&
                              issuedOnPanelDay today auctionsDf r) l)).
Proof.
  induction l as [|r l IH]; [reflexivity|].
  cbn [map filter].
  assert (E : onPanelDay today auctionsDf c (select auctionsDf r)
              = has_cusip c r && issuedOnPanelDay today auctionsDf r).
  { unfold onPanelDay, has_cusip, issuedOnPanelDay. simpl.
    destruct (String.eqb_spec (Auction.cusip r) c) as [->|]; reflexivity. }
  rewrite E. destruct (has_cusip c r && _); [|exact IH].
  cbn [map]. unfold Zsum in *. cbn [fold_right]. rewrite IH. reflexivity.
Qed.

(** The amounts that enter the join on the business days of a cusip's span
    are those of its auctions issued on such days: moving a future-dated
    auction to today brings a zero amount. *)
Lemma auctionData_sum (today : Z) (auctionsDf : list Auction.t)
  (c : string) :
  Zsum (map joinedAmount
          (filter (onPanelDay today auctionsDf c)
                  (auctionData today auctionsDf)))
  = acceptedOnPanelDays today c auctionsDf.
Proof.
  unfold acceptedOnPanelDays. rewrite <- select_sum.
  unfold auctionData, resolveFutureDated.
  set (aD := map (select auctionsDf) auctionsDf).
  assert (Hf : filter (onPanelDay today auctionsDf c)
                 (filter (not_after today) aD)
               = filter (onPanelDay today auctionsDf c) aD).
  { apply filter_implied. intros x _. apply onPanelDay_not_after. }
  destruct (0 <? _); [|reflexivity].
  destruct (0 <? _); [|rewrite Hf; reflexivity].
  rewrite filter_app, map_app, Zsum_app, Hf.
  match goal with
  | |- _ + Zsum (map joinedAmount ?l) = _ =>
      rewrite (Zsum_zero joinedAmount l); [lia|]
  end.
  intros x Hx. apply filter_In in Hx as (Hx & _).
  apply in_map_iff in Hx as (y & <- & _). reflexivity.
Qed.

End ConservationFacts.

(** * The dense rank *)

Module RankFacts.
Import PanelBuilder Panel.

Lemma rank_dense_descending_rankOf (col : list (option Z)) (x : Z) :
  rank_dense_descending col (Some x) = Some (rankOf col x).
Proof. reflexivity. Qed.

Lemma rank_dense_descending_null (col : list (option Z)) :
  rank_dense_descending col None = None.
Proof. reflexivity. Qed.

Lemma in_non_null {A} (col : list (option A)) (y : A) :
  In y (non_null col) <-> In (Some y) col.
Proof.
  unfold non_null. rewrite in_flat_map. split.
  - intros ([z|] & Hz & H); simpl in H; [|tauto].
    destruct H as [->|[]]. exact Hz.
  - intros H. exists (Some y). split; [exact H|left; reflexivity].
Qed.

Lemma in_above (col : list (option Z)) (x y : Z) :
  In y (above col x) <-> In (Some y) col /\ x < y.
Proof.
  unfold above. rewrite nodup_In, filter_In, in_non_null, Z.ltb_lt.
  reflexivity.
Qed.

Lemma in_distinctValues (col : list (option Z)) (y : Z) :
  In y (distinctValues col) <-> In (Some y) col.
Proof. unfold distinctValues. rewrite nodup_In. apply in_non_null. Qed.

Lemma NoDup_above (col : list (option Z)) (x : Z) : NoDup (above col x).
Proof. apply NoDup_nodup. Qed.

Lemma same_members_length (l l' : list Z) :
  NoDup l -> NoDup l' -> (forall y, In y l <-> In y l') ->
  List.length l = List.length l'.
Proof.
  intros H H' Hm. apply Permutation_length, NoDup_Permutation; assumption.
Qed.

(** The rank depends on the column through its set of values only. *)
Lemma rankOf_ext (col col' : list (option Z)) (x : Z) :
  (forall y, In (Some y) col <-> In (Some y) col') ->
  rankOf col x = rankOf col' x.
Proof.
  intros H. unfold rankOf. f_equal. f_equal.
  apply same_members_length; try apply NoDup_above.
  intros y. rewrite !in_above, H. reflexivity.
Qed.

Lemma rankOf_pos (col : list (option Z)) (x : Z) : 1 <= rankOf col x.
Proof. unfold rankOf. lia. Qed.

(** The greatest value has rank 1. *)
Lemma rankOf_max (col : list (option Z)) (x : Z) :
  (forall y, In (Some y) col -> y <= x) -> rankOf col x = 1.
Proof.
  intros H. unfold rankOf.
  destruct (above col x) as [|y l] eqn:E; [reflexivity|].
  assert (Hy : In y (above col x)) by (rewrite E; left; reflexivity).
  apply in_above in Hy as (Hy & Hlt). specialize (H y Hy). lia.
Qed.

(** A greater value has a smaller rank. *)
Lemma rankOf_lt (col : list (option Z)) (x y : Z) :
  In (Some x) col -> y < x -> rankOf col x < rankOf col y.
Proof.
  intros Hx Hlt. unfold rankOf.
  assert (H : (List.length (x :: above col x)
               <= List.length (above col y))%nat).
  { apply NoDup_incl_length.
    - constructor; [|apply NoDup_above].
      rewrite in_above. lia.
    - intros z [<-|Hz]; apply in_above; [auto|].
      apply in_above in Hz. split; [tauto|lia]. }
  simpl in H. lia.
Qed.

(** Equal ranks only for equal values. *)
Lemma rankOf_inj (col : list (option Z)) (x y : Z) :
  In (Some x) col -> In (Some y) col -> rankOf col x = rankOf col y -> x = y.
Proof.
  intros Hx Hy H.
  destruct (Z.lt_trichotomy x y) as [L|[E|L]]; [|exact E|].
  - pose proof (rankOf_lt col Hy L). lia.
  - pose proof (rankOf_lt col Hx L). lia.
Qed.

Lemma exists_least (l : list Z) :
  l <> [] -> exists m, In m l /\ forall z, In z l -> m <= z.
Proof.
  induction l as [|a l IH]; [congruence|]. intros _.
  destruct l as [|b l].
  - exists a. split; [left; reflexivity|]. intros z [<-|[]]. lia.
  - destruct IH as (m & Hm & Hle); [discriminate|].
    destruct (Z.le_gt_cases a m).
    + exists a. split; [left; reflexivity|].
      intros z [<-|Hz]; [lia|]. specialize (Hle z Hz). lia.
    + exists m. split; [right; exact Hm|].
      intros z [<-|Hz]; [lia|]. exact (Hle z Hz).
Qed.

(** The ranks are dense: below every rank but the first there is the rank
    of another value of the column. *)
Lemma rankOf_dense (col : list (option Z)) (x : Z) :
  1 < rankOf col x ->
  exists y, In (Some y) col /\ rankOf col y = rankOf col x - 1.
Proof.
  intros H. unfold rankOf in H.
  destruct (exists_least (l := above col x)) as (m & Hm & Hle).
  { intros E. rewrite E in H. simpl in H. lia. }
  apply in_above in Hm as (Hm & Hlt). exists m. split; [exact Hm|].
  unfold rankOf.
  assert (E : List.length (above col x)
              = List.length (m :: above col m)).
  { apply same_members_length.
    - apply NoDup_above.
    - constructor; [rewrite in_above; lia|apply NoDup_above].
    - intros y. simpl. rewrite !in_above. split.
      + intros (Hy & Hxy).
        assert (Hmy : m <= y) by (apply Hle, in_above; auto).
        destruct (Z.eq_dec m y); [left; assumption|right; split; auto; lia].
      + intros [<-|(Hy & Hmy)]; split; auto; lia. }
  rewrite E. cbn [List.length]. lia.
Qed.

(** No rank exceeds the number of distinct values. *)
Lemma rankOf_le (col : list (option Z)) (x : Z) :
  In (Some x) col ->
  rankOf col x <= Z.of_nat (List.length (distinctValues col)).
Proof.
  intros Hx. unfold rankOf.
  assert (H : (List.length (x :: above col x)
               <= List.length (distinctValues col))%nat).
  { apply NoDup_incl_length.
    - constructor; [rewrite in_above; lia|apply NoDup_above].
    - intros z [<-|Hz]; apply in_distinctValues; [exact Hx|].
      apply in_above in Hz. tauto. }
  simpl in H. lia.
Qed.

(** The least value has the last rank. *)
Lemma rankOf_last (col : list (option Z)) :
  distinctValues col <> [] ->
  exists m, In (Some m) col /\
            rankOf col m = Z.of_nat (List.length (distinctValues col)).
Proof.
  intros Hne. destruct (@exists_least _ Hne) as (m & Hm & Hle).
  apply in_distinctValues in Hm. exists m. split; [exact Hm|].
  unfold rankOf.
  assert (E : List.length (distinctValues col)
              = List.length (m :: above col m)).
  { apply same_members_length.
    - apply NoDup_nodup.
    - constructor; [rewrite in_above; lia|apply NoDup_above].
    - intros y. simpl. rewrite in_above, in_distinctValues. split.
      + intros Hy.
        assert (m <= y) by (apply Hle, in_distinctValues, Hy).
        destruct (Z.eq_dec m y); [left; assumption|right; split; auto; lia].
      + intros [<-|(Hy & _)]; assumption. }
  rewrite E. cbn [List.length]. lia.
Qed.

(** Every rank from 1 to the number of distinct values is taken. *)
Lemma rankOf_onto (col : list (option Z)) (i : Z) :
  1 <= i <= Z.of_nat (List.length (distinctValues col)) ->
  exists y, In (Some y) col /\ rankOf col y = i.
Proof.
  intros Hi.
  assert (Hne : distinctValues col <> []).
  { intros E. rewrite E in Hi. simpl in Hi. lia. }
  destruct (@rankOf_last col Hne) as (m & Hm & Hk).
  remember (Z.to_nat (Z.of_nat (List.length (distinctValues col)) - i))
    as n eqn:En.
  revert i Hi En. induction n as [|n IH]; intros i Hi En.
  - exists m. split; [exact Hm|]. lia.
  - destruct (IH (i + 1)) as (y & Hy & Hr); [lia|lia|].
    destruct (rankOf_dense col y) as (z & Hz & Hrz); [lia|].
    exists z. split; [exact Hz|]. lia.
Qed.

End RankFacts.

(** * PanelBuilder: the vintages *)

Module VintageFacts.
Import PanelBuilder Panel Linked LinkedFacts PanelSteps OrderFacts.
Import JoinFacts RankFacts.

Lemma cell_eqb_eq {A} (eqb : A -> A -> bool) (a b : option A) :
  (forall x y, eqb x y = true <-> x = y) ->
  cell_eqb eqb a b = true <-> a = b.
Proof.
  intros H. destruct a as [x|], b as [y|]; simpl.
  - rewrite H. split; congruence.
  - split; discriminate.
  - split; discriminate.
  - tauto.
Qed.

(** Two rows are in one group when they agree on the five keys. *)
Lemma same_group_iff (r r' : Row.t) :
  same_group r r' = true <->
  Row.date r = Row.date r' /\
  Attrs.securityType (Row.attrs r) = Attrs.securityType (Row.attrs r') /\
  Attrs.TIPS (Row.attrs r) = Attrs.TIPS (Row.attrs r') /\
  Attrs.floatingRate (Row.attrs r) = Attrs.floatingRate (Row.attrs r') /\
  Attrs.tenor (Row.attrs r) = Attrs.tenor (Row.attrs r').
Proof.
  unfold same_group. rewrite !andb_true_iff, Z.eqb_eq.
  rewrite (cell_eqb_eq _ _ _ String.eqb_eq).
  rewrite !(cell_eqb_eq _ _ _ Bool.eqb_true_iff).
  rewrite (cell_eqb_eq _ _ _ Z.eqb_eq). tauto.
Qed.

Lemma same_group_refl (r : Row.t) : same_group r r = true.
Proof. apply same_group_iff. auto. Qed.

Lemma same_group_trans_eq (r r' x : Row.t) :
  same_group r r' = true -> same_group r' x = same_group r x.
Proof.
  intros H. apply same_group_iff in H as (H1 & H2 & H3 & H4 & H5).
  apply eq_true_iff_eq. rewrite !same_group_iff.
  rewrite H1, H2, H3, H4, H5. reflexivity.
Qed.

Lemma group_of_member (l : list Row.t) (r r' : Row.t) :
  In r' (group_of l r) -> group_of l r' = group_of l r.
Proof.
  intros H. apply filter_In in H as (_ & H).
  apply filter_ext. intros x. apply same_group_trans_eq. exact H.
Qed.

Lemma SameAttrs_same_group (s r x y : Row.t) :
  SameAttrs s r -> SameAttrs x y -> same_group s x = same_group r y.
Proof.
  intros (_ & Hd & Ha) (_ & Hd' & Ha'). unfold same_group.
  rewrite Hd, Ha, Hd', Ha'. reflexivity.
Qed.

Lemma SameAttrs_isWhenIssued (x y : Row.t) :
  SameAttrs x y -> isWhenIssued x = isWhenIssued y.
Proof.
  intros (_ & Hd & Ha). unfold isWhenIssued. rewrite Hd, Ha. reflexivity.
Qed.

Lemma group_Forall2 (l l' : list Row.t) (s r : Row.t) :
  Forall2 SameAttrs l l' -> SameAttrs s r ->
  Forall2 SameAttrs (group_of l s) (group_of l' r).
Proof.
  intros HF Hsr. apply Forall2_filter; [|exact HF].
  intros x y Hxy. exact (SameAttrs_same_group Hsr Hxy).
Qed.

(** Groups related row by row have the same first issue dates and the
    same when-issued members. *)
Lemma group_columns (g g' : list Row.t) :
  Forall2 SameAttrs g g' ->
  firstIssueDates g = firstIssueDates g' /\
  hasWhenIssuedMember g = hasWhenIssuedMember g'.
Proof.
  unfold firstIssueDates, hasWhenIssuedMember.
  induction 1 as [|x y g g' Hxy HF (IH1 & IH2)]; simpl; [auto|].
  rewrite IH1, IH2, (SameAttrs_isWhenIssued Hxy).
  destruct Hxy as (_ & _ & ->). auto.
Qed.

(** Groups with the same members give the same vintage to a date. *)
Lemma vintageIn_perm (g g' : list Row.t) (f : Z) :
  Permutation g g' -> vintageIn g f = vintageIn g' f.
Proof.
  intros Hp.
  assert (Hm : forall x, In x g <-> In x g').
  { intros x. split; apply Permutation_in; [|symmetry]; exact Hp. }
  unfold vintageIn. f_equal; [f_equal|].
  - apply rankOf_ext. intros y. unfold firstIssueDates.
    rewrite !in_map_iff. split; intros (x & Hx & Hin); exists x;
      (split; [exact Hx|]); apply Hm; exact Hin.
  - assert (E : hasWhenIssuedMember g = hasWhenIssuedMember g');
      [|rewrite E; reflexivity].
    apply eq_true_iff_eq. unfold hasWhenIssuedMember.
    rewrite !existsb_exists. split; intros (x & Hin & Hx); exists x;
      (split; [|exact Hx]); apply Hm; exact Hin.
Qed.

(** What [computeVintage] gives a row, in terms of its input frame. *)
Lemma computeVintage_In (rows : list Row.t) (r : Row.t) :
  In r (computeVintage rows) ->
  exists s, In s rows /\ SameAttrs s r /\
    Row.vintage r = option_map (vintageIn (group_of rows s)) (firstIssue s).
Proof.
  unfold computeVintage.
  set (ranked := map (rankVintage rows) rows).
  intros H. apply in_map_iff in H as (r' & <- & H).
  apply in_map_iff in H as (s & <- & H).
  exists s. split; [exact H|]. split.
  - eapply SameAttrs_trans; [apply rankVintage_step|].
    apply adjustWhenIssued_step.
  - assert (HF : Forall2 SameAttrs rows ranked)
      by (apply Forall2_map_r; intros; apply rankVintage_step).
    pose proof (group_Forall2 HF (rankVintage_step rows s)) as HG.
    apply group_columns in HG as (_ & HW).
    unfold adjustWhenIssued, hasWhenIssued.
    fold (hasWhenIssuedMember (group_of ranked (rankVintage rows s))).
    rewrite <- HW. unfold vintageIn, firstIssue.
    destruct (hasWhenIssuedMember (group_of rows s));
      unfold rankVintage; cbn [Row.vintage Row.set_vintage];
      destruct (Attrs.firstIssueDate (Row.attrs s)) as [f|]; cbn;
      try reflexivity; f_equal; unfold rankOf, above; lia.
Qed.

Lemma group_of_businessDays (l : list Row.t) (r : Row.t) :
  isBusinessDay r = true ->
  group_of (filter isBusinessDay l) r = group_of l r.
Proof.
  intros Hb. unfold group_of. rewrite filter_comm. apply filter_all.
  intros x Hx. apply filter_In in Hx as (_ & Hx).
  apply same_group_iff in Hx as (Hd & _).
  unfold isBusinessDay in *. rewrite <- Hd. exact Hb.
Qed.

(** The vintage of a panel row is the vintage the ranking gives its first
    issue date in its group of the panel. *)
Lemma buildPanel_vintage (today : Z) (auctionsDf : list Auction.t)
  (dates : list (string * Z)) (r : Row.t) :
  In r (buildPanel today auctionsDf dates) ->
  Row.vintage r
  = option_map (vintageIn (group_of (buildPanel today auctionsDf dates) r))
               (firstIssue r).
Proof.
  unfold buildPanel.
  set (summed := summedFrame today auctionsDf dates).
  intros H. apply (proj1 (sort_In _ _ _)) in H.
  apply filter_In in H as (H & Hb).
  destruct (computeVintage_In _ _ H) as (s & Hs & Hsr & ->).
  pose proof (group_Forall2 (computeVintage_step summed) Hsr) as HG.
  assert (E : forall f,
            vintageIn (group_of summed s) f
            = vintageIn (group_of (Order.sort finalOrder
                           (filter isBusinessDay (computeVintage summed))) r) f).
  { intros f.
    transitivity (vintageIn (group_of (computeVintage summed) r) f).
    - unfold vintageIn. destruct (group_columns HG) as (-> & ->). reflexivity.
    - apply vintageIn_perm.
      rewrite <- (group_of_businessDays (computeVintage summed) r Hb).
      apply Permutation_filter. symmetry. apply sort_perm. }
  unfold firstIssue. destruct Hsr as (_ & _ & ->).
  destruct (Attrs.firstIssueDate (Row.attrs s)); cbn [option_map];
    [|reflexivity].
  rewrite E. reflexivity.
Qed.

End VintageFacts.

(** * PanelBuilder: the future-dated records *)

Module FutureFacts.
Import PanelBuilder Panel JoinFacts ConservationFacts.

Lemma filter_map_swap {A B} (p : B -> bool) (g : A -> B) (l : list A) :
  filter p (map g l) = map g (filter (fun x => p (g x)) l).
Proof.
  induction l as [|x l IH]; simpl; [reflexivity|].
  destruct (p (g x)); simpl; rewrite IH; reflexivity.
Qed.

Lemma nonempty_length {A} (l : list A) :
  (0 <? Z.of_nat (List.length l)) = match l with [] => false | _ => true end.
Proof. destruct l; reflexivity. Qed.

Lemma matches_not_after (today : Z) (c : string) (d : Z)
  (a : AuctionData.t) :
  matches c d a = true -> not_after today a = (d <=? today).
Proof.
  unfold matches, not_after. rewrite andb_true_iff. intros (_ & H).
  destruct (AuctionData.date a) as [x|]; [|discriminate].
  cbn in H. destruct (x =? d) eqn:E; [|discriminate].
  apply Z.eqb_eq in E. subst x. cbn. destruct (d <=? today); reflexivity.
Qed.

Lemma matches_is_future (today : Z) (c : string) (d : Z)
  (a : AuctionData.t) :
  matches c d a = true -> is_future today a = (today <? d).
Proof.
  unfold matches, is_future. rewrite andb_true_iff. intros (_ & H).
  destruct (AuctionData.date a) as [x|]; [|discriminate].
  cbn in H. destruct (x =? d) eqn:E; [|discriminate].
  apply Z.eqb_eq in E. subst x. cbn. destruct (today <? d); reflexivity.
Qed.

Lemma matches_moved (today : Z) (c : string) (d : Z) (a : AuctionData.t) :
  matches c d (moveToToday today a)
  = String.eqb (AuctionData.cusip a) c && (today =? d).
Proof.
  unfold matches, moveToToday. cbn.
  destruct (today =? d); reflexivity.
Qed.

(** The direct join sees the records dated on or before today only. *)
Lemma not_after_slot (today : Z) (c : string) (d : Z)
  (aD : list AuctionData.t) :
  filter (matches c d) (filter (not_after today) aD)
  = if d <=? today then filter (matches c d) aD else [].
Proof.
  destruct (d <=? today) eqn:E.
  - apply filter_implied. intros x _ M.
    rewrite (@matches_not_after today _ _ _ M). exact E.
  - apply filter_none. intros x Hx. apply filter_In in Hx as (_ & Hna).
    destruct (matches c d x) eqn:M; [|reflexivity].
    rewrite (@matches_not_after today _ _ _ M) in Hna. congruence.
Qed.

(** A cusip is among [cusipsWithToday] when it has a record dated today. *)
Lemma cusipsWithToday_spec (today : Z) (c : string)
  (aD : list AuctionData.t) :
  existsb (String.eqb c) (map AuctionData.cusip (filter (is_today today) aD))
  = match issuedToday today c aD with [] => false | _ :: _ => true end.
Proof.
  unfold issuedToday. induction aD as [|x aD IH]; [reflexivity|].
  cbn [filter]. unfold matches at 1.
  change (holds (Null.lift2 Z.eqb (AuctionData.date x) (Some today)))
    with (is_today today x).
  destruct (is_today today x); cbn [map existsb].
  - rewrite (String.eqb_sym c).
    destruct (String.eqb (AuctionData.cusip x) c); cbn [andb orb];
      [reflexivity|exact IH].
  - rewrite andb_false_r. exact IH.
Qed.

(** The anti join on cusip keeps the pending records of the cusips with no
    record dated today. *)
Lemma futureWithoutToday_of (today : Z) (c : string)
  (cusipsWithToday : list string) (aD : list AuctionData.t) :
  filter (fun a => String.eqb (AuctionData.cusip a) c)
    (filter (fun a => negb (existsb (String.eqb (AuctionData.cusip a))
                                    cusipsWithToday))
            (filter (is_future today) aD))
  = if existsb (String.eqb c) cusipsWithToday then []
    else pending today c aD.
Proof.
  unfold pending. induction aD as [|x aD IH].
  - destruct (existsb _ _); reflexivity.
  - cbn [filter].
    destruct (is_future today x); [|rewrite andb_false_r; exact IH].
    cbn [filter]. rewrite andb_true_r.
    destruct (String.eqb (AuctionData.cusip x) c) eqn:E.
    + apply String.eqb_eq in E. rewrite E.
      destruct (existsb (String.eqb c) cusipsWithToday) eqn:X;
        cbn [negb filter].
      * exact IH.
      * rewrite E, String.eqb_refl, IH. reflexivity.
    + destruct (negb _); cbn [filter]; rewrite ?E; exact IH.
Qed.

Lemma resolveFutureDated_cases (today : Z) (aD : list AuctionData.t) :
  (filter (is_future today) aD = [] /\ resolveFutureDated today aD = aD) \/
  resolveFutureDated today aD
  = filter (not_after today) aD
    ++ map (moveToToday today)
         (filter (fun a => negb (existsb (String.eqb (AuctionData.cusip a))
                                   (map AuctionData.cusip
                                      (filter (is_today today) aD))))
                 (filter (is_future today) aD)).
Proof.
  unfold resolveFutureDated. cbv zeta. rewrite !nonempty_length.
  destruct (filter (is_future today) aD) as [|f fs] eqn:F; [left; auto|right].
  destruct (filter _ (f :: fs)) as [|g gs] eqn:G.
  - cbn [map]. rewrite app_nil_r. reflexivity.
  - reflexivity.
Qed.

(** What the join finds in the slot of cusip [c] on date [d], after the
    future-dated records are resolved: the records dated [d], if [d] is not
    after today, and on today the synthesized records. *)
Lemma resolve_slot (today : Z) (c : string) (d : Z)
  (aD : list AuctionData.t) :
  filter (matches c d) (resolveFutureDated today aD)
  = (if d <=? today then filter (matches c d) aD else [])
    ++ (if d =? today then synthesized today c aD else []).
Proof.
  destruct (resolveFutureDated_cases today aD) as [(F & ->)| ->].
  - assert (Hnone : forall x, In x aD -> is_future today x = false).
    { intros x Hx. destruct (is_future today x) eqn:E; [|reflexivity].
      assert (H : In x (filter (is_future today) aD))
        by (apply filter_In; auto).
      rewrite F in H. destruct H. }
    assert (P : pending today c aD = []).
    { apply filter_none. intros x Hx. rewrite (Hnone x Hx).
      apply andb_false_r. }
    assert (S : synthesized today c aD = []).
    { unfold synthesized. rewrite P.
      destruct (issuedToday today c aD); reflexivity. }
    rewrite S.
    replace (if d =? today then [] else []) with (@nil AuctionData.t)
      by (destruct (d =? today); reflexivity).
    rewrite app_nil_r.
    destruct (d <=? today) eqn:E; [reflexivity|].
    apply filter_none. intros x Hx.
    destruct (matches c d x) eqn:M; [|reflexivity].
    pose proof (@matches_is_future today c d x M) as Hf.
    rewrite (Hnone x Hx) in Hf. apply Z.leb_gt in E.
    symmetry in Hf. apply Z.ltb_ge in Hf. lia.
  - rewrite filter_app, not_after_slot. f_equal.
    rewrite filter_map_swap.
    destruct (d =? today) eqn:E.
    + apply Z.eqb_eq in E. subst d.
      rewrite (@filter_ext _
                 (fun x => matches c today (moveToToday today x))
                 (fun a => String.eqb (AuctionData.cusip a) c))
        by (intros a; rewrite matches_moved, Z.eqb_refl; apply andb_true_r).
      rewrite futureWithoutToday_of, cusipsWithToday_spec.
      unfold synthesized.
      destruct (issuedToday today c aD); reflexivity.
    + rewrite filter_none; [reflexivity|].
      intros x _. rewrite matches_moved, Z.eqb_sym, E. apply andb_false_r.
Qed.

(** A synthesized record: dated today, amount zero, no issuance type and no
    unscheduled reopening date. *)
Lemma synthesized_In (today : Z) (c : string) (aD : list AuctionData.t)
  (a : AuctionData.t) :
  In a (synthesized today c aD) ->
  issuedToday today c aD = [] /\
  (exists p, In p (pending today c aD) /\ a = moveToToday today p) /\
  AuctionData.cusip a = c /\
  AuctionData.date a = Some today /\
  Attrs.amountIssued (AuctionData.attrs a) = Some 0 /\
  Attrs.issuanceType (AuctionData.attrs a) = None /\
  Attrs.unscheduledReopeningDate (AuctionData.attrs a) = None.
Proof.
  unfold synthesized.
  destruct (issuedToday today c aD) as [|i rest]; [|intros []].
  intros H. apply in_map_iff in H as (p & <- & Hp).
  split; [reflexivity|]. split; [exists p; auto|].
  apply filter_In in Hp as (_ & Hp). apply andb_true_iff in Hp as (Hc & _).
  apply String.eqb_eq in Hc. cbn. auto.
Qed.

Lemma traced_issuanceType (j r : Row.t) :
  Trace j r ->
  Attrs.issuanceType (Row.attrs r) = Attrs.issuanceType (Row.attrs j).
Proof.
  intros (a & (_ & _ & _ & Hit & _) & (_ & _ & ->)).
  rewrite <- Hit. reflexivity.
Qed.

End FutureFacts.

(** * PanelBuilder: the claims *)

Module PanelClaims.
Import PanelBuilder Panel Linked LinkedFacts PanelSteps CalendarFacts JoinFacts.
Import OrderFacts SumFacts TraceFacts ConservationFacts RankFacts VintageFacts.
Import FutureFacts.

#[local] Arguments buildPanel : simpl never.
#[local] Arguments auctionData : simpl never.

Lemma createCusipPanel_Ok (w : World) (auctionsDf : list Auction.t)
  (panel : list Row.t) :
  _createCusipPanel w auctionsDf = Ok panel ->
  exists dates,
    completeDates (date_today w) auctionsDf = Ok dates /\
    panel = buildPanel (date_today w) auctionsDf dates.
Proof.
  unfold _createCusipPanel.
  destruct (completeDates (date_today w) auctionsDf) as [dates|e];
    simpl; [|discriminate].
  intros [= <-]. exists dates. auto.
Qed.

(** X1.  The build returns a panel when the frame is not empty and the
    calendar span of every cusip, from its least announcement date to the
    earlier of the maturity date of its first row and today, has a day:
    both dates are there and the first is not after the second. *)
Lemma createCusipPanel_total (w : World) (auctionsDf : list Auction.t) :
  auctionsDf <> [] ->
  (forall c, In c (map Auction.cusip auctionsDf) ->
     exists d, inSpan (date_today w) auctionsDf c d) ->
  exists panel, _createCusipPanel w auctionsDf = Ok panel.
Proof.
  intros Hne Hsp.
  destruct (@completeDates_total (date_today w) auctionsDf Hne Hsp)
    as (dates & Hd).
  unfold _createCusipPanel. rewrite Hd. cbn [bind]. eauto.
Qed.

Lemma createCusipPanel_total_witness :
  Sample.one_bill <> [] /\
  exists panel, _createCusipPanel Sample.friday Sample.one_bill = Ok panel.
Proof.
  assert (Hne : Sample.one_bill <> []) by discriminate.
  split; [exact Hne|].
  apply (@createCusipPanel_total Sample.friday Sample.one_bill Hne).
  intros c [<-|[]]. exists 19993, 19993, 20024.
  repeat split; vm_compute; congruence.
Defined.

(** A bill announced after its maturity date has no day in its span, and
    the build raises: the frame of its calendar has a [cusip] column of
    dtype Null. *)
Example matured_before_announced_raises :
  _createCusipPanel Sample.friday Sample.matured_before_announced
  = Raise SchemaError_null_cusip_column.
Proof. reflexivity. Qed.

(** C1 (amended).  In the panel no row falls on a Saturday or Sunday, and
    for every cusip [c] of the input and every business day [d] of its span
    [min announcemt_date, min (first maturity_date, today)] the panel holds
    one row (c, d) for each auction of [c] that the join dates [d] (a
    future-dated auction being moved to today), and one row when there is
    none: at least one row, and exactly one when at most one auction is
    dated [d]. *)
Theorem panel_rows_per_slot (w : World) (auctionsDf : list Auction.t)
  (panel : list Row.t) :
  _createCusipPanel w auctionsDf = Ok panel ->
  (forall r, In r panel -> weekday (Row.date r) < 6) /\
  (forall c d,
     In c (map Auction.cusip auctionsDf) ->
     inSpan (date_today w) auctionsDf c d -> weekday d < 6 ->
     let dated :=
       filter (matches c d) (auctionData (date_today w) auctionsDf) in
     List.length (rowsAt c d panel) = Nat.max 1 (List.length dated) /\
     (List.length dated <= 1 -> List.length (rowsAt c d panel) = 1)%nat).
Proof.
  intros Hok. apply createCusipPanel_Ok in Hok as (dates & Hd & ->).
  destruct (completeDates_spec _ _ Hd) as (Hnd & Hin).
  split.
  - intros r Hr.
    apply (@panel_row_slot (date_today w) auctionsDf dates r Hr).
  - intros c d Hc Hsp Hwd dated.
    assert (Hcd : In (c, d) dates) by (apply Hin; auto).
    pose proof (length_eq
                  (@panel_slot (date_today w) auctionsDf dates c d Hnd Hcd Hwd))
      as Hlen.
    rewrite joinSlot_length in Hlen. cbn [fst snd] in Hlen.
    fold dated in Hlen.
    split; [symmetry; exact Hlen|]. intros Hle. lia.
Qed.

Lemma panel_rows_per_slot_witness :
  _createCusipPanel Sample.friday Sample.one_bill
    = Ok (Sample.panel_of Sample.friday Sample.one_bill) /\
  List.length (rowsAt "912797LA" 19997
                 (Sample.panel_of Sample.friday Sample.one_bill)) = 1%nat.
Proof.
  assert (Hok : _createCusipPanel Sample.friday Sample.one_bill
                = Ok (Sample.panel_of Sample.friday Sample.one_bill))
    by (vm_compute; reflexivity).
  split; [exact Hok|].
  destruct (panel_rows_per_slot _ _ Hok) as [_ H].
  apply (H "912797LA"%string 19997).
  - left. reflexivity.
  - exists 19993, 20024. repeat split; vm_compute; (reflexivity || discriminate).
  - vm_compute. reflexivity.
  - vm_compute. repeat constructor.
Defined.

(** C1 as stated fails: a bill sold in two auctions with the same issue
    date has two rows on that business day of its span. *)
Lemma exactly_one_row_fails :
  exists panel c d,
    _createCusipPanel Sample.friday Sample.same_day_twice = Ok panel /\
    In c (map Auction.cusip Sample.same_day_twice) /\
    inSpan (date_today Sample.friday) Sample.same_day_twice c d /\
    weekday d < 6 /\
    List.length (rowsAt c d panel) = 2%nat.
Proof.
  exists (Sample.panel_of Sample.friday Sample.same_day_twice),
         "912797LA"%string, 19996.
  split; [vm_compute; reflexivity|].
  split; [left; reflexivity|].
  split; [exists 19993, 20024;
          repeat split; vm_compute; (reflexivity || discriminate)|].
  split; vm_compute; reflexivity.
Qed.

(** C7: on an empty frame no calendar frame is built and [pl.concat] of
    the empty list raises; no empty panel is returned. *)
Theorem empty_input_raises (w : World) :
  _createCusipPanel w [] = Raise ValueError_concat_empty_list.
Proof. reflexivity. Qed.

(** C4 as stated fails: the same records give another panel once the
    clock shows another day, with no reference date passed by the caller. *)
Lemma panel_depends_on_clock :
  _createCusipPanel Sample.friday Sample.one_pending
  <> _createCusipPanel Sample.monday Sample.one_pending.
Proof. vm_compute. discriminate. Qed.

Lemma zeroedFrame_amount (today : Z) (auctionsDf : list Auction.t)
  (dates : list (string * Z)) (z : Row.t) :
  In z (zeroedFrame today auctionsDf dates) ->
  exists j, In j (leftJoin dates (auctionData today auctionsDf)) /\
    Attrs.amountIssued (Row.attrs z)
    = Some (Null.fill_null 0 (Attrs.amountIssued (Row.attrs j))).
Proof.
  intros H. apply zeroedFrame_In in H as (j & a & Hj & Hja & ->).
  exists j. split; [exact Hj|].
  apply traced_amount; [exact (joined_AmountStands _ _ _ _ Hj)|].
  exists a. split; [exact Hja|apply SameAttrs_refl].
Qed.

(** C10.  In every row of the panel [amountIssued] and [totalIssued] are
    non-null: the zeroing step leaves no null amount, and the running sum
    of non-null amounts has no null. *)
Theorem amounts_never_null (w : World) (auctionsDf : list Auction.t)
  (panel : list Row.t) (r : Row.t) :
  _createCusipPanel w auctionsDf = Ok panel -> In r panel ->
  (exists a, Attrs.amountIssued (Row.attrs r) = Some a) /\
  (exists t, Row.totalIssued r = Some t).
Proof.
  intros Hok Hr. apply createCusipPanel_Ok in Hok as (dates & _ & ->).
  apply buildPanel_summed in Hr as (s & Hs & (_ & _ & Ha) & Ht).
  rewrite Ha, Ht. unfold summedFrame, cumulativeIssuance in Hs.
  apply cum_sum_from_total in Hs as (H1 & H2).
  - destruct (Attrs.amountIssued (Row.attrs s)); [|congruence].
    destruct (Row.totalIssued s); [|congruence]. eauto.
  - intros x Hx. apply (proj1 (sort_In _ _ _)) in Hx.
    apply zeroedFrame_amount in Hx as (j & _ & ->). discriminate.
Qed.

Lemma amounts_never_null_witness :
  let panel := Sample.panel_of Sample.friday Sample.one_pending in
  let r := Sample.row_at 0 panel in
  _createCusipPanel Sample.friday Sample.one_pending = Ok panel /\
  In r panel /\
  (exists a, Attrs.amountIssued (Row.attrs r) = Some a) /\
  (exists t, Row.totalIssued r = Some t).
Proof.
  intros panel r.
  assert (Hok : _createCusipPanel Sample.friday Sample.one_pending = Ok panel)
    by (vm_compute; reflexivity).
  assert (Hr : In r panel) by (apply nth_In; vm_compute; lia).
  split; [exact Hok|]. split; [exact Hr|].
  exact (@amounts_never_null Sample.friday Sample.one_pending panel r Hok Hr).
Defined.

Lemma joined_amount_nonneg (today : Z) (auctionsDf : list Auction.t)
  (dates : list (string * Z)) (j : Row.t) :
  (forall r a, In r auctionsDf -> Auction.total_accepted r = Some a ->
               0 <= a) ->
  In j (leftJoin dates (auctionData today auctionsDf)) ->
  0 <= Null.fill_null 0 (Attrs.amountIssued (Row.attrs j)).
Proof.
  intros Hpos H.
  apply leftJoin_In in H as (_ & [H|(a & Ha & H & _)]); rewrite H;
    [simpl; lia|].
  apply auctionData_In in Ha as (r & Hr & [->|(-> & _)]); simpl; [|lia].
  destruct (Auction.total_accepted r) as [x|] eqn:E; simpl; [|lia].
  exact (Hpos r x Hr E).
Qed.

(** C5 (amended).  When no auction record carries a negative
    [total_accepted], [totalIssued] does not decrease from a date of a
    cusip to a later date of that cusip in the panel. *)
Theorem totalIssued_non_decreasing (w : World) (auctionsDf : list Auction.t)
  (panel : list Row.t) :
  _createCusipPanel w auctionsDf = Ok panel ->
  (forall r a, In r auctionsDf -> Auction.total_accepted r = Some a ->
               0 <= a) ->
  forall r1 r2, In r1 panel -> In r2 panel ->
    Row.cusip r1 = Row.cusip r2 -> Row.date r1 < Row.date r2 ->
    exists t1 t2, Row.totalIssued r1 = Some t1 /\
                  Row.totalIssued r2 = Some t2 /\ t1 <= t2.
Proof.
  intros Hok Hpos r1 r2 H1 H2 Hc Hd.
  apply createCusipPanel_Ok in Hok as (dates & _ & ->).
  apply buildPanel_summed in H1 as (s1 & Hs1 & (Hc1 & Hd1 & _) & ->).
  apply buildPanel_summed in H2 as (s2 & Hs2 & (Hc2 & Hd2 & _) & ->).
  unfold summedFrame, cumulativeIssuance in Hs1, Hs2.
  set (ordered := Order.sort by_cusip_desc_date
                    (zeroedFrame (date_today w) auctionsDf dates)) in *.
  assert (Hamt : forall x, In x ordered ->
            exists a, Attrs.amountIssued (Row.attrs x) = Some a /\ 0 <= a).
  { intros x Hx. apply (proj1 (sort_In _ _ _)) in Hx.
    apply zeroedFrame_amount in Hx as (j & Hj & ->).
    eexists. split; [reflexivity|].
    exact (joined_amount_nonneg _ _ _ _ Hpos Hj). }
  assert (Hsorted : StronglySorted dateOrdered ordered)
    by apply sorted_dateOrdered.
  apply (@cum_sum_from_monotone (fun _ => 0) ordered Hamt Hsorted
           s1 s2 Hs1 Hs2); [congruence|lia].
Qed.

Lemma totalIssued_non_decreasing_witness :
  let panel := Sample.panel_of Sample.friday Sample.same_day_twice in
  let r1 := Sample.row_at 6 panel in
  let r2 := Sample.row_at 0 panel in
  _createCusipPanel Sample.friday Sample.same_day_twice = Ok panel /\
  (forall r a, In r Sample.same_day_twice ->
               Auction.total_accepted r = Some a -> 0 <= a) /\
  In r1 panel /\ In r2 panel /\
  Row.cusip r1 = Row.cusip r2 /\ Row.date r1 < Row.date r2 /\
  exists t1 t2, Row.totalIssued r1 = Some t1 /\
                Row.totalIssued r2 = Some t2 /\ t1 <= t2.
Proof.
  intros panel r1 r2.
  assert (Hok : _createCusipPanel Sample.friday Sample.same_day_twice
                = Ok panel)
    by (vm_compute; reflexivity).
  assert (Hpos : forall r a, In r Sample.same_day_twice ->
                   Auction.total_accepted r = Some a -> 0 <= a)
    by (intros r a [<-|[<-|[]]] [= <-]; lia).
  assert (H1 : In r1 panel) by (apply nth_In; vm_compute; lia).
  assert (H2 : In r2 panel) by (apply nth_In; vm_compute; lia).
  assert (Hc : Row.cusip r1 = Row.cusip r2) by (vm_compute; reflexivity).
  assert (Hd : Row.date r1 < Row.date r2) by (vm_compute; reflexivity).
  repeat (split; [assumption|]).
  exact (@totalIssued_non_decreasing Sample.friday Sample.same_day_twice
           panel Hok Hpos r1 r2 H1 H2 Hc Hd).
Defined.

(** C5 as stated fails: with a negative amount on a later auction of the
    cusip, [totalIssued] falls from 100 to 70. *)
Lemma totalIssued_decreases :
  exists panel r1 r2,
    _createCusipPanel Sample.friday Sample.negative_amount = Ok panel /\
    In r1 panel /\ In r2 panel /\
    Row.cusip r1 = Row.cusip r2 /\ Row.date r1 < Row.date r2 /\
    Row.totalIssued r1 = Some 100 /\ Row.totalIssued r2 = Some 70.
Proof.
  exists (Sample.panel_of Sample.friday Sample.negative_amount).
  exists (Sample.row_at 4
            (Sample.panel_of Sample.friday Sample.negative_amount)).
  exists (Sample.row_at 2
            (Sample.panel_of Sample.friday Sample.negative_amount)).
  vm_compute. repeat split; auto 10.
Qed.

Lemma Trace_of_cusip (c : string) (j r : Row.t) :
  Trace j r -> of_cusip c j = of_cusip c r.
Proof.
  intros (a & (Hc & _) & (Hc' & _)). unfold of_cusip.
  rewrite Hc'. cbn. rewrite Hc. reflexivity.
Qed.

(** C6 (amended).  For every cusip, the sum of [amountIssued] over its
    panel rows is the sum of [total_accepted] over those of its auction
    records whose issue date is a business day of the cusip's calendar span
    [min announcemt_date, min (first maturity_date, today)]; records dated
    after today, on a weekend or outside the span add nothing.  So the sum
    equals the sum over all the records of the cusip when each of them is
    issued on such a day. *)
Theorem issued_is_accepted_on_panel_days (w : World)
  (auctionsDf : list Auction.t) (panel : list Row.t) (c : string) :
  _createCusipPanel w auctionsDf = Ok panel ->
  issuedInPanel c panel = acceptedOnPanelDays (date_today w) c auctionsDf /\
  ((forall r, In r auctionsDf -> has_cusip c r = true ->
              issuedOnPanelDay (date_today w) auctionsDf r = true) ->
   issuedInPanel c panel = acceptedTotal c auctionsDf).
Proof.
  intros Hok. apply createCusipPanel_Ok in Hok as (dates & Hd & ->).
  destruct (completeDates_spec _ _ Hd) as (Hnd & Hin).
  set (today := date_today w) in *.
  assert (E : issuedInPanel c (buildPanel today auctionsDf dates)
              = acceptedOnPanelDays today c auctionsDf).
  { unfold issuedInPanel.
    assert (HP : forall j,
              In j (filter isBusinessDay
                      (leftJoin dates (auctionData today auctionsDf))) ->
              AmountStands j).
    { intros j Hj. apply filter_In in Hj as (Hj & _).
      exact (joined_AmountStands _ _ _ _ Hj). }
    pose proof (strengthen_l AmountStands HP
                  (buildPanel_trace today auctionsDf dates)) as L.
    assert (Hc : forall j r, Trace j r /\ AmountStands j ->
                             of_cusip c j = of_cusip c r)
      by (intros j r (Ht & _); exact (Trace_of_cusip c Ht)).
    pose proof (filter_both (of_cusip c) (of_cusip c) Hc L) as L2.
    assert (Ha : forall j r, Trace j r /\ AmountStands j ->
                             amountOf j = amountOf r).
    { intros j r (Ht & Hst). unfold amountOf.
      rewrite (traced_amount Hst Ht). reflexivity. }
    rewrite <- (sum_eq amountOf amountOf Ha L2).
    rewrite joined_sum, (sum_by_auction c (auctionData today auctionsDf) Hnd).
    rewrite <- auctionData_sum. f_equal. f_equal.
    apply filter_ext_in. intros a Hin_a.
    exact (@hit_onPanelDay today auctionsDf dates c a Hin Hin_a). }
  split; [exact E|]. intros Hall. rewrite E.
  unfold acceptedOnPanelDays, acceptedTotal. f_equal. f_equal.
  apply filter_ext_in. intros r Hr.
  destruct (has_cusip c r) eqn:Hc; [|reflexivity].
  rewrite (Hall r Hr Hc). reflexivity.
Qed.

Lemma issued_is_accepted_on_panel_days_witness :
  _createCusipPanel Sample.friday Sample.same_day_twice
    = Ok (Sample.panel_of Sample.friday Sample.same_day_twice) /\
  issuedInPanel "912797LA"%string
    (Sample.panel_of Sample.friday Sample.same_day_twice) = 150.
Proof.
  assert (Hok : _createCusipPanel Sample.friday Sample.same_day_twice
                = Ok (Sample.panel_of Sample.friday Sample.same_day_twice))
    by (vm_compute; reflexivity).
  split; [exact Hok|].
  rewrite (proj1 (@issued_is_accepted_on_panel_days Sample.friday
                    Sample.same_day_twice _ "912797LA"%string Hok)).
  vm_compute. reflexivity.
Defined.

(** C6 as stated fails: a bill auctioned but issued after today brings 70
    accepted and nothing issued in the panel. *)
Lemma conservation_fails :
  exists panel c,
    _createCusipPanel Sample.friday Sample.one_pending = Ok panel /\
    issuedInPanel c panel = 0 /\
    acceptedTotal c Sample.one_pending = 70.
Proof.
  exists (Sample.panel_of Sample.friday Sample.one_pending),
         "912797LB"%string.
  vm_compute. auto.
Qed.

Lemma whenIssued_iff (r : Row.t) :
  whenIssued r = true <->
  exists f, firstIssue r = Some f /\ Row.date r < f.
Proof.
  unfold whenIssued, isWhenIssued, firstIssue.
  destruct (Attrs.firstIssueDate (Row.attrs r)) as [f|]; simpl.
  - destruct (Z.ltb_spec (Row.date r) f); split.
    + intros _. exists f. auto.
    + reflexivity.
    + discriminate.
    + intros (f' & [= <-] & H'). lia.
  - split; [discriminate|]. intros (f & H & _). discriminate.
Qed.

Lemma group_of_self (l : list Row.t) (r : Row.t) :
  In r l -> In r (group_of l r).
Proof.
  intros H. unfold group_of. apply filter_In. split; [exact H|].
  apply same_group_refl.
Qed.

Lemma group_date (l : list Row.t) (r x : Row.t) :
  In x (group_of l r) -> Row.date x = Row.date r.
Proof.
  intros H. apply filter_In in H as (_ & H).
  apply VintageFacts.same_group_iff in H as (H & _). congruence.
Qed.

Lemma group_firstIssue (g : list Row.t) (f : Z) :
  In (Some f) (firstIssueDates g) <->
  exists x, In x g /\ firstIssue x = Some f.
Proof.
  unfold firstIssueDates, firstIssue. rewrite in_map_iff.
  split; intros (x & H1 & H2); exists x; auto.
Qed.

(** X19.  In the panel, within the group [g] of a row (same date,
    securityType, TIPS, floatingRate and tenor), the vintage of a member
    with first issue date [f] is [vintageIn g f]: the dense descending rank
    of [f] among the first issue dates of the group, counted from 0, less
    one when some member is when-issued.  A later first issue date has a
    smaller vintage and equal dates share one.  In a group with no
    when-issued member the vintages are exactly 0 .. k-1 for k distinct
    first issue dates.  In a group with a when-issued member, the members
    with the latest first issue date are when-issued and get -1; a
    when-issued member gets -1 when all the when-issued members share its
    first issue date. *)
Theorem vintage_is_dense_rank (w : World) (auctionsDf : list Auction.t)
  (panel : list Row.t) (r : Row.t) :
  _createCusipPanel w auctionsDf = Ok panel -> In r panel ->
  let g := group_of panel r in
  let k := Z.of_nat (List.length (distinctValues (firstIssueDates g))) in
  (forall r', In r' g ->
     Row.vintage r' = option_map (vintageIn g) (firstIssue r')) /\
  (forall f f', In (Some f) (firstIssueDates g) ->
     In (Some f') (firstIssueDates g) ->
     (f' < f <-> vintageIn g f < vintageIn g f')) /\
  (hasWhenIssuedMember g = false ->
     (forall r' v, In r' g -> Row.vintage r' = Some v -> 0 <= v < k) /\
     (forall i, 0 <= i < k ->
        exists r', In r' g /\ Row.vintage r' = Some i)) /\
  (hasWhenIssuedMember g = true ->
     forall r' f, In r' g -> firstIssue r' = Some f ->
       (forall f', In (Some f') (firstIssueDates g) -> f' <= f) ->
       Row.vintage r' = Some (-1) /\ whenIssued r' = true) /\
  (forall r' f, In r' g -> whenIssued r' = true -> firstIssue r' = Some f ->
     (forall x, In x g -> whenIssued x = true -> firstIssue x = Some f) ->
     Row.vintage r' = Some (-1)).
Proof.
  intros Hok Hr.
  assert (Hv : forall x, In x panel ->
            Row.vintage x
            = option_map (vintageIn (group_of panel x)) (firstIssue x)).
  { apply createCusipPanel_Ok in Hok as (dates & _ & ->).
    intros x. apply buildPanel_vintage. }
  clear Hok. intros g k.
  assert (Hmem : forall r', In r' g ->
            Row.vintage r' = option_map (vintageIn g) (firstIssue r')).
  { intros r' Hr'. unfold g. rewrite <- (@group_of_member _ _ _ Hr').
    apply Hv. apply filter_In in Hr'. tauto. }
  assert (Hmax : hasWhenIssuedMember g = true ->
            forall r' f, In r' g -> firstIssue r' = Some f ->
              (forall f', In (Some f') (firstIssueDates g) -> f' <= f) ->
              Row.vintage r' = Some (-1) /\ whenIssued r' = true).
  { intros Hw r' f Hr' Hf Hle. split.
    - rewrite (Hmem r' Hr'), Hf. cbn [option_map]. unfold vintageIn.
      rewrite Hw, (@rankOf_max _ _ Hle). reflexivity.
    - unfold hasWhenIssuedMember in Hw.
      apply existsb_exists in Hw as (x & Hx & Hwx).
      apply whenIssued_iff in Hwx as (fx & Hfx & Hlt).
      assert (fx <= f) by (apply Hle, group_firstIssue; eauto).
      apply whenIssued_iff. exists f. split; [exact Hf|].
      rewrite (@group_date _ _ _ Hr'), <- (@group_date _ _ _ Hx). lia. }
  split; [exact Hmem|]. split; [|split; [|split; [exact Hmax|]]].
  - intros f f' Hf Hf'. unfold vintageIn. split.
    + intros H. pose proof (@rankOf_lt _ _ _ Hf H). lia.
    + intros H. destruct (Z.lt_trichotomy f f') as [L|[E|L]];
        [|subst; lia|exact L].
      pose proof (@rankOf_lt _ _ _ Hf' L). lia.
  - intros Hw. split.
    + intros r' v Hr' Hrv. rewrite (Hmem r' Hr') in Hrv.
      destruct (firstIssue r') as [f|] eqn:Hf; [|discriminate].
      injection Hrv as <-. unfold vintageIn. rewrite Hw.
      assert (Hin : In (Some f) (firstIssueDates g))
        by (apply group_firstIssue; eauto).
      pose proof (rankOf_pos (firstIssueDates g) f).
      pose proof (@rankOf_le _ _ Hin). fold k in H0. lia.
    + intros i Hi.
      destruct (@rankOf_onto (firstIssueDates g) (i + 1)) as (y & Hy & Hry);
        [fold k; lia|].
      apply group_firstIssue in Hy as (r' & Hr' & Hf).
      exists r'. split; [exact Hr'|].
      rewrite (Hmem r' Hr'), Hf. cbn [option_map]. unfold vintageIn.
      rewrite Hw, Hry. f_equal. lia.
  - intros r' f Hr' Hw Hf Hall.
    assert (Hlt : Row.date r' < f).
    { apply whenIssued_iff in Hw as (f0 & Hf0 & Hlt). congruence. }
    refine (proj1 (Hmax _ r' f Hr' Hf _)).
    + unfold hasWhenIssuedMember. apply existsb_exists. exists r'. auto.
    + intros f' Hf'. apply group_firstIssue in Hf' as (x & Hx & Hfx).
      destruct (whenIssued x) eqn:Hwx.
      * rewrite (Hall x Hx Hwx) in Hfx. injection Hfx as <-. lia.
      * destruct (Z.le_gt_cases f' (Row.date x)) as [L|G].
        -- rewrite (@group_date _ _ _ Hx), <- (@group_date _ _ _ Hr') in L.
           lia.
        -- exfalso. assert (whenIssued x = true)
             by (apply whenIssued_iff; exists f'; split; [exact Hfx|lia]).
           congruence.
Qed.

Lemma vintage_is_dense_rank_witness :
  let panel := Sample.panel_of Sample.friday Sample.two_issued in
  let r := Sample.row_at 10 panel in
  _createCusipPanel Sample.friday Sample.two_issued = Ok panel /\
  In r panel /\
  Row.vintage r = option_map (vintageIn (group_of panel r)) (firstIssue r).
Proof.
  intros panel r.
  assert (Hok : _createCusipPanel Sample.friday Sample.two_issued = Ok panel)
    by (vm_compute; reflexivity).
  assert (Hr : In r panel)
    by (apply nth_In; vm_compute; lia).
  pose proof (@group_of_self panel r Hr) as Hg.
  destruct (@vintage_is_dense_rank Sample.friday Sample.two_issued panel r
              Hok Hr) as (Hm & _).
  split; [exact Hok|]. split; [exact Hr|]. exact (Hm r Hg).
Defined.

(** C2.  The code departs from the vintages it documents (when-issued
    securities have vintage -1, the on-the-run security has vintage 0):
    with two bills of one tenor announced and not yet issued, the one that
    settles first is when-issued and has vintage 0, and the bill issued
    last, in the same group on the same day, has vintage 1.  Only the bill
    that settles last has -1: the vintages of a group are lowered by one,
    however many first issue dates are still to come. *)
Lemma when_issued_member_not_minus_one :
  exists panel r r',
    _createCusipPanel Sample.friday Sample.two_pending_bills = Ok panel /\
    In r panel /\ In r' panel /\ same_group r r' = true /\
    whenIssued r = true /\ Row.vintage r = Some 0 /\
    whenIssued r' = false /\ Row.vintage r' = Some 1.
Proof.
  exists (Sample.panel_of Sample.friday Sample.two_pending_bills).
  exists (Sample.row_at 1
            (Sample.panel_of Sample.friday Sample.two_pending_bills)).
  exists (Sample.row_at 2
            (Sample.panel_of Sample.friday Sample.two_pending_bills)).
  split; [vm_compute; reflexivity|].
  split; [apply nth_In; vm_compute; lia|].
  split; [apply nth_In; vm_compute; lia|].
  repeat split; vm_compute; reflexivity.
Qed.

(** The rows of the panel for cusip [c] today, when [c] has pending records
    and none dated today, today being a business day of the span of [c]:
    one row for each pending record. *)
Lemma pending_rows (today : Z) (auctionsDf : list Auction.t)
  (dates : list (string * Z)) (c : string) :
  NoDup dates -> In (c, today) dates -> weekday today < 6 ->
  issuedToday today c (selected auctionsDf) = [] ->
  pending today c (selected auctionsDf) <> [] ->
  Linked.t Trace
    (map (fun a => slot c today (AuctionData.attrs (moveToToday today a)))
         (pending today c (selected auctionsDf)))
    (rowsAt c today (buildPanel today auctionsDf dates)).
Proof.
  intros Hnd Hin Hwd Hnone Hsome.
  pose proof (@panel_slot today auctionsDf dates c today Hnd Hin Hwd) as H.
  unfold joinSlot in H. cbn [fst snd] in H.
  unfold auctionData in H. fold (selected auctionsDf) in H.
  rewrite resolve_slot, Z.leb_refl, Z.eqb_refl in H.
  fold (issuedToday today c (selected auctionsDf)) in H.
  unfold synthesized in H. rewrite Hnone in H. cbn [app] in H.
  destruct (pending today c (selected auctionsDf)) as [|p ps] eqn:P;
    [contradiction|].
  cbn [map] in H |- *. rewrite map_map in H. exact H.
Qed.

(** C3 (amended).  After the future-dated branch, the join of the slot of
    cusip [c] on date [d] finds the records of [c] dated [d] when [d] is not
    after today, and on today also the synthesized records: none when [c]
    has a record dated today, otherwise one for each record of [c] dated
    after today, with date today, amount 0, and null issuanceType and
    unscheduledReopeningDate.  When today is a business day of the span of
    [c], the panel then holds one row of [c] today for each pending record,
    each with amountIssued 0 and a null issuanceType. *)
Theorem future_dated_resolution (w : World) (auctionsDf : list Auction.t)
  (panel : list Row.t) (c : string) :
  let today := date_today w in
  let aD := selected auctionsDf in
  (forall d,
     filter (matches c d) (auctionData today auctionsDf)
     = (if d <=? today then filter (matches c d) aD else [])
       ++ (if d =? today then synthesized today c aD else [])) /\
  (forall a, In a (synthesized today c aD) ->
     issuedToday today c aD = [] /\
     AuctionData.date a = Some today /\
     Attrs.amountIssued (AuctionData.attrs a) = Some 0 /\
     Attrs.issuanceType (AuctionData.attrs a) = None /\
     Attrs.unscheduledReopeningDate (AuctionData.attrs a) = None) /\
  (issuedToday today c aD = [] ->
     List.length (synthesized today c aD)
     = List.length (pending today c aD)) /\
  (issuedToday today c aD <> [] -> synthesized today c aD = []) /\
  (_createCusipPanel w auctionsDf = Ok panel ->
   In c (map Auction.cusip auctionsDf) ->
   inSpan today auctionsDf c today -> weekday today < 6 ->
   issuedToday today c aD = [] -> pending today c aD <> [] ->
   List.length (rowsAt c today panel) = List.length (pending today c aD) /\
   forall r, In r (rowsAt c today panel) ->
     Attrs.amountIssued (Row.attrs r) = Some 0 /\
     Attrs.issuanceType (Row.attrs r) = None).
Proof.
  intros today aD.
  split; [intros d; apply resolve_slot|].
  split. { intros a Ha. apply synthesized_In in Ha. tauto. }
  split. { intros H. unfold synthesized. rewrite H. apply length_map. }
  split.
  { intros H. unfold synthesized.
    destruct (issuedToday today c aD); [contradiction|reflexivity]. }
  intros Hok Hc Hspan Hwd Hnone Hsome.
  apply createCusipPanel_Ok in Hok as (dates & Hd & ->).
  apply completeDates_spec in Hd as (Hnd & Hdates).
  assert (Hin : In (c, today) dates) by (apply Hdates; auto).
  pose proof (@pending_rows today auctionsDf dates c Hnd Hin Hwd Hnone Hsome)
    as H.
  split.
  - etransitivity; [symmetry; exact (@length_eq _ _ _ _ _ H)|].
    apply length_map.
  - intros r Hr.
    destruct (@In_r _ _ _ _ _ r H Hr) as (j & Hj & Ht).
    apply in_map_iff in Hj as (p & <- & _).
    split.
    + assert (Hst : AmountStands
                      (slot c today
                         (AuctionData.attrs (moveToToday today p))))
        by (left; reflexivity).
      rewrite (@traced_amount _ r Hst Ht). reflexivity.
    + rewrite (@traced_issuanceType _ r Ht). reflexivity.
Qed.

Lemma future_dated_resolution_witness :
  let w := Sample.friday in
  let df := Sample.one_pending in
  let c := "912797LB"%string in
  _createCusipPanel w df = Ok (Sample.panel_of w df) /\
  In c (map Auction.cusip df) /\
  inSpan (date_today w) df c (date_today w) /\
  weekday (date_today w) < 6 /\
  issuedToday (date_today w) c (selected df) = [] /\
  pending (date_today w) c (selected df) <> [] /\
  List.length (rowsAt c (date_today w) (Sample.panel_of w df)) = 1%nat.
Proof.
  intros w df c.
  assert (Hok : _createCusipPanel w df = Ok (Sample.panel_of w df))
    by (vm_compute; reflexivity).
  assert (Hc : In c (map Auction.cusip df)) by (right; left; reflexivity).
  assert (Hspan : inSpan (date_today w) df c (date_today w))
    by (exists 19998, 20031;
        repeat split; vm_compute; (reflexivity || discriminate)).
  assert (Hwd : weekday (date_today w) < 6) by (vm_compute; reflexivity).
  assert (Hnone : issuedToday (date_today w) c (selected df) = [])
    by (vm_compute; reflexivity).
  assert (Hsome : pending (date_today w) c (selected df) <> [])
    by (vm_compute; discriminate).
  repeat (split; [assumption|]).
  destruct (@future_dated_resolution w df (Sample.panel_of w df) c)
    as (_ & _ & _ & _ & H).
  destruct (H Hok Hc Hspan Hwd Hnone Hsome) as (Hlen & _).
  rewrite Hlen. vm_compute. reflexivity.
Defined.

(** C3 as stated fails: a cusip with two records dated after today and none
    dated today gets two rows today, not exactly one. *)
Lemma two_rows_synthesized :
  exists panel c,
    _createCusipPanel Sample.friday Sample.two_pending_auctions = Ok panel /\
    issuedToday (date_today Sample.friday) c
      (selected Sample.two_pending_auctions) = [] /\
    pending (date_today Sample.friday) c
      (selected Sample.two_pending_auctions) <> [] /\
    List.length (rowsAt c (date_today Sample.friday) panel) = 2%nat.
Proof.
  exists (Sample.panel_of Sample.friday Sample.two_pending_auctions),
         "912797LB"%string.
  split; [vm_compute; reflexivity|].
  split; [vm_compute; reflexivity|].
  split; [vm_compute; discriminate|].
  vm_compute. reflexivity.
Qed.

(** The null [unscheduledReopeningDate] of a synthesized record does not
    reach the panel when an earlier record of the cusip has one: the forward
    fill writes that one into the row of today. *)
Example synthesized_row_takes_earlier_reopening_date :
  exists panel r,
    _createCusipPanel Sample.friday Sample.reopened_then_pending = Ok panel /\
    issuedToday (date_today Sample.friday) "912797LA"
      (selected Sample.reopened_then_pending) = [] /\
    pending (date_today Sample.friday) "912797LA"
      (selected Sample.reopened_then_pending) <> [] /\
    rowsAt "912797LA" (date_today Sample.friday) panel = [r] /\
    Attrs.amountIssued (Row.attrs r) = Some 0 /\
    Attrs.unscheduledReopeningDate (Row.attrs r) = Some 19996.
Proof.
  exists (Sample.panel_of Sample.friday Sample.reopened_then_pending).
  exists (Sample.row_at 0
            (Sample.panel_of Sample.friday Sample.reopened_then_pending)).
  split; [vm_compute; reflexivity|].
  split; [vm_compute; reflexivity|].
  split; [vm_compute; discriminate|].
  split; [vm_compute; reflexivity|].
  split; vm_compute; reflexivity.
Qed.

End PanelClaims.

(** * PanelBuilder: what the fills keep *)

Module CarryFacts.
Import PanelBuilder Panel Linked LinkedFacts PanelSteps Carry.

Lemma keeps_refl {A} (x : option A) : keeps x x.
Proof. intros v H. exact H. Qed.

Lemma keeps_trans {A} (x y z : option A) :
  keeps x y -> keeps y z -> keeps x z.
Proof. intros H1 H2 v H. apply H2, H1, H. Qed.

Lemma KeepsKnown_refl (a : Attrs.t) : KeepsKnown a a.
Proof. unfold KeepsKnown. repeat split; apply keeps_refl. Qed.

Lemma KeepsKnown_trans (a b c : Attrs.t) :
  KeepsKnown a b -> KeepsKnown b c -> KeepsKnown a c.
Proof.
  unfold KeepsKnown.
  intros (A1 & A2 & A3 & A4 & A5 & A6 & A7 & A8 & A9 & A10)
         (B1 & B2 & B3 & B4 & B5 & B6 & B7 & B8 & B9 & B10).
  repeat split; eapply keeps_trans; eassumption.
Qed.

Lemma FillKeeps_refl (a : Row.t) : FillKeeps a a.
Proof. split; [apply FillStep_refl|apply KeepsKnown_refl]. Qed.

Lemma FillKeeps_trans (a b c : Row.t) :
  FillKeeps a b -> FillKeeps b c -> FillKeeps a c.
Proof.
  intros (A1 & A2) (B1 & B2). split.
  - eapply FillStep_trans; eassumption.
  - eapply KeepsKnown_trans; eassumption.
Qed.

Ltac harmless :=
  intros [c d a t v] w; destruct a;
  unfold FillKeeps, FillStep, KeepsKnown, keeps; cbn;
  repeat split; auto; intros ? ->; reflexivity.

Lemma harmless_tenor : Harmless FillKeeps tenor.
Proof. harmless. Qed.
Lemma harmless_coupon : Harmless FillKeeps coupon.
Proof. harmless. Qed.
Lemma harmless_maturityDate : Harmless FillKeeps maturityDate.
Proof. harmless. Qed.
Lemma harmless_announcementDate : Harmless FillKeeps announcementDate.
Proof. harmless. Qed.
Lemma harmless_auctionDate : Harmless FillKeeps auctionDate.
Proof. harmless. Qed.
Lemma harmless_unscheduledReopeningDate :
  Harmless FillKeeps unscheduledReopeningDate.
Proof. harmless. Qed.
Lemma harmless_firstIssueDate : Harmless FillKeeps firstIssueDate.
Proof. harmless. Qed.
Lemma harmless_TIPS : Harmless FillKeeps TIPS.
Proof. harmless. Qed.
Lemma harmless_floatingRate : Harmless FillKeeps floatingRate.
Proof. harmless. Qed.
Lemma harmless_securityType : Harmless FillKeeps securityType.
Proof. harmless. Qed.

Section Fills.
Context (R : Row.t -> Row.t -> Prop).

Lemma forward_fill_from_harmless {A} (col : Column A)
  (last : string -> option A) (rows : list Row.t) :
  Harmless R col -> Forall2 R rows (forward_fill_from col last rows).
Proof.
  intros Hc. revert last.
  induction rows as [|r rows IH]; intros last; simpl; constructor;
    [apply Hc|apply IH].
Qed.

Lemma forward_fill_harmless {A} (col : Column A) (rows : list Row.t) :
  Harmless R col -> Forall2 R rows (forward_fill col rows).
Proof. apply forward_fill_from_harmless. Qed.

Lemma backward_fill_harmless {A} (col : Column A) (rows : list Row.t) :
  Harmless R col -> Forall2 R rows (backward_fill col rows).
Proof.
  intros Hc. unfold backward_fill.
  rewrite <- (rev_involutive rows) at 1.
  apply Forall2_rev, forward_fill_harmless, Hc.
Qed.

End Fills.

Ltac keeps_chain step :=
  repeat (eapply Forall2_trans;
          [exact FillKeeps_trans| |apply step; solve
             [ exact harmless_tenor | exact harmless_coupon
             | exact harmless_maturityDate | exact harmless_announcementDate
             | exact harmless_auctionDate
             | exact harmless_unscheduledReopeningDate
             | exact harmless_firstIssueDate | exact harmless_TIPS
             | exact harmless_floatingRate | exact harmless_securityType ]]).

Lemma forwardFillStatic_keeps (rows : list Row.t) :
  Forall2 FillKeeps rows (forwardFillStatic rows).
Proof.
  unfold forwardFillStatic. keeps_chain (@forward_fill_harmless FillKeeps).
  induction rows; constructor; auto using FillKeeps_refl.
Qed.

Lemma backwardFillStatic_keeps (rows : list Row.t) :
  Forall2 FillKeeps rows (backwardFillStatic rows).
Proof.
  unfold backwardFillStatic. keeps_chain (@backward_fill_harmless FillKeeps).
  induction rows; constructor; auto using FillKeeps_refl.
Qed.

Lemma Carried_Trace (j r : Row.t) : Carried j r -> Trace j r.
Proof. intros (a & (H & _) & Hs). exists a. auto. Qed.

(** The panel holds one row for each joined row on a business day, with
    every known cell of the joined row. *)
Lemma buildPanel_carried (today : Z) (auctionsDf : list Auction.t)
  (dates : list (string * Z)) :
  Linked.t Carried
    (filter isBusinessDay (leftJoin dates (auctionData today auctionsDf)))
    (buildPanel today auctionsDf dates).
Proof.
  unfold buildPanel, summedFrame, zeroedFrame.
  set (joined := leftJoin dates (auctionData today auctionsDf)).
  set (sorted := Order.sort by_cusip_date joined).
  set (filled := backwardFillStatic (forwardFillStatic sorted)).
  set (zeroed := map zeroAmountIssued filled).
  set (ordered := Order.sort by_cusip_desc_date zeroed).
  set (summed := cumulativeIssuance ordered).
  set (ranked := computeVintage summed).
  assert (H1 : Linked.t FillKeeps joined filled).
  { apply perm_l with (l := sorted).
    - symmetry. apply OrderFacts.sort_perm.
    - apply of_Forall2. eapply Forall2_trans; [exact FillKeeps_trans| |].
      + apply forwardFillStatic_keeps.
      + apply backwardFillStatic_keeps. }
  assert (H2 : Linked.t SameAttrs zeroed ranked).
  { apply perm_l with (l := ordered).
    - symmetry. apply OrderFacts.sort_perm.
    - apply of_Forall2. eapply Forall2_trans; [exact SameAttrs_trans| |].
      + apply cum_sum_from_step.
      + apply computeVintage_step. }
  assert (H3 : Linked.t Carried joined ranked).
  { assert (Hz : Linked.t (fun a z => z = zeroAmountIssued a) filled zeroed)
      by (apply of_map; reflexivity).
    pose proof (trans (trans H1 Hz) H2) as H.
    eapply weaken; [|exact H].
    intros j r (z & (a & Hja & ->) & Hzr). exists a. auto. }
  eapply perm_r.
  - apply filter_both; [|exact H3].
    intros j r H. apply Trace_businessDay, Carried_Trace, H.
  - symmetry. apply OrderFacts.sort_perm.
Qed.

(** The known cells of a joined row stand in its panel row. *)
Lemma Carried_known (j r : Row.t) :
  Carried j r -> KeepsKnown (Row.attrs j) (Row.attrs r).
Proof.
  intros (a & (_ & Hk) & (_ & _ & ->)).
  eapply KeepsKnown_trans; [exact Hk|].
  destruct a as [c d at0 t v]. destruct at0.
  unfold KeepsKnown, keeps. cbn. repeat split; auto.
Qed.

End CarryFacts.

(** * PanelBuilder: the fill of firstIssueDate *)

Module FirstIssueFacts.
Import PanelBuilder Panel Linked LinkedFacts PanelSteps Carry CarryFacts.

Lemma SameFirstIssue_refl (a : Row.t) : SameFirstIssue a a.
Proof. unfold SameFirstIssue. auto. Qed.

Lemma SameFirstIssue_trans (a b c : Row.t) :
  SameFirstIssue a b -> SameFirstIssue b c -> SameFirstIssue a c.
Proof.
  unfold SameFirstIssue. intros (A1 & A2 & A3) (B1 & B2 & B3).
  repeat split; congruence.
Qed.

Lemma Forall2_refl {A} (R : A -> A -> Prop) (l : list A) :
  (forall a, R a a) -> Forall2 R l l.
Proof. intros H. induction l; constructor; auto. Qed.

Ltac same_first_issue :=
  intros [c d a t v] w; destruct a; unfold SameFirstIssue, firstIssue; cbn;
  auto.

Lemma same_tenor : Harmless SameFirstIssue tenor.
Proof. same_first_issue. Qed.
Lemma same_coupon : Harmless SameFirstIssue coupon.
Proof. same_first_issue. Qed.
Lemma same_maturityDate : Harmless SameFirstIssue maturityDate.
Proof. same_first_issue. Qed.
Lemma same_announcementDate : Harmless SameFirstIssue announcementDate.
Proof. same_first_issue. Qed.
Lemma same_auctionDate : Harmless SameFirstIssue auctionDate.
Proof. same_first_issue. Qed.
Lemma same_unscheduledReopeningDate :
  Harmless SameFirstIssue unscheduledReopeningDate.
Proof. same_first_issue. Qed.
Lemma same_TIPS : Harmless SameFirstIssue TIPS.
Proof. same_first_issue. Qed.
Lemma same_floatingRate : Harmless SameFirstIssue floatingRate.
Proof. same_first_issue. Qed.
Lemma same_securityType : Harmless SameFirstIssue securityType.
Proof. same_first_issue. Qed.

Ltac same_chain :=
  repeat (eapply Forall2_trans;
          [exact SameFirstIssue_trans| |
           first [apply forward_fill_harmless|apply backward_fill_harmless];
           solve
             [ exact same_tenor | exact same_coupon
             | exact same_maturityDate | exact same_announcementDate
             | exact same_auctionDate
             | exact same_unscheduledReopeningDate
             | exact same_TIPS | exact same_floatingRate
             | exact same_securityType ]]);
  apply Forall2_refl, SameFirstIssue_refl.

(** The fills around the two fills of [firstIssueDate]. *)
Lemma fills_before (rows : list Row.t) :
  Forall2 SameFirstIssue rows
    (forward_fill unscheduledReopeningDate
    (forward_fill auctionDate
    (forward_fill announcementDate
    (forward_fill maturityDate
    (forward_fill coupon
    (forward_fill tenor rows)))))).
Proof. same_chain. Qed.

Lemma fills_between (rows : list Row.t) :
  Forall2 SameFirstIssue rows
    (backward_fill auctionDate
    (backward_fill announcementDate
    (backward_fill maturityDate
    (backward_fill coupon
    (backward_fill tenor
    (forward_fill securityType
    (forward_fill floatingRate
    (forward_fill TIPS rows)))))))).
Proof. same_chain. Qed.

Lemma fills_after (rows : list Row.t) :
  Forall2 SameFirstIssue rows
    (backward_fill securityType
    (backward_fill floatingRate
    (backward_fill TIPS rows))).
Proof. same_chain. Qed.

(** *** One pass over [firstIssueDate] *)

Lemma firstIssue_set (r : Row.t) (v : option Z) :
  firstIssue (Row.with_attrs (set firstIssueDate v) r) = v.
Proof. reflexivity. Qed.

Lemma filled_known (x : Row.t) (w : option Z) :
  firstIssue x <> None \/ w <> None ->
  Null.or_else (get firstIssueDate (Row.attrs x)) w <> None.
Proof.
  change (get firstIssueDate (Row.attrs x)) with (firstIssue x).
  destruct (firstIssue x); cbn; [discriminate|tauto].
Qed.

Lemma forward_fill_from_app {A} (col : Column A) (last : string -> option A)
  (l1 l2 : list Row.t) :
  exists last',
    forward_fill_from col last (l1 ++ l2)
    = forward_fill_from col last l1 ++ forward_fill_from col last' l2.
Proof.
  revert last. induction l1 as [|x l1 IH]; intros last.
  - exists last. reflexivity.
  - cbn [app forward_fill_from].
    destruct (IH (upd last (Row.cusip x)
                    (Null.or_else (get col (Row.attrs x))
                                  (last (Row.cusip x))))) as (last' & E).
    exists last'. rewrite E. reflexivity.
Qed.

(** Once the pass remembers a value for a cusip, every later row of the
    cusip gets one. *)
Lemma forward_fill_from_known (last : string -> option Z) (c : string)
  (l : list Row.t) :
  last c <> None -> AllKnown c (forward_fill_from firstIssueDate last l).
Proof.
  revert last. induction l as [|x l IH]; intros last Hl r Hr Hc.
  - destruct Hr.
  - cbn [forward_fill_from] in Hr. destruct Hr as [<-|Hr].
    + rewrite firstIssue_set. change (Row.cusip x = c) in Hc.
      apply filled_known. right. rewrite Hc. exact Hl.
    + refine (IH _ _ r Hr Hc). unfold upd.
      destruct (String.eqb_spec (Row.cusip x) c) as [E|E]; [|exact Hl].
      apply filled_known. right. rewrite E. exact Hl.
Qed.

Lemma forward_fill_from_head (last : string -> option Z) (x : Row.t)
  (l : list Row.t) :
  firstIssue x <> None ->
  exists x' rest,
    forward_fill_from firstIssueDate last (x :: l) = x' :: rest /\
    Row.cusip x' = Row.cusip x /\ firstIssue x' <> None /\
    AllKnown (Row.cusip x) rest.
Proof.
  intros Hk. cbn [forward_fill_from]. eexists _, _.
  split; [reflexivity|]. split; [reflexivity|]. split.
  - rewrite firstIssue_set. apply filled_known. left. exact Hk.
  - apply forward_fill_from_known. unfold upd. rewrite String.eqb_refl.
    apply filled_known. left. exact Hk.
Qed.

Lemma forward_fill_from_TailKnown (last : string -> option Z) (c : string)
  (l : list Row.t) :
  (exists x, In x l /\ Row.cusip x = c /\ firstIssue x <> None) ->
  TailKnown c (forward_fill_from firstIssueDate last l).
Proof.
  intros (x & Hx & Hc & Hk). apply in_split in Hx as (l1 & l2 & ->).
  destruct (forward_fill_from_app firstIssueDate last l1 (x :: l2))
    as (last' & E).
  rewrite E.
  destruct (@forward_fill_from_head last' x l2 Hk)
    as (x' & rest & E' & Hc' & Hk' & Hall).
  rewrite E'. exists (forward_fill_from firstIssueDate last l1), x', rest.
  split; [reflexivity|]. split; [congruence|]. split; [exact Hk'|].
  rewrite <- Hc. exact Hall.
Qed.

(** The pass keeps every value that is there. *)
Lemma forward_fill_from_monotone (last : string -> option Z)
  (l : list Row.t) :
  Forall2 (fun a b => Row.cusip b = Row.cusip a /\
                      (firstIssue a <> None -> firstIssue b = firstIssue a))
          l (forward_fill_from firstIssueDate last l).
Proof.
  revert last. induction l as [|x l IH]; intros last;
    cbn [forward_fill_from]; constructor; [|apply IH].
  split; [reflexivity|]. intros Hk. rewrite firstIssue_set.
  change (get firstIssueDate (Row.attrs x)) with (firstIssue x).
  destruct (firstIssue x); [reflexivity|congruence].
Qed.

Lemma forward_fill_from_AllKnown (last : string -> option Z) (c : string)
  (l : list Row.t) :
  AllKnown c l -> AllKnown c (forward_fill_from firstIssueDate last l).
Proof.
  intros Hall r Hr Hc.
  destruct (Forall2_In_r r (forward_fill_from_monotone last l) Hr)
    as (a & Ha & Hca & Hk).
  assert (Hka : firstIssue a <> None) by (apply (Hall a Ha); congruence).
  rewrite (Hk Hka). exact Hka.
Qed.

Lemma forward_fill_from_NoneKnown (last : string -> option Z) (c : string)
  (l : list Row.t) :
  last c = None -> NoneKnown c l ->
  NoneKnown c (forward_fill_from firstIssueDate last l).
Proof.
  revert last. induction l as [|x l IH]; intros last Hl Hn r Hr Hc.
  - destruct Hr.
  - assert (Hv : Row.cusip x = c ->
              Null.or_else (get firstIssueDate (Row.attrs x))
                           (last (Row.cusip x)) = None).
    { intros E.
      change (get firstIssueDate (Row.attrs x)) with (firstIssue x).
      rewrite (Hn x (or_introl eq_refl) E), E. exact Hl. }
    cbn [forward_fill_from] in Hr. destruct Hr as [<-|Hr].
    + rewrite firstIssue_set. apply Hv. exact Hc.
    + refine (IH _ _ _ r Hr Hc).
      * unfold upd.
        destruct (String.eqb_spec (Row.cusip x) c) as [E|E]; auto.
      * intros y Hy. apply Hn. right. exact Hy.
Qed.

Lemma forward_fill_from_Consistent (V : string -> option Z)
  (last : string -> option Z) (l : list Row.t) :
  (forall c, last c = None \/ last c = V c) ->
  Consistent V l ->
  Consistent V (forward_fill_from firstIssueDate last l).
Proof.
  revert last. induction l as [|x l IH]; intros last Hl Hcons r Hr.
  - destruct Hr.
  - assert (Hv : Null.or_else (get firstIssueDate (Row.attrs x))
                              (last (Row.cusip x)) = None \/
                 Null.or_else (get firstIssueDate (Row.attrs x))
                              (last (Row.cusip x)) = V (Row.cusip x)).
    { change (get firstIssueDate (Row.attrs x)) with (firstIssue x).
      destruct (Hcons x (or_introl eq_refl)) as [E|E].
      - rewrite E. apply Hl.
      - destruct (firstIssue x) eqn:F; [right; exact E|apply Hl]. }
    cbn [forward_fill_from] in Hr. destruct Hr as [<-|Hr].
    + rewrite firstIssue_set. exact Hv.
    + refine (IH _ _ _ r Hr).
      * intros c. unfold upd.
        destruct (String.eqb_spec (Row.cusip x) c) as [E|E];
          [rewrite <- E; exact Hv|apply Hl].
      * intros y Hy. apply Hcons. right. exact Hy.
Qed.

(** *** The backward pass *)

Lemma backward_fill_AllKnown (c : string) (m : list Row.t) :
  TailKnown c m -> AllKnown c (backward_fill firstIssueDate m).
Proof.
  intros (m1 & x & m2 & -> & Hc & Hk & Hall) r Hr Hcr.
  unfold backward_fill, forward_fill in Hr. apply in_rev in Hr.
  rewrite rev_app_distr in Hr. cbn [rev] in Hr.
  rewrite <- app_assoc in Hr. cbn [app] in Hr.
  destruct (forward_fill_from_app firstIssueDate (fun _ => None)
              (rev m2) (x :: rev m1)) as (last' & E).
  rewrite E in Hr. apply in_app_or in Hr as [Hr|Hr].
  - refine (@forward_fill_from_AllKnown _ c (rev m2) _ r Hr Hcr).
    intros y Hy. apply in_rev in Hy. apply Hall. exact Hy.
  - destruct (@forward_fill_from_head last' x (rev m1) Hk)
      as (x' & rest & E' & Hc' & Hk' & Hall').
    rewrite E' in Hr. destruct Hr as [<-|Hr]; [exact Hk'|].
    apply (Hall' r Hr). congruence.
Qed.

Lemma backward_fill_NoneKnown (c : string) (m : list Row.t) :
  NoneKnown c m -> NoneKnown c (backward_fill firstIssueDate m).
Proof.
  intros Hn r Hr. unfold backward_fill, forward_fill in Hr.
  apply in_rev in Hr. revert r Hr.
  apply forward_fill_from_NoneKnown; [reflexivity|].
  intros y Hy. apply in_rev in Hy. apply Hn. exact Hy.
Qed.

Lemma backward_fill_Consistent (V : string -> option Z) (m : list Row.t) :
  Consistent V m -> Consistent V (backward_fill firstIssueDate m).
Proof.
  intros Hcons r Hr. unfold backward_fill, forward_fill in Hr.
  apply in_rev in Hr. revert r Hr.
  apply forward_fill_from_Consistent; [left; reflexivity|].
  intros y Hy. apply in_rev in Hy. apply Hcons. exact Hy.
Qed.

(** *** Steps that leave [firstIssueDate] alone *)

Section Same.
Context (l l' : list Row.t) (H : Forall2 SameFirstIssue l l').

Lemma same_AllKnown (c : string) : AllKnown c l -> AllKnown c l'.
Proof.
  intros Hall r Hr Hc.
  destruct (Forall2_In_r r H Hr) as (a & Ha & Hca & _ & Hf).
  rewrite Hf. apply (Hall a Ha). congruence.
Qed.

Lemma same_NoneKnown (c : string) : NoneKnown c l -> NoneKnown c l'.
Proof.
  intros Hn r Hr Hc.
  destruct (Forall2_In_r r H Hr) as (a & Ha & Hca & _ & Hf).
  rewrite Hf. apply (Hn a Ha). congruence.
Qed.

Lemma same_Consistent (V : string -> option Z) :
  Consistent V l -> Consistent V l'.
Proof.
  intros Hcons r Hr.
  destruct (Forall2_In_r r H Hr) as (a & Ha & Hca & _ & Hf).
  rewrite Hf, Hca. apply Hcons. exact Ha.
Qed.

Lemma same_known (c : string) :
  (exists x, In x l /\ Row.cusip x = c /\ firstIssue x <> None) ->
  exists x, In x l' /\ Row.cusip x = c /\ firstIssue x <> None.
Proof.
  intros (x & Hx & Hc & Hk).
  destruct (Forall2_In_l x H Hx) as (b & Hb & Hcb & _ & Hf).
  exists b. split; [exact Hb|]. split; congruence.
Qed.

End Same.

Lemma same_TailKnown (l l' : list Row.t) (c : string) :
  Forall2 SameFirstIssue l l' -> TailKnown c l -> TailKnown c l'.
Proof.
  intros H (l1 & x & l2 & -> & Hc & Hk & Hall).
  apply Forall2_app_inv_l in H as (l1' & r' & H1 & H2 & ->).
  inversion H2 as [|x0 x' l0 l2' Hx H2' E1 E2]; subst.
  exists l1', x', l2'. destruct Hx as (Hcx & _ & Hf).
  split; [reflexivity|]. split; [congruence|]. split; [congruence|].
  exact (@same_AllKnown _ _ H2' _ Hall).
Qed.

Lemma known_or_none (c : string) (l : list Row.t) :
  (exists x, In x l /\ Row.cusip x = c /\ firstIssue x <> None) \/
  NoneKnown c l.
Proof.
  induction l as [|x l [(y & Hy & Hc & Hk)|IH]].
  - right. intros r [].
  - left. exists y. split; [right; exact Hy|auto].
  - destruct (String.eqb_spec (Row.cusip x) c) as [E|E].
    + destruct (firstIssue x) eqn:F.
      * left. exists x. split; [left; reflexivity|]. split; [exact E|].
        rewrite F. discriminate.
      * right. intros r [<-|Hr] Hc; [exact F|exact (IH r Hr Hc)].
    + right. intros r [<-|Hr] Hc; [contradiction|exact (IH r Hr Hc)].
Qed.

(** After the forward and the backward fills, the rows of a cusip all
    have the same [firstIssueDate]: the one value the join gave the cusip,
    or null when the join gave it none. *)
Lemma filled_firstIssue (V : string -> option Z) (rows : list Row.t) :
  Consistent V rows ->
  Consistent V (backwardFillStatic (forwardFillStatic rows)) /\
  forall c, AllKnown c (backwardFillStatic (forwardFillStatic rows)) \/
            NoneKnown c (backwardFillStatic (forwardFillStatic rows)).
Proof.
  intros Hcons. unfold backwardFillStatic, forwardFillStatic.
  pose proof (fills_before rows) as H1.
  remember (forward_fill unscheduledReopeningDate _) as l1 eqn:E1.
  clear E1.
  remember (forward_fill firstIssueDate l1) as m eqn:Em.
  pose proof (fills_between m) as H2.
  remember (backward_fill auctionDate _) as m' eqn:E2. clear E2.
  remember (backward_fill firstIssueDate m') as o eqn:Eo.
  pose proof (fills_after o) as H3.
  remember (backward_fill securityType _) as f eqn:E3. clear E3.
  split.
  - apply (@same_Consistent _ _ H3 V). rewrite Eo. apply backward_fill_Consistent.
    apply (@same_Consistent _ _ H2 V). rewrite Em.
    apply forward_fill_from_Consistent; [left; reflexivity|].
    apply (@same_Consistent _ _ H1 V). exact Hcons.
  - intros c. destruct (known_or_none c rows) as [Hk|Hn].
    + left. apply (@same_AllKnown _ _ H3 c). rewrite Eo.
      apply backward_fill_AllKnown. apply (@same_TailKnown _ _ c H2). rewrite Em.
      apply forward_fill_from_TailKnown. exact (@same_known _ _ H1 c Hk).
    + right. apply (@same_NoneKnown _ _ H3 c). rewrite Eo.
      apply backward_fill_NoneKnown. apply (@same_NoneKnown _ _ H2 c). rewrite Em.
      apply forward_fill_from_NoneKnown; [reflexivity|].
      exact (@same_NoneKnown _ _ H1 c Hn).
Qed.

End FirstIssueFacts.

(** * PanelBuilder: the running total *)

Module TotalFacts.
Import PanelBuilder Panel Linked LinkedFacts PanelSteps CalendarFacts.
Import JoinFacts OrderFacts SumFacts TraceFacts ConservationFacts FutureFacts.
Import Carry.

#[local] Arguments buildPanel : simpl never.
#[local] Arguments auctionData : simpl never.

Lemma Zsum_perm {A} (g : A -> Z) (l l' : list A) :
  Permutation l l' -> Zsum (map g l) = Zsum (map g l').
Proof. unfold Zsum. induction 1; simpl; lia. Qed.

(** The zeroed frame holds one row for each joined row. *)
Lemma zeroed_trace (today : Z) (auctionsDf : list Auction.t)
  (dates : list (string * Z)) :
  Linked.t Trace (leftJoin dates (auctionData today auctionsDf))
                 (zeroedFrame today auctionsDf dates).
Proof.
  unfold zeroedFrame.
  set (joined := leftJoin dates (auctionData today auctionsDf)).
  set (sorted := Order.sort by_cusip_date joined).
  set (filled := backwardFillStatic (forwardFillStatic sorted)).
  assert (H1 : Linked.t FillStep joined filled).
  { apply perm_l with (l := sorted).
    - symmetry. apply OrderFacts.sort_perm.
    - apply of_Forall2. eapply Forall2_trans; [exact FillStep_trans| |].
      + apply forwardFillStatic_step.
      + apply backwardFillStatic_step. }
  assert (Hz : Linked.t (fun a z => z = zeroAmountIssued a) filled
                        (map zeroAmountIssued filled))
    by (apply of_map; reflexivity).
  eapply weaken; [|exact (trans H1 Hz)].
  intros j z (a & Hja & ->). exists a. split; [exact Hja|].
  apply SameAttrs_refl.
Qed.

Lemma Trace_before_or_at (c : string) (d : Z) (j r : Row.t) :
  Trace j r -> before_or_at c d j = before_or_at c d r.
Proof.
  intros (a & (Hc & Hd & _) & (Hc' & Hd' & _)). unfold before_or_at.
  rewrite Hc', Hd'. cbn. rewrite Hc, Hd. reflexivity.
Qed.

(** The amounts of the zeroed frame, for a cusip up to a date, are those
    of the join. *)
Lemma zeroed_sum (today : Z) (auctionsDf : list Auction.t)
  (dates : list (string * Z)) (c : string) (d : Z) :
  Zsum (map amountOf
          (filter (before_or_at c d) (zeroedFrame today auctionsDf dates)))
  = Zsum (map amountOf
            (filter (before_or_at c d)
                    (leftJoin dates (auctionData today auctionsDf)))).
Proof.
  pose proof (strengthen_l AmountStands
                (@joined_AmountStands today auctionsDf dates)
                (@zeroed_trace today auctionsDf dates)) as L.
  assert (Hb : forall j r, Trace j r /\ AmountStands j ->
                 before_or_at c d j = before_or_at c d r)
    by (intros j r (Ht & _); exact (@Trace_before_or_at c d j r Ht)).
  pose proof (filter_both (before_or_at c d) (before_or_at c d) Hb L) as L2.
  assert (Ha : forall j r, Trace j r /\ AmountStands j ->
                 amountOf j = amountOf r).
  { intros j r (Ht & Hst). unfold amountOf.
    rewrite (@traced_amount j r Hst Ht). reflexivity. }
  symmetry. exact (sum_eq amountOf amountOf Ha L2).
Qed.

Lemma joinSlot_upTo (c : string) (d : Z) (aD : list AuctionData.t)
  (cd : string * Z) :
  filter (before_or_at c d) (joinSlot aD cd)
  = if upTo c d cd then joinSlot aD cd else [].
Proof.
  destruct (upTo c d cd) eqn:E; [apply filter_all|apply filter_none];
    intros r Hr; apply joinSlot_In in Hr as (Hc & Hd & _);
    unfold before_or_at; rewrite Hc, Hd; exact E.
Qed.

Lemma joined_sum_upTo (c : string) (d : Z) (dates : list (string * Z))
  (aD : list AuctionData.t) :
  Zsum (map amountOf (filter (before_or_at c d) (leftJoin dates aD)))
  = Zsum (map (fun cd => if upTo c d cd then slotSum aD cd else 0) dates).
Proof.
  induction dates as [|cd dates IH]; [reflexivity|].
  rewrite leftJoin_cons, filter_app, map_app, Zsum_app, IH.
  rewrite joinSlot_upTo. cbn [map]. unfold Zsum at 3. cbn [fold_right].
  fold (Zsum (map (fun cd0 => if upTo c d cd0 then slotSum aD cd0 else 0)
                  dates)).
  destruct (upTo c d cd); [rewrite joinSlot_sum|]; reflexivity.
Qed.

Section Slots.
Context (P : string * Z -> bool).

(** An auction falls in at most one slot of the calendar. *)
Lemma one_slot (a : AuctionData.t) (v : Z) (dates : list (string * Z)) :
  NoDup dates ->
  Zsum (map (fun cd => if P cd && matches (fst cd) (snd cd) a then v else 0)
            dates)
  = if existsb (fun cd => P cd && matches (fst cd) (snd cd) a) dates
    then v else 0.
Proof.
  induction 1 as [|cd dates Hcd Hnd IH]; [reflexivity|].
  cbn [map existsb]. unfold Zsum in *. cbn [fold_right]. rewrite IH.
  destruct (P cd && matches (fst cd) (snd cd) a) eqn:E; cbn [orb];
    [|reflexivity].
  destruct (existsb _ dates) eqn:Ex; [|lia].
  exfalso. apply existsb_exists in Ex as (cd' & Hin & E').
  apply andb_true_iff in E as (_ & E). apply andb_true_iff in E' as (_ & E').
  rewrite (@matches_unique cd cd' a E E') in Hcd. contradiction.
Qed.

(** The amounts summed slot by slot are the amounts summed auction by
    auction, over the auctions that fall in a slot that [P] takes. *)
Lemma sum_by_slot (dates : list (string * Z)) (aD : list AuctionData.t) :
  NoDup dates ->
  Zsum (map (fun cd => if P cd then slotSum aD cd else 0) dates)
  = Zsum (map joinedAmount
            (filter (fun a =>
                       existsb (fun cd => P cd &&
                                          matches (fst cd) (snd cd) a) dates)
                    aD)).
Proof.
  intros Hnd. induction aD as [|a aD IH].
  - cbn [filter map]. apply Zsum_zero. intros cd _.
    destruct (P cd); reflexivity.
  - transitivity
      (Zsum (map (fun cd =>
                    (if P cd && matches (fst cd) (snd cd) a
                     then joinedAmount a else 0)
                    + (if P cd then slotSum aD cd else 0)) dates)).
    + f_equal. apply map_ext. intros cd. unfold slotSum. cbn [filter].
      destruct (P cd), (matches (fst cd) (snd cd) a); cbn [andb map];
        unfold Zsum; cbn [fold_right]; lia.
    + rewrite Zsum_map_add, IH, (@one_slot a (joinedAmount a) dates Hnd).
      cbn [filter].
      destruct (existsb _ dates); cbn [map]; unfold Zsum; cbn [fold_right];
        lia.
Qed.

End Slots.

(** Falling in a slot of cusip [c] dated [d] or before is being dated on a
    day of the span of [c], [d] or before. *)
Lemma hit_upTo (today : Z) (auctionsDf : list Auction.t)
  (dates : list (string * Z)) (c : string) (d : Z) (a : AuctionData.t) :
  (forall c d, In (c, d) dates <->
               In c (map Auction.cusip auctionsDf) /\
               inSpan today auctionsDf c d) ->
  In a (auctionData today auctionsDf) ->
  existsb (fun cd => upTo c d cd && matches (fst cd) (snd cd) a) dates
  = onCalendarUpTo today auctionsDf c d a.
Proof.
  intros Hdates Ha. apply auctionData_cusip in Ha.
  apply eq_true_iff_eq. rewrite existsb_exists.
  unfold onCalendarUpTo, upTo, matches. split.
  - intros ([c' x] & Hin & H). cbn [fst snd] in H.
    rewrite !andb_true_iff, !String.eqb_eq, Z.leb_le in H.
    destruct H as ((-> & Hle) & Hc & Hd).
    destruct (AuctionData.date a) as [y|]; cbn in Hd; [|discriminate].
    destruct (y =? x) eqn:E; [|discriminate].
    apply Z.eqb_eq in E. subst y.
    rewrite Hc, String.eqb_refl. cbn [andb].
    apply andb_true_iff. split; [|apply Z.leb_le; exact Hle].
    apply inSpanb_iff. apply Hdates in Hin. tauto.
  - rewrite andb_true_iff, String.eqb_eq. intros (Hc & H).
    destruct (AuctionData.date a) as [x|]; [|discriminate].
    apply andb_true_iff in H as (Hsp & Hle).
    apply inSpanb_iff in Hsp.
    exists (c, x). split; [apply Hdates; split; [congruence|exact Hsp]|].
    cbn [fst snd]. rewrite Hc, String.eqb_refl, Hle. cbn.
    rewrite Z.eqb_refl. reflexivity.
Qed.

Lemma onCalendarUpTo_not_after (today : Z) (auctionsDf : list Auction.t)
  (c : string) (d : Z) (a : AuctionData.t) :
  onCalendarUpTo today auctionsDf c d a = true -> not_after today a = true.
Proof.
  unfold onCalendarUpTo, not_after. rewrite andb_true_iff. intros (_ & H).
  destruct (AuctionData.date a) as [x|]; [|discriminate].
  apply andb_true_iff in H as (H & _). apply inSpanb_iff in H.
  destruct H as (s & e & _ & _ & H). cbn.
  destruct (Z.leb_spec x today); [reflexivity|lia].
Qed.

Lemma select_sum_upTo (today : Z) (auctionsDf : list Auction.t) (c : string)
  (d : Z) (l : list Auction.t) :
  Zsum (map joinedAmount
          (filter (onCalendarUpTo today auctionsDf c d)
                  (map (select auctionsDf) l)))
  = Zsum (map accepted
            (filter (fun r => has_cusip c r &&
                              issuedUpTo today auctionsDf d r) l)).
Proof.
  induction l as [|r l IH]; [reflexivity|].
  cbn [map filter].
  assert (E : onCalendarUpTo today auctionsDf c d (select auctionsDf r)
              = has_cusip c r && issuedUpTo today auctionsDf d r).
  { unfold onCalendarUpTo, has_cusip, issuedUpTo. cbn.
    destruct (String.eqb_spec (Auction.cusip r) c) as [->|]; reflexivity. }
  rewrite E. destruct (has_cusip c r && _); [|exact IH].
  cbn [map]. unfold Zsum in *. cbn [fold_right]. rewrite IH. reflexivity.
Qed.

(** The amounts that enter the join up to a date are those of the records
    issued by then: a record moved to today brings a zero amount. *)
Lemma auctionData_sum_upTo (today : Z) (auctionsDf : list Auction.t)
  (c : string) (d : Z) :
  Zsum (map joinedAmount
          (filter (onCalendarUpTo today auctionsDf c d)
                  (auctionData today auctionsDf)))
  = acceptedUpTo today c d auctionsDf.
Proof.
  unfold acceptedUpTo. rewrite <- select_sum_upTo. unfold auctionData.
  set (aD := map (select auctionsDf) auctionsDf).
  destruct (resolveFutureDated_cases today aD) as [(_ & ->)| ->];
    [reflexivity|].
  rewrite filter_app, map_app, Zsum_app.
  rewrite (@filter_implied _ (onCalendarUpTo today auctionsDf c d)
             (not_after today) aD)
    by (intros x _; apply onCalendarUpTo_not_after).
  match goal with
  | |- _ + Zsum (map joinedAmount ?l) = _ =>
      rewrite (@Zsum_zero _ joinedAmount l); [lia|]
  end.
  intros x Hx. apply filter_In in Hx as (Hx & _).
  apply in_map_iff in Hx as (y & <- & _). reflexivity.
Qed.

(** The amounts of the joined frame for cusip [c] up to date [d]. *)
Lemma joined_upTo (today : Z) (auctionsDf : list Auction.t)
  (dates : list (string * Z)) (c : string) (d : Z) :
  NoDup dates ->
  (forall c d, In (c, d) dates <->
               In c (map Auction.cusip auctionsDf) /\
               inSpan today auctionsDf c d) ->
  Zsum (map amountOf
          (filter (before_or_at c d)
                  (leftJoin dates (auctionData today auctionsDf))))
  = acceptedUpTo today c d auctionsDf.
Proof.
  intros Hnd Hdates.
  rewrite joined_sum_upTo,
    (@sum_by_slot (upTo c d) dates (auctionData today auctionsDf) Hnd).
  rewrite <- auctionData_sum_upTo. f_equal. f_equal.
  apply filter_ext_in. intros a Ha.
  exact (@hit_upTo today auctionsDf dates c d a Hdates Ha).
Qed.

(** *** The scan *)

(** In a frame in the order of the scan, the total of the one row of cusip
    [c] dated [d] counts the amounts of the rows of [c] dated [d] or
    before. *)
Lemma cum_sum_from_prefix (c : string) (d : Z) (rows : list Row.t) :
  StronglySorted dateOrdered rows ->
  (forall x, In x rows -> Attrs.amountIssued (Row.attrs x) <> None) ->
  List.length (filter (at_slot c d) rows) = 1%nat ->
  forall acc s, In s (cum_sum_from acc rows) ->
    Row.cusip s = c -> Row.date s = d ->
    Row.totalIssued s
    = Some (acc c + Zsum (map amountOf (filter (before_or_at c d) rows))).
Proof.
  induction 1 as [|r0 rows Hs IH H0]; intros Hamt Hone acc s Hin Hc Hd;
    [destruct Hin|].
  assert (Hamt' : forall x, In x rows ->
                    Attrs.amountIssued (Row.attrs x) <> None)
    by (intros x Hx; apply Hamt; right; exact Hx).
  rewrite Forall_forall in H0.
  assert (Hpre : forall acc', In s (cum_sum_from acc' rows) ->
            exists x, In x rows /\ Row.cusip x = c /\ Row.date x = d).
  { intros acc' Hs'. destruct (cum_sum_from_In _ _ _ Hs')
      as (x & Hx & Hcx & Hdx & _).
    exists x. split; [exact Hx|]. split; congruence. }
  cbn [cum_sum_from] in Hin. cbn [filter] in Hone |- *.
  destruct (Attrs.amountIssued (Row.attrs r0)) as [a0|] eqn:E;
    [|destruct (Hamt r0 (or_introl eq_refl) E)].
  assert (Ea : amountOf r0 = a0) by (unfold amountOf; rewrite E; reflexivity).
  destruct (at_slot c d r0) eqn:Eslot.
  - (* the row of the slot comes first *)
    apply at_slot_iff in Eslot as (Hc0 & Hd0).
    assert (Hnone : forall x, In x rows -> at_slot c d x = false).
    { intros x Hx. destruct (at_slot c d x) eqn:Ex; [|reflexivity].
      exfalso. cbn [List.length] in Hone. injection Hone as Hone.
      apply length_zero_iff_nil in Hone.
      assert (Hf : In x (filter (at_slot c d) rows))
        by (apply filter_In; auto).
      rewrite Hone in Hf. destruct Hf. }
    destruct Hin as [<-|Hin].
    + unfold before_or_at at 1. rewrite Hc0, Hd0, String.eqb_refl, Z.leb_refl.
      cbn [andb map]. rewrite filter_none.
      * cbn. unfold Zsum. cbn. f_equal. lia.
      * intros x Hx. unfold before_or_at.
        destruct (String.eqb_spec (Row.cusip x) c) as [Hcx|]; [|reflexivity].
        cbn [andb]. apply Z.leb_gt.
        assert (Hle : Row.date r0 <= Row.date x)
          by (apply (H0 x Hx); congruence).
        assert (Hne : Row.date x <> d).
        { intros Hdx. pose proof (Hnone x Hx) as Hf.
          unfold at_slot in Hf.
          rewrite Hcx, Hdx, String.eqb_refl, Z.eqb_refl in Hf.
          discriminate. }
        lia.
    + exfalso. destruct (Hpre _ Hin) as (x & Hx & Hcx & Hdx).
      pose proof (Hnone x Hx) as Hf. unfold at_slot in Hf.
      rewrite Hcx, Hdx, String.eqb_refl, Z.eqb_refl in Hf. discriminate.
  - (* the row of the slot comes later *)
    destruct Hin as [<-|Hin].
    + exfalso. change (Row.cusip r0 = c) in Hc. change (Row.date r0 = d) in Hd.
      unfold at_slot in Eslot.
      rewrite Hc, Hd, String.eqb_refl, Z.eqb_refl in Eslot. discriminate.
    + rewrite (IH Hamt' Hone _ s Hin Hc Hd).
      destruct (Hpre _ Hin) as (x & Hx & Hcx & Hdx).
      unfold upd, before_or_at at 2.
      destruct (String.eqb_spec (Row.cusip r0) c) as [Hc0|Hc0];
        cbn [andb]; [|reflexivity].
      assert (Hle : Row.date r0 <= d)
        by (rewrite <- Hdx; apply (H0 x Hx); congruence).
      destruct (Z.leb_spec (Row.date r0) d); [|lia].
      cbn [map]. unfold Zsum. cbn [fold_right]. rewrite Ea, Hc0.
      f_equal. lia.
Qed.

(** The slot of a business day has as many rows in the zeroed frame as in
    the panel. *)
Lemma slot_rows (today : Z) (auctionsDf : list Auction.t)
  (dates : list (string * Z)) (c : string) (d : Z) :
  weekday d < 6 ->
  List.length (filter (at_slot c d) (zeroedFrame today auctionsDf dates))
  = List.length (rowsAt c d (buildPanel today auctionsDf dates)).
Proof.
  intros Hwd.
  pose proof (filter_both (at_slot c d) (at_slot c d) (@Trace_slot c d)
                (@zeroed_trace today auctionsDf dates)) as L1.
  pose proof (filter_both (at_slot c d) (at_slot c d) (@Trace_slot c d)
                (@buildPanel_trace today auctionsDf dates)) as L2.
  rewrite <- (length_eq L1). unfold rowsAt. rewrite <- (length_eq L2).
  f_equal. symmetry. apply filter_implied.
  intros x _ Hx. apply at_slot_iff in Hx as (_ & Hx).
  unfold isBusinessDay. rewrite Hx. apply Z.ltb_lt. exact Hwd.
Qed.

End TotalFacts.

(** * PanelBuilder: no gaps in the filled columns *)

Module GapFacts.
Import PanelBuilder Panel Linked LinkedFacts PanelSteps Carry CarryFacts.
Import FirstIssueFacts.

Section OneColumn.
Context {A : Type} (col : Column A) (Hlens : Lens col).

Lemma cell_filled (r : Row.t) (v : option A) :
  get col (Row.attrs (Row.with_attrs (set col v) r)) = v.
Proof. apply Hlens. Qed.

Lemma or_else_known (x w : option A) :
  x <> None \/ w <> None -> Null.or_else x w <> None.
Proof. destruct x; cbn; [discriminate|tauto]. Qed.

(** Once the pass remembers a value for a cusip, every later row of the
    cusip gets one. *)
Lemma pass_known (last : string -> option A) (c : string) (l : list Row.t) :
  last c <> None -> EveryKnown col c (forward_fill_from col last l).
Proof.
  revert last. induction l as [|x l IH]; intros last Hl r Hr Hc.
  - destruct Hr.
  - cbn [forward_fill_from] in Hr. destruct Hr as [<-|Hr].
    + unfold known. rewrite cell_filled. change (Row.cusip x = c) in Hc.
      apply or_else_known. right. rewrite Hc. exact Hl.
    + refine (IH _ _ r Hr Hc). unfold upd.
      destruct (String.eqb_spec (Row.cusip x) c) as [E|E]; [|exact Hl].
      apply or_else_known. right. rewrite E. exact Hl.
Qed.

Lemma pass_head (last : string -> option A) (x : Row.t) (l : list Row.t) :
  known col x ->
  exists x' rest,
    forward_fill_from col last (x :: l) = x' :: rest /\
    Row.cusip x' = Row.cusip x /\ known col x' /\
    EveryKnown col (Row.cusip x) rest.
Proof.
  intros Hk. cbn [forward_fill_from]. eexists _, _.
  split; [reflexivity|]. split; [reflexivity|]. split.
  - unfold known. rewrite cell_filled. apply or_else_known. left. exact Hk.
  - apply pass_known. unfold upd. rewrite String.eqb_refl.
    apply or_else_known. left. exact Hk.
Qed.

Lemma pass_KnownFrom (last : string -> option A) (c : string)
  (l : list Row.t) :
  SomeKnown col c l -> KnownFrom col c (forward_fill_from col last l).
Proof.
  intros (x & Hx & Hc & Hk). apply in_split in Hx as (l1 & l2 & ->).
  destruct (forward_fill_from_app col last l1 (x :: l2)) as (last' & E).
  rewrite E.
  destruct (@pass_head last' x l2 Hk) as (x' & rest & E' & Hc' & Hk' & Hall).
  rewrite E'. exists (forward_fill_from col last l1), x', rest.
  split; [reflexivity|]. split; [congruence|]. split; [exact Hk'|].
  rewrite <- Hc. exact Hall.
Qed.

(** The pass keeps every value that is there. *)
Lemma pass_keeps (last : string -> option A) (l : list Row.t) :
  Forall2 (fun a b => Row.cusip b = Row.cusip a /\
                      (known col a -> known col b))
          l (forward_fill_from col last l).
Proof.
  revert last. induction l as [|x l IH]; intros last;
    cbn [forward_fill_from]; constructor; [|apply IH].
  split; [reflexivity|]. intros Hk. unfold known. rewrite cell_filled.
  apply or_else_known. left. exact Hk.
Qed.

Lemma pass_EveryKnown (last : string -> option A) (c : string)
  (l : list Row.t) :
  EveryKnown col c l -> EveryKnown col c (forward_fill_from col last l).
Proof.
  intros Hall r Hr Hc.
  destruct (Forall2_In_r r (pass_keeps last l) Hr) as (a & Ha & Hca & Hk).
  apply Hk. apply (Hall a Ha). congruence.
Qed.

Lemma pass_NoKnown (last : string -> option A) (c : string)
  (l : list Row.t) :
  last c = None -> NoKnown col c l ->
  NoKnown col c (forward_fill_from col last l).
Proof.
  revert last. induction l as [|x l IH]; intros last Hl Hn r Hr Hc.
  - destruct Hr.
  - assert (Hv : Row.cusip x = c ->
              Null.or_else (get col (Row.attrs x)) (last (Row.cusip x))
              = None).
    { intros E. rewrite (Hn x (or_introl eq_refl) E), E. exact Hl. }
    cbn [forward_fill_from] in Hr. destruct Hr as [<-|Hr].
    + rewrite cell_filled. apply Hv. exact Hc.
    + refine (IH _ _ _ r Hr Hc).
      * unfold upd.
        destruct (String.eqb_spec (Row.cusip x) c) as [E|E]; auto.
      * intros y Hy. apply Hn. right. exact Hy.
Qed.

(** The two fills of the column itself. *)
Lemma forward_own_KnownFrom (c : string) (l : list Row.t) :
  SomeKnown col c l -> KnownFrom col c (forward_fill col l).
Proof. apply pass_KnownFrom. Qed.

Lemma forward_own_NoKnown (c : string) (l : list Row.t) :
  NoKnown col c l -> NoKnown col c (forward_fill col l).
Proof. apply pass_NoKnown. reflexivity. Qed.

Lemma backward_own_EveryKnown (c : string) (m : list Row.t) :
  KnownFrom col c m -> EveryKnown col c (backward_fill col m).
Proof.
  intros (m1 & x & m2 & -> & Hc & Hk & Hall) r Hr Hcr.
  unfold backward_fill, forward_fill in Hr. apply in_rev in Hr.
  rewrite rev_app_distr in Hr. cbn [rev] in Hr.
  rewrite <- app_assoc in Hr. cbn [app] in Hr.
  destruct (forward_fill_from_app col (fun _ => None)
              (rev m2) (x :: rev m1)) as (last' & E).
  rewrite E in Hr. apply in_app_or in Hr as [Hr|Hr].
  - refine (@pass_EveryKnown _ c (rev m2) _ r Hr Hcr).
    intros y Hy. apply in_rev in Hy. apply Hall. exact Hy.
  - destruct (@pass_head last' x (rev m1) Hk)
      as (x' & rest & E' & Hc' & Hk' & Hall').
    rewrite E' in Hr. destruct Hr as [<-|Hr]; [exact Hk'|].
    apply (Hall' r Hr). congruence.
Qed.

Lemma backward_own_NoKnown (c : string) (m : list Row.t) :
  NoKnown col c m -> NoKnown col c (backward_fill col m).
Proof.
  intros Hn r Hr. unfold backward_fill, forward_fill in Hr.
  apply in_rev in Hr. revert r Hr.
  apply pass_NoKnown; [reflexivity|].
  intros y Hy. apply in_rev in Hy. apply Hn. exact Hy.
Qed.

(** A step that leaves the column alone. *)
Section Alone.
Context (l l' : list Row.t) (H : Forall2 (SameCell col) l l').

Lemma alone_EveryKnown (c : string) :
  EveryKnown col c l -> EveryKnown col c l'.
Proof.
  intros Hall r Hr Hc.
  destruct (Forall2_In_r r H Hr) as (a & Ha & Hca & Hf).
  unfold known. rewrite Hf. apply (Hall a Ha). congruence.
Qed.

Lemma alone_NoKnown (c : string) : NoKnown col c l -> NoKnown col c l'.
Proof.
  intros Hn r Hr Hc.
  destruct (Forall2_In_r r H Hr) as (a & Ha & Hca & Hf).
  rewrite Hf. apply (Hn a Ha). congruence.
Qed.

Lemma alone_SomeKnown (c : string) : SomeKnown col c l -> SomeKnown col c l'.
Proof.
  intros (x & Hx & Hc & Hk).
  destruct (Forall2_In_l x H Hx) as (b & Hb & Hcb & Hf).
  exists b. split; [exact Hb|]. split; [congruence|].
  unfold known. rewrite Hf. exact Hk.
Qed.

End Alone.

Lemma alone_KnownFrom (l l' : list Row.t) (c : string) :
  Forall2 (SameCell col) l l' -> KnownFrom col c l -> KnownFrom col c l'.
Proof.
  intros H (l1 & x & l2 & -> & Hc & Hk & Hall).
  apply Forall2_app_inv_l in H as (l1' & r' & H1 & H2 & ->).
  inversion H2 as [|x0 x' l0 l2' Hx H2' E1 E2]; subst.
  exists l1', x', l2'. destruct Hx as (Hcx & Hf).
  split; [reflexivity|]. split; [congruence|].
  split; [unfold known; rewrite Hf; exact Hk|].
  exact (@alone_EveryKnown l2 l2' H2' _ Hall).
Qed.

Lemma some_or_none (c : string) (l : list Row.t) :
  SomeKnown col c l \/ NoKnown col c l.
Proof.
  induction l as [|x l [(y & Hy & Hc & Hk)|IH]].
  - right. intros r [].
  - left. exists y. split; [right; exact Hy|auto].
  - destruct (String.eqb_spec (Row.cusip x) c) as [E|E].
    + destruct (get col (Row.attrs x)) eqn:F.
      * left. exists x. split; [left; reflexivity|]. split; [exact E|].
        unfold known. rewrite F. discriminate.
      * right. intros r [<-|Hr] Hc; [exact F|exact (IH r Hr Hc)].
    + right. intros r [<-|Hr] Hc; [contradiction|exact (IH r Hr Hc)].
Qed.

End OneColumn.

(** One step up the chain of fills, for a goal about column [col]: the
    fill of [col] itself, or that of another column, which leaves [col]
    alone. *)
Ltac lens := intros v a; destruct a; reflexivity.

Ltac alone :=
  first [apply forward_fill_harmless|apply backward_fill_harmless];
  let r := fresh "r" in
  let w := fresh "w" in
  intros r w; destruct r;
  match goal with a : Attrs.t |- _ => destruct a end;
  unfold SameCell; cbn; auto.

Ltac climb :=
  repeat
    match goal with
    | |- EveryKnown ?col _ (backward_fill ?col _) =>
        apply backward_own_EveryKnown; [lens|]
    | |- KnownFrom ?col _ (forward_fill ?col _) =>
        apply forward_own_KnownFrom; [lens|]
    | |- NoKnown ?col _ (backward_fill ?col _) =>
        apply backward_own_NoKnown; [lens|]
    | |- NoKnown ?col _ (forward_fill ?col _) =>
        apply forward_own_NoKnown; [lens|]
    | |- EveryKnown ?col ?c (_ _ ?l) =>
        refine (@alone_EveryKnown _ col l _ _ c _); [alone|]
    | |- KnownFrom ?col ?c (_ _ ?l) =>
        refine (@alone_KnownFrom _ col l _ c _ _); [alone|]
    | |- SomeKnown ?col ?c (_ _ ?l) =>
        refine (@alone_SomeKnown _ col l _ _ c _); [alone|]
    | |- NoKnown ?col ?c (_ _ ?l) =>
        refine (@alone_NoKnown _ col l _ _ c _); [alone|]
    end.

Ltac no_gaps :=
  intros rows c; unfold backwardFillStatic, forwardFillStatic;
  match goal with
  | |- EveryKnown ?col _ _ \/ _ =>
      destruct (some_or_none col c rows) as [H|H];
      [left|right]; climb; exact H
  end.

(** After the fills, a column filled both ways is known in every row of a
    cusip or in none. *)
Lemma filled_tenor : forall rows c,
  EveryKnown tenor c (backwardFillStatic (forwardFillStatic rows)) \/
  NoKnown tenor c (backwardFillStatic (forwardFillStatic rows)).
Proof. no_gaps. Qed.

Lemma filled_coupon : forall rows c,
  EveryKnown coupon c (backwardFillStatic (forwardFillStatic rows)) \/
  NoKnown coupon c (backwardFillStatic (forwardFillStatic rows)).
Proof. no_gaps. Qed.

Lemma filled_maturityDate : forall rows c,
  EveryKnown maturityDate c (backwardFillStatic (forwardFillStatic rows)) \/
  NoKnown maturityDate c (backwardFillStatic (forwardFillStatic rows)).
Proof. no_gaps. Qed.

Lemma filled_announcementDate : forall rows c,
  EveryKnown announcementDate c (backwardFillStatic (forwardFillStatic rows)) \/
  NoKnown announcementDate c (backwardFillStatic (forwardFillStatic rows)).
Proof. no_gaps. Qed.

Lemma filled_auctionDate : forall rows c,
  EveryKnown auctionDate c (backwardFillStatic (forwardFillStatic rows)) \/
  NoKnown auctionDate c (backwardFillStatic (forwardFillStatic rows)).
Proof. no_gaps. Qed.

Lemma filled_firstIssueDate : forall rows c,
  EveryKnown firstIssueDate c (backwardFillStatic (forwardFillStatic rows)) \/
  NoKnown firstIssueDate c (backwardFillStatic (forwardFillStatic rows)).
Proof. no_gaps. Qed.

Lemma filled_TIPS : forall rows c,
  EveryKnown TIPS c (backwardFillStatic (forwardFillStatic rows)) \/
  NoKnown TIPS c (backwardFillStatic (forwardFillStatic rows)).
Proof. no_gaps. Qed.

Lemma filled_floatingRate : forall rows c,
  EveryKnown floatingRate c (backwardFillStatic (forwardFillStatic rows)) \/
  NoKnown floatingRate c (backwardFillStatic (forwardFillStatic rows)).
Proof. no_gaps. Qed.

Lemma filled_securityType : forall rows c,
  EveryKnown securityType c (backwardFillStatic (forwardFillStatic rows)) \/
  NoKnown securityType c (backwardFillStatic (forwardFillStatic rows)).
Proof. no_gaps. Qed.

(** A cell known in one row of a cusip is then known in every row of the
    cusip. *)
Lemma no_gap {A} (col : Column A) (filled : list Row.t) (a1 a2 : Row.t) :
  (forall c, EveryKnown col c filled \/ NoKnown col c filled) ->
  In a1 filled -> In a2 filled -> Row.cusip a1 = Row.cusip a2 ->
  known col a1 -> known col a2.
Proof.
  intros Hf H1 H2 Hc Hk. destruct (Hf (Row.cusip a1)) as [Hall|Hnone].
  - apply (Hall a2 H2). congruence.
  - destruct (Hk (Hnone a1 H1 eq_refl)).
Qed.

End GapFacts.

(** * PanelBuilder: a column filled forward only *)

Module ForwardFacts.
Import PanelBuilder Panel Linked LinkedFacts PanelSteps Carry CarryFacts.
Import OrderFacts SumFacts FirstIssueFacts GapFacts.

Lemma Lawful_by_cusip_date : Order.Lawful by_cusip_date.
Proof.
  unfold by_cusip_date.
  apply Lawful_lex; apply Lawful_on; [apply Lawful_string|apply Lawful_Z].
Qed.

Lemma le_by_cusip_date (a b : Row.t) :
  Order.le by_cusip_date a b -> dateOrdered a b.
Proof.
  unfold Order.le, by_cusip_date, Order.lex, Order.on, dateOrdered.
  intros H Hc. rewrite Hc, (cmp_refl String_as_OT.compare) in H.
  unfold Z.le. destruct (Row.date a ?= Row.date b); congruence.
Qed.

Lemma sorted_by_cusip_date (rows : list Row.t) :
  StronglySorted dateOrdered (Order.sort by_cusip_date rows).
Proof.
  eapply StronglySorted_weaken; [exact le_by_cusip_date|].
  apply (@sort_sorted _ by_cusip_date Lawful_by_cusip_date).
Qed.

(** Sorted lists, row by row. *)
Lemma StronglySorted_Forall2 {A} (S R R' : A -> A -> Prop) (l l' : list A) :
  (forall a b a' b', S a a' -> S b b' -> R a b -> R' a' b') ->
  Forall2 S l l' -> StronglySorted R l -> StronglySorted R' l'.
Proof.
  intros H HF. induction HF as [|x y l l' Hxy HF IH]; intros Hs;
    [constructor|].
  apply StronglySorted_inv in Hs as (Hs & Hx). constructor; [auto|].
  apply Forall_forall. intros b' Hb'.
  destruct (Forall2_In_r b' HF Hb') as (b & Hb & Hbb).
  rewrite Forall_forall in Hx. eauto.
Qed.

Lemma StronglySorted_both {A} (P Q : A -> A -> Prop) (l : list A) :
  StronglySorted P l -> StronglySorted Q l ->
  StronglySorted (fun a b => P a b /\ Q a b) l.
Proof.
  induction 1 as [|x l Hs IH Hx]; intros HQ; [constructor|].
  apply StronglySorted_inv in HQ as (HQ & Hy). constructor; [auto|].
  rewrite Forall_forall in *. auto.
Qed.

Lemma StronglySorted_pair {A} (R : A -> A -> Prop) (l : list A) (a b : A) :
  StronglySorted R l -> In a l -> In b l -> a = b \/ R a b \/ R b a.
Proof.
  induction 1 as [|x l Hs IH Hx]; [intros []|].
  rewrite Forall_forall in Hx. intros [<-|Ha] [<-|Hb]; auto.
Qed.

Lemma SameSlotCell_refl {A} (col : Column A) (a : Row.t) :
  SameSlotCell col a a.
Proof. unfold SameSlotCell. auto. Qed.

Lemma SameSlotCell_trans {A} (col : Column A) (a b c : Row.t) :
  SameSlotCell col a b -> SameSlotCell col b c -> SameSlotCell col a c.
Proof.
  unfold SameSlotCell. intros (H1 & H2 & H3) (H4 & H5 & H6).
  repeat split; congruence.
Qed.

Lemma SameSlotCell_dateOrdered {A} (col : Column A) (l l' : list Row.t) :
  Forall2 (SameSlotCell col) l l' ->
  StronglySorted dateOrdered l -> StronglySorted dateOrdered l'.
Proof.
  apply StronglySorted_Forall2.
  intros a b a' b' (Hca & Hda & _) (Hcb & Hdb & _) H Hc.
  rewrite Hda, Hdb. apply H. congruence.
Qed.

Section OneColumn.
Context {A : Type} (col : Column A) (Hlens : Lens col).

(** What the pass writes in a row is the cell of the row, or the cell it
    remembers for the cusip, which it read in a row above. *)
Lemma pass_source (src : list Row.t) (last : string -> option A)
  (l : list Row.t) :
  StronglySorted dateOrdered l ->
  (forall y, In y l -> In y src) ->
  (forall c v, last c = Some v ->
     exists x, In x src /\ Row.cusip x = c /\
               get col (Row.attrs x) = Some v /\
               forall y, In y l -> Row.cusip y = c ->
                         Row.date x <= Row.date y) ->
  forall r, In r (forward_fill_from col last l) -> FromEarlier col src r.
Proof.
  revert last. induction l as [|x l IH]; intros last Hs Hsub Hlast r Hr;
    [destruct Hr|].
  apply StronglySorted_inv in Hs as (Hs & Hx). rewrite Forall_forall in Hx.
  cbn [forward_fill_from] in Hr. destruct Hr as [<-|Hr].
  - intros v. rewrite (@cell_filled _ col Hlens).
    change (Row.cusip (Row.with_attrs _ x)) with (Row.cusip x).
    change (Row.date (Row.with_attrs _ x)) with (Row.date x).
    destruct (get col (Row.attrs x)) as [v0|] eqn:E; cbn [Null.or_else].
    + intros [= <-]. exists x. split; [apply Hsub; left; reflexivity|].
      split; [reflexivity|]. split; [lia|exact E].
    + intros Hl. destruct (Hlast _ _ Hl) as (x0 & H0 & Hc0 & Hv0 & Hd0).
      exists x0. split; [exact H0|]. split; [exact Hc0|].
      split; [|exact Hv0]. apply Hd0; [left|]; reflexivity.
  - refine (IH _ Hs _ _ r Hr).
    + intros y Hy. apply Hsub. right. exact Hy.
    + intros c v. unfold upd.
      destruct (String.eqb_spec (Row.cusip x) c) as [Ec|Ec].
      * destruct (get col (Row.attrs x)) as [v0|] eqn:E; cbn [Null.or_else].
        -- intros [= <-]. exists x. split; [apply Hsub; left; reflexivity|].
           split; [exact Ec|]. split; [exact E|].
           intros y Hy Hcy. apply (Hx y Hy). congruence.
        -- rewrite Ec. intros Hl.
           destruct (Hlast _ _ Hl) as (x0 & H0 & Hc0 & Hv0 & Hd0).
           exists x0. split; [exact H0|]. split; [exact Hc0|].
           split; [exact Hv0|]. intros y Hy. apply Hd0. right. exact Hy.
      * intros Hl.
        destruct (Hlast _ _ Hl) as (x0 & H0 & Hc0 & Hv0 & Hd0).
        exists x0. split; [exact H0|]. split; [exact Hc0|].
        split; [exact Hv0|]. intros y Hy. apply Hd0. right. exact Hy.
Qed.

Lemma forward_source (l : list Row.t) :
  StronglySorted dateOrdered l ->
  forall r, In r (forward_fill col l) -> FromEarlier col l r.
Proof.
  intros Hs. apply pass_source; [exact Hs|auto|]. intros c v [=].
Qed.

(** In the output of the pass, a known cell is followed by known cells in
    the rows of the cusip. *)
Lemma pass_Persists (last : string -> option A) (l : list Row.t) :
  StronglySorted (Persists col) (forward_fill_from col last l).
Proof.
  revert last. induction l as [|x l IH]; intros last;
    cbn [forward_fill_from]; constructor; [apply IH|].
  apply Forall_forall. intros y Hy Hc Hk.
  change (Row.cusip x = Row.cusip y) in Hc.
  unfold known in Hk. rewrite (@cell_filled _ col Hlens) in Hk.
  refine (@pass_known _ col Hlens _ (Row.cusip x) l _ y Hy (eq_sym Hc)).
  unfold upd. rewrite String.eqb_refl. exact Hk.
Qed.

(** Steps that leave the column alone. *)
Lemma alone_Persists (l l' : list Row.t) :
  Forall2 (SameSlotCell col) l l' ->
  StronglySorted (Persists col) l -> StronglySorted (Persists col) l'.
Proof.
  apply StronglySorted_Forall2.
  intros a b a' b' (Hca & _ & Hfa) (Hcb & _ & Hfb) H Hc Hk.
  unfold Persists, known in *. rewrite Hfb. apply H; [congruence|].
  rewrite <- Hfa. exact Hk.
Qed.

Lemma alone_FromEarlier (src src' l l' : list Row.t) :
  Forall2 (SameSlotCell col) src src' ->
  Forall2 (SameSlotCell col) l l' ->
  (forall r, In r l -> FromEarlier col src' r) ->
  forall r, In r l' -> FromEarlier col src r.
Proof.
  intros Hsrc Hl H r Hr v Hv.
  destruct (Forall2_In_r r Hl Hr) as (b & Hb & Hcb & Hdb & Hfb).
  rewrite Hfb in Hv.
  destruct (H b Hb v Hv) as (x' & Hx' & Hcx & Hdx & Hvx).
  destruct (Forall2_In_r x' Hsrc Hx') as (x & Hx & Hc & Hd & Hf).
  exists x. split; [exact Hx|]. split; [congruence|].
  split; [lia|congruence].
Qed.

End OneColumn.

(** The fills of the other columns leave [unscheduledReopeningDate] and
    the slot alone. *)
Ltac same_slot :=
  first [apply forward_fill_harmless|apply backward_fill_harmless];
  let r := fresh "r" in
  let w := fresh "w" in
  intros r w; destruct r;
  match goal with a : Attrs.t |- _ => destruct a end;
  unfold SameSlotCell; cbn; auto.

Ltac slot_chain :=
  repeat (eapply Forall2_trans;
          [exact (@SameSlotCell_trans _ unscheduledReopeningDate)|
          |same_slot]);
  apply Forall2_refl; apply SameSlotCell_refl.

Lemma before_unscheduled (rows : list Row.t) :
  Forall2 (SameSlotCell unscheduledReopeningDate)
          rows (fillsBeforeUnscheduled rows).
Proof. unfold fillsBeforeUnscheduled. slot_chain. Qed.

Lemma after_unscheduled (rows : list Row.t) :
  Forall2 (SameSlotCell unscheduledReopeningDate)
          rows (fillsAfterUnscheduled rows).
Proof.
  unfold fillsAfterUnscheduled, backwardFillStatic. slot_chain.
Qed.

Lemma fills_unscheduled (rows : list Row.t) :
  backwardFillStatic (forwardFillStatic rows)
  = fillsAfterUnscheduled
      (forward_fill unscheduledReopeningDate (fillsBeforeUnscheduled rows)).
Proof. reflexivity. Qed.

Lemma lens_unscheduled : Lens unscheduledReopeningDate.
Proof. lens. Qed.

(** After the fills, an [unscheduledReopeningDate] is that of a row of the
    input of the same cusip, dated the same or before. *)
Lemma filled_from_earlier (rows : list Row.t) :
  StronglySorted dateOrdered rows ->
  forall a, In a (backwardFillStatic (forwardFillStatic rows)) ->
            FromEarlier unscheduledReopeningDate rows a.
Proof.
  intros Hs. rewrite fills_unscheduled.
  refine (@alone_FromEarlier _ unscheduledReopeningDate
            rows (fillsBeforeUnscheduled rows)
            (forward_fill unscheduledReopeningDate
               (fillsBeforeUnscheduled rows)) _
            (before_unscheduled rows) (after_unscheduled _) _).
  apply (@forward_source _ unscheduledReopeningDate lens_unscheduled).
  exact (@SameSlotCell_dateOrdered _ unscheduledReopeningDate _ _
           (before_unscheduled rows) Hs).
Qed.

(** After the fills the rows of a cusip are still in date order, and an
    [unscheduledReopeningDate] that is known stays known below. *)
Lemma filled_persists (rows : list Row.t) :
  StronglySorted dateOrdered rows ->
  StronglySorted
    (fun a b => dateOrdered a b /\ Persists unscheduledReopeningDate a b)
    (backwardFillStatic (forwardFillStatic rows)).
Proof.
  intros Hs. apply StronglySorted_both.
  - refine (@StronglySorted_Forall2 _ FillStep dateOrdered dateOrdered
              rows _ _ _ Hs).
    + intros a b a' b' (Hca & Hda & _) (Hcb & Hdb & _) H Hc.
      rewrite Hda, Hdb. apply H. congruence.
    + eapply Forall2_trans; [exact FillStep_trans| |].
      * apply forwardFillStatic_step.
      * apply backwardFillStatic_step.
  - rewrite fills_unscheduled.
    refine (@alone_Persists _ unscheduledReopeningDate _ _
              (after_unscheduled _) _).
    apply (@pass_Persists _ unscheduledReopeningDate lens_unscheduled).
Qed.

End ForwardFacts.

(** * PanelBuilder: further properties of the panel *)

Module PanelProperties.
Import PanelBuilder Panel Linked LinkedFacts PanelSteps CalendarFacts JoinFacts.
Import OrderFacts SumFacts TraceFacts ConservationFacts FutureFacts.
Import Carry CarryFacts FirstIssueFacts TotalFacts GapFacts.

#[local] Arguments buildPanel : simpl never.
#[local] Arguments auctionData : simpl never.

Lemma panel_Ok(w : World) (auctionsDf : list Auction.t)
  (panel : list Row.t) :
  _createCusipPanel w auctionsDf = Ok panel ->
  exists dates,
    completeDates (date_today w) auctionsDf = Ok dates /\
    panel = buildPanel (date_today w) auctionsDf dates.
Proof.
  unfold _createCusipPanel.
  destruct (completeDates (date_today w) auctionsDf) as [dates|e];
    simpl; [|discriminate].
  intros [= <-]. exists dates. auto.
Qed.

(** X2.  Every row of the panel belongs to a cusip of the input and is
    dated inside the calendar span of that cusip: not before its earliest
    announcement date, not after its first maturity date, and never after
    today. *)
Theorem panel_rows_within_span (w : World) (auctionsDf : list Auction.t)
  (panel : list Row.t) (r : Row.t) :
  _createCusipPanel w auctionsDf = Ok panel -> In r panel ->
  In (Row.cusip r) (map Auction.cusip auctionsDf) /\
  inSpan (date_today w) auctionsDf (Row.cusip r) (Row.date r) /\
  Row.date r <= date_today w.
Proof.
  intros Hok Hr. apply panel_Ok in Hok as (dates & Hd & ->).
  apply completeDates_spec in Hd as (_ & Hdates).
  apply panel_row_slot in Hr as (Hin & _).
  apply Hdates in Hin as (Hc & Hs).
  split; [exact Hc|]. split; [exact Hs|].
  destruct Hs as (s & e & _ & _ & H). lia.
Qed.

Lemma panel_rows_within_span_witness :
  let panel := Sample.panel_of Sample.friday Sample.one_pending in
  let r := Sample.row_at 0 panel in
  _createCusipPanel Sample.friday Sample.one_pending = Ok panel /\
  In r panel /\ Row.date r <= date_today Sample.friday.
Proof.
  intros panel r.
  assert (Hok : _createCusipPanel Sample.friday Sample.one_pending = Ok panel)
    by (vm_compute; reflexivity).
  assert (Hr : In r panel) by (apply nth_In; vm_compute; lia).
  split; [exact Hok|]. split; [exact Hr|].
  exact (proj2 (proj2 (@panel_rows_within_span Sample.friday
                         Sample.one_pending panel r Hok Hr))).
Defined.

Lemma Lawful_finalOrder : Order.Lawful finalOrder.
Proof.
  unfold finalOrder.
  apply Lawful_lex;
    [apply Lawful_on, Lawful_nulls_first, Lawful_bool|].
  apply Lawful_lex;
    [apply Lawful_on, Lawful_nulls_first, Lawful_bool|].
  apply Lawful_lex; [apply Lawful_on, Lawful_desc, Lawful_Z|].
  apply Lawful_lex;
    [apply Lawful_on, Lawful_nulls_first, Lawful_desc, Lawful_string|].
  apply Lawful_lex; apply Lawful_on, Lawful_nulls_first, Lawful_Z.
Qed.

(** Two rows in the order of the final sort that agree on [floatingRate]
    and [TIPS] are in descending order of date. *)
Lemma finalOrder_date (a b : Row.t) :
  Order.le finalOrder a b ->
  Attrs.floatingRate (Row.attrs a) = Attrs.floatingRate (Row.attrs b) ->
  Attrs.TIPS (Row.attrs a) = Attrs.TIPS (Row.attrs b) ->
  Row.date b <= Row.date a.
Proof.
  unfold Order.le, finalOrder, Order.lex, Order.on. intros H Hf Ht.
  rewrite Hf, Ht in H.
  rewrite !(@cmp_refl _ (Order.nulls_first Order.bool_compare)
              (Lawful_nulls_first _)) in H.
  unfold Order.desc in H. unfold Z.le.
  destruct (Row.date b ?= Row.date a); congruence.
Qed.

(** X3.  The panel comes out sorted by the final sort key, (floatingRate,
    TIPS, date descending, securityType descending, tenor, vintage): every
    row stands before the rows that follow it; in particular, among rows
    with the same floatingRate and TIPS, dates never increase down the
    panel. *)
Theorem panel_is_sorted (w : World) (auctionsDf : list Auction.t)
  (panel : list Row.t) :
  _createCusipPanel w auctionsDf = Ok panel ->
  StronglySorted (Order.le finalOrder) panel /\
  forall l1 a l2 b l3, panel = l1 ++ a :: l2 ++ b :: l3 ->
    Attrs.floatingRate (Row.attrs a) = Attrs.floatingRate (Row.attrs b) ->
    Attrs.TIPS (Row.attrs a) = Attrs.TIPS (Row.attrs b) ->
    Row.date b <= Row.date a.
Proof.
  intros Hok. apply panel_Ok in Hok as (dates & _ & ->).
  assert (Hs : StronglySorted (Order.le finalOrder)
                 (buildPanel (date_today w) auctionsDf dates))
    by (unfold buildPanel;
        apply (@sort_sorted _ finalOrder Lawful_finalOrder)).
  split; [exact Hs|].
  intros l1 a l2 b l3 E. rewrite E in Hs.
  clear E. induction l1 as [|x l1 IH]; cbn [app] in Hs.
  - apply StronglySorted_inv in Hs as (_ & Hall).
    rewrite Forall_forall in Hall.
    apply finalOrder_date, Hall, in_or_app. right; left; reflexivity.
  - apply StronglySorted_inv in Hs as (Hs & _). exact (IH Hs).
Qed.

Lemma panel_is_sorted_witness :
  let panel := Sample.panel_of Sample.friday Sample.two_issued in
  _createCusipPanel Sample.friday Sample.two_issued = Ok panel /\
  StronglySorted (Order.le finalOrder) panel.
Proof.
  intros panel.
  assert (Hok : _createCusipPanel Sample.friday Sample.two_issued = Ok panel)
    by (vm_compute; reflexivity).
  split; [exact Hok|].
  exact (proj1 (@panel_is_sorted Sample.friday Sample.two_issued panel Hok)).
Defined.

Lemma matches_select (auctionsDf : list Auction.t) (a : Auction.t) (c : string)
  (d : Z) :
  matches c d (select auctionsDf a) = true <->
  Auction.cusip a = c /\ Auction.issue_date a = Some d.
Proof.
  unfold matches, select. cbn. rewrite andb_true_iff, String.eqb_eq.
  destruct (Auction.issue_date a) as [x|]; cbn.
  - destruct (Z.eqb_spec x d) as [E|E]; split; intros (H1 & H2);
      split; auto; try congruence.
  - split; intros (H1 & H2); discriminate.
Qed.

(** A record dated on or before today enters the join in its own slot. *)
Lemma dated_record_joined (today : Z) (auctionsDf : list Auction.t)
  (a : Auction.t) (d : Z) :
  In a auctionsDf -> Auction.issue_date a = Some d -> d <= today ->
  In (select auctionsDf a)
     (filter (matches (Auction.cusip a) d) (auctionData today auctionsDf)).
Proof.
  intros Ha Hd Hle. unfold auctionData. rewrite resolve_slot.
  apply in_or_app. left.
  destruct (Z.leb_spec d today) as [_|H]; [|lia].
  apply filter_In. split; [apply in_map; exact Ha|].
  apply matches_select. auto.
Qed.

(** X4.  An auction record whose issue date is a business day of the span
    of its cusip has a row in the panel, in the slot of that cusip and
    date: the row shows the amount accepted (0 when it is null) and the
    issuance type of the record, and every non-null cell of the record's
    tenor, coupon, maturity, announcement and auction dates, unscheduled
    reopening date, first issue date, TIPS and floating-rate flags and
    security type unchanged. *)
Theorem issue_record_reaches_panel (w : World) (auctionsDf : list Auction.t)
  (panel : list Row.t) (a : Auction.t) (d : Z) :
  _createCusipPanel w auctionsDf = Ok panel ->
  In a auctionsDf -> Auction.issue_date a = Some d ->
  inSpan (date_today w) auctionsDf (Auction.cusip a) d -> weekday d < 6 ->
  exists r, In r panel /\
    Row.cusip r = Auction.cusip a /\ Row.date r = d /\
    Attrs.amountIssued (Row.attrs r)
      = Some (Null.fill_null 0 (Auction.total_accepted a)) /\
    Attrs.issuanceType (Row.attrs r) = Auction.issuanceType a /\
    KeepsKnown (AuctionData.attrs (select auctionsDf a)) (Row.attrs r).
Proof.
  intros Hok Ha Hd Hspan Hwd.
  apply panel_Ok in Hok as (dates & Hdates & ->).
  apply completeDates_spec in Hdates as (Hnd & Hdates).
  set (today := date_today w) in *. set (c := Auction.cusip a) in *.
  assert (Hin : In (c, d) dates)
    by (apply Hdates; split; [apply in_map; exact Ha|exact Hspan]).
  assert (Hle : d <= today) by (destruct Hspan as (s & e & _ & _ & H); lia).
  set (j := slot c d (AuctionData.attrs (select auctionsDf a))).
  assert (Hj : In j (leftJoin dates (auctionData today auctionsDf))).
  { unfold leftJoin. apply in_flat_map. exists (c, d). split; [exact Hin|].
    unfold joinSlot. cbn [fst snd].
    pose proof (@dated_record_joined today auctionsDf a d Ha Hd Hle) as H.
    fold c in H.
    destruct (filter (matches c d) (auctionData today auctionsDf))
      as [|m ms]; [destruct H|].
    apply (in_map (fun x => slot c d (AuctionData.attrs x))) in H.
    exact H. }
  assert (Hjb : In j (filter isBusinessDay
                        (leftJoin dates (auctionData today auctionsDf)))).
  { apply filter_In. split; [exact Hj|].
    unfold isBusinessDay. cbn. apply Z.ltb_lt. exact Hwd. }
  destruct (@In_l _ _ _ _ _ j
              (@buildPanel_carried today auctionsDf dates) Hjb)
    as (r & Hr & Hjr).
  exists r. split; [exact Hr|].
  pose proof (@Carried_Trace j r Hjr) as Ht.
  pose proof (@traced_amount j r
                (@joined_AmountStands today auctionsDf dates j Hj) Ht)
    as Hamt.
  pose proof (@traced_issuanceType j r Ht) as Hit.
  pose proof (@Carried_known j r Hjr) as Hk.
  destruct Ht as (x & (Hc & Hdx & _) & (Hc' & Hd' & _)).
  change (Row.cusip (zeroAmountIssued x)) with (Row.cusip x) in Hc'.
  change (Row.date (zeroAmountIssued x)) with (Row.date x) in Hd'.
  change (Row.cusip j) with c in Hc. change (Row.date j) with d in Hdx.
  split; [congruence|]. split; [congruence|].
  split; [exact Hamt|]. split; [exact Hit|exact Hk].
Qed.

Lemma issue_record_reaches_panel_witness :
  let a := Sample.bill "912797LA" 19996 20024 19993 100 in
  _createCusipPanel Sample.friday Sample.one_bill
    = Ok (Sample.panel_of Sample.friday Sample.one_bill) /\
  exists r, In r (Sample.panel_of Sample.friday Sample.one_bill) /\
    Row.date r = 19996 /\
    Attrs.amountIssued (Row.attrs r) = Some 100.
Proof.
  intros a.
  assert (Hok : _createCusipPanel Sample.friday Sample.one_bill
                = Ok (Sample.panel_of Sample.friday Sample.one_bill))
    by (vm_compute; reflexivity).
  split; [exact Hok|].
  assert (Ha : In a Sample.one_bill) by (left; reflexivity).
  assert (Hd : Auction.issue_date a = Some 19996) by reflexivity.
  assert (Hspan : inSpan (date_today Sample.friday) Sample.one_bill
                    (Auction.cusip a) 19996)
    by (exists 19993, 20024;
        repeat split; vm_compute; (reflexivity || discriminate)).
  assert (Hwd : weekday 19996 < 6) by (vm_compute; reflexivity).
  destruct (@issue_record_reaches_panel Sample.friday Sample.one_bill _ a
              19996 Hok Ha Hd Hspan Hwd)
    as (r & Hr & _ & Hdate & Hamt & _).
  exists r. split; [exact Hr|]. split; [exact Hdate|exact Hamt].
Defined.

Lemma Forall2_singleton_l {A B} (R : A -> B -> Prop) (a : A) (l : list B) :
  Forall2 R [a] l -> exists b, l = [b] /\ R a b.
Proof.
  intros H. inversion H as [|x b l1 l2 Hab Hrest]; subst.
  inversion Hrest; subst. exists b. auto.
Qed.

(** X5.  On a business day of the span of a cusip on which none of its
    records is issued (and, for today, when none of its records is dated
    after today), the panel holds exactly one row for the cusip, with
    amountIssued 0 and a null issuanceType. *)
Theorem quiet_day_row (w : World) (auctionsDf : list Auction.t)
  (panel : list Row.t) (c : string) (d : Z) :
  _createCusipPanel w auctionsDf = Ok panel ->
  In c (map Auction.cusip auctionsDf) ->
  inSpan (date_today w) auctionsDf c d -> weekday d < 6 ->
  (forall a, In a auctionsDf -> Auction.cusip a = c ->
             Auction.issue_date a <> Some d) ->
  (d = date_today w ->
   forall a x, In a auctionsDf -> Auction.cusip a = c ->
               Auction.issue_date a = Some x -> x <= date_today w) ->
  exists r, rowsAt c d panel = [r] /\
    Attrs.amountIssued (Row.attrs r) = Some 0 /\
    Attrs.issuanceType (Row.attrs r) = None.
Proof.
  intros Hok Hc Hspan Hwd Hnone Hnofuture.
  apply panel_Ok in Hok as (dates & Hdates & ->).
  apply completeDates_spec in Hdates as (Hnd & Hdates).
  set (today := date_today w) in *.
  assert (Hin : In (c, d) dates) by (apply Hdates; auto).
  assert (Hempty : filter (matches c d) (auctionData today auctionsDf) = []).
  { unfold auctionData. rewrite resolve_slot.
    assert (H1 : filter (matches c d) (map (select auctionsDf) auctionsDf)
                 = []).
    { apply filter_none. intros x Hx.
      apply in_map_iff in Hx as (a & <- & Ha).
      destruct (matches c d (select auctionsDf a)) eqn:M; [|reflexivity].
      apply matches_select in M as (M1 & M2).
      destruct (Hnone a Ha M1 M2). }
    rewrite H1.
    assert (H2 : (if d =? today
                  then synthesized today c (map (select auctionsDf) auctionsDf)
                  else []) = []).
    { destruct (Z.eqb_spec d today) as [E|E]; [|reflexivity].
      unfold synthesized, pending.
      rewrite filter_none;
        [destruct (issuedToday _ _ _); reflexivity|].
      intros x Hx. apply in_map_iff in Hx as (a & <- & Ha).
      destruct (String.eqb_spec (AuctionData.cusip (select auctionsDf a)) c)
        as [Hca|Hca]; [|reflexivity]. cbn [andb].
      unfold is_future, select. cbn.
      destruct (Auction.issue_date a) as [x|] eqn:Hx; [|reflexivity].
      cbn. pose proof (Hnofuture E a x Ha Hca Hx) as Hle.
      destruct (Z.ltb_spec today x); [lia|reflexivity]. }
    rewrite H2. destruct (d <=? today); reflexivity. }
  pose proof (@panel_slot today auctionsDf dates c d Hnd Hin Hwd) as H.
  unfold joinSlot in H. cbn [fst snd] in H. rewrite Hempty in H.
  destruct H as (l1 & Hp & HF).
  apply Permutation_length_1_inv in Hp. subst l1.
  apply Forall2_singleton_l in HF as (r & Hrows & Ht).
  exists r. split; [exact Hrows|].
  split.
  - assert (Hst : AmountStands (slot c d Attrs.null)) by exact I.
    rewrite (@traced_amount _ r Hst Ht). reflexivity.
  - rewrite (@traced_issuanceType _ r Ht). reflexivity.
Qed.

Lemma quiet_day_row_witness :
  _createCusipPanel Sample.friday Sample.one_bill
    = Ok (Sample.panel_of Sample.friday Sample.one_bill) /\
  exists r,
    rowsAt "912797LA" 19997 (Sample.panel_of Sample.friday Sample.one_bill)
      = [r] /\
    Attrs.amountIssued (Row.attrs r) = Some 0.
Proof.
  assert (Hok : _createCusipPanel Sample.friday Sample.one_bill
                = Ok (Sample.panel_of Sample.friday Sample.one_bill))
    by (vm_compute; reflexivity).
  split; [exact Hok|].
  destruct (@quiet_day_row Sample.friday Sample.one_bill _
              "912797LA"%string 19997 Hok) as (r & Hr & Hamt & _).
  - left. reflexivity.
  - exists 19993, 20024.
    repeat split; vm_compute; (reflexivity || discriminate).
  - vm_compute. reflexivity.
  - intros a [<-|[]] _. discriminate.
  - intros E. vm_compute in E. discriminate E.
  - exists r. auto.
Defined.

(** *** firstIssueDate along a cusip, and the when-issued rows *)

(** The join gives a row no [firstIssueDate] or the least issue date of
    its cusip. *)
Lemma joined_Consistent (today : Z) (auctionsDf : list Auction.t)
  (dates : list (string * Z)) :
  Consistent (firstIssueDateOf auctionsDf)
    (leftJoin dates (auctionData today auctionsDf)).
Proof.
  intros j Hj. apply leftJoin_In in Hj as (_ & [H|(a & Ha & H & Hc & _)]);
    unfold firstIssue; rewrite H; [left; reflexivity|right].
  rewrite <- Hc.
  apply auctionData_In in Ha as (r & _ & [->|(-> & _)]); reflexivity.
Qed.

(** The frame after the fills. *)
Lemma filled_rows (today : Z) (auctionsDf : list Auction.t)
  (dates : list (string * Z)) :
  exists filled,
    zeroedFrame today auctionsDf dates = map zeroAmountIssued filled /\
    Consistent (firstIssueDateOf auctionsDf) filled /\
    forall c, AllKnown c filled \/ NoneKnown c filled.
Proof.
  unfold zeroedFrame. eexists. split; [reflexivity|].
  apply filled_firstIssue. intros r Hr.
  apply (proj1 (sort_In _ _ _)) in Hr.
  exact (@joined_Consistent today auctionsDf dates r Hr).
Qed.

(** A row of the panel is a row of the zeroed frame with [totalIssued] and
    [vintage] added. *)
Lemma panel_row_zeroed (today : Z) (auctionsDf : list Auction.t)
  (dates : list (string * Z)) (r : Row.t) :
  In r (buildPanel today auctionsDf dates) ->
  exists s z,
    In s (summedFrame today auctionsDf dates) /\
    In z (zeroedFrame today auctionsDf dates) /\
    SameAttrs z s /\ SameAttrs s r /\
    Row.totalIssued r = Row.totalIssued s.
Proof.
  intros Hr. apply buildPanel_summed in Hr as (s & Hs & Hsr & Ht).
  pose proof Hs as Hs'. unfold summedFrame, cumulativeIssuance in Hs'.
  apply cum_sum_from_In in Hs' as (z & Hz & Hzs).
  apply (proj1 (sort_In _ _ _)) in Hz.
  exists s, z. split; [exact Hs|]. split; [exact Hz|].
  split; [exact Hzs|]. split; [exact Hsr|exact Ht].
Qed.

Lemma same_cusip_same_firstIssue (V : string -> option Z)
  (filled : list Row.t) (a b : Row.t) :
  Consistent V filled ->
  (forall c, AllKnown c filled \/ NoneKnown c filled) ->
  In a filled -> In b filled -> Row.cusip a = Row.cusip b ->
  firstIssue a = firstIssue b.
Proof.
  intros Hcons Hall Ha Hb Hc.
  destruct (Hall (Row.cusip a)) as [Hk|Hn].
  - pose proof (Hk a Ha eq_refl) as Ka.
    pose proof (Hk b Hb (eq_sym Hc)) as Kb.
    destruct (Hcons a Ha) as [E|E]; [contradiction|].
    destruct (Hcons b Hb) as [E'|E']; [contradiction|].
    rewrite E, E', Hc. reflexivity.
  - rewrite (Hn a Ha eq_refl), (Hn b Hb (eq_sym Hc)). reflexivity.
Qed.

(** X6.  Along a cusip the panel shows one firstIssueDate: any two rows
    of the cusip agree on it, and it is null or the least issue date of the
    records of the cusip. *)
Theorem firstIssueDate_constant (w : World) (auctionsDf : list Auction.t)
  (panel : list Row.t) (r1 r2 : Row.t) :
  _createCusipPanel w auctionsDf = Ok panel ->
  In r1 panel -> In r2 panel -> Row.cusip r1 = Row.cusip r2 ->
  firstIssue r1 = firstIssue r2 /\
  (firstIssue r1 = None \/
   firstIssue r1 = firstIssueDateOf auctionsDf (Row.cusip r1)).
Proof.
  intros Hok H1 H2 Hc. apply panel_Ok in Hok as (dates & _ & ->).
  destruct (@filled_rows (date_today w) auctionsDf dates)
    as (filled & Ez & Hcons & Hall).
  apply panel_row_zeroed in H1
    as (s1 & z1 & _ & Hz1 & (Hc1 & _ & Ha1) & (Hc1' & _ & Ha1') & _).
  apply panel_row_zeroed in H2
    as (s2 & z2 & _ & Hz2 & (Hc2 & _ & Ha2) & (Hc2' & _ & Ha2') & _).
  rewrite Ez in Hz1, Hz2.
  apply in_map_iff in Hz1 as (a1 & <- & Hf1).
  apply in_map_iff in Hz2 as (a2 & <- & Hf2).
  change (Row.cusip (zeroAmountIssued a1)) with (Row.cusip a1) in Hc1.
  change (Row.cusip (zeroAmountIssued a2)) with (Row.cusip a2) in Hc2.
  assert (E1 : firstIssue r1 = firstIssue a1)
    by (unfold firstIssue; rewrite Ha1', Ha1; reflexivity).
  assert (E2 : firstIssue r2 = firstIssue a2)
    by (unfold firstIssue; rewrite Ha2', Ha2; reflexivity).
  assert (Hca : Row.cusip a1 = Row.cusip a2) by congruence.
  split.
  - rewrite E1, E2.
    exact (@same_cusip_same_firstIssue _ filled a1 a2 Hcons Hall Hf1 Hf2 Hca).
  - rewrite E1. replace (Row.cusip r1) with (Row.cusip a1) by congruence.
    apply Hcons. exact Hf1.
Qed.

Lemma firstIssueDate_constant_witness :
  let panel := Sample.panel_of Sample.friday Sample.one_pending in
  let r1 := Sample.row_at 1 panel in
  let r2 := Sample.row_at 8 panel in
  _createCusipPanel Sample.friday Sample.one_pending = Ok panel /\
  In r1 panel /\ In r2 panel /\ Row.cusip r1 = Row.cusip r2 /\
  firstIssue r1 = firstIssue r2.
Proof.
  intros panel r1 r2.
  assert (Hok : _createCusipPanel Sample.friday Sample.one_pending = Ok panel)
    by (vm_compute; reflexivity).
  assert (H1 : In r1 panel) by (apply nth_In; vm_compute; lia).
  assert (H2 : In r2 panel) by (apply nth_In; vm_compute; lia).
  assert (Hc : Row.cusip r1 = Row.cusip r2) by (vm_compute; reflexivity).
  repeat (split; [assumption|]).
  exact (proj1 (@firstIssueDate_constant Sample.friday Sample.one_pending
                  panel r1 r2 Hok H1 H2 Hc)).
Defined.

Lemma whenIssued_spec (r : Row.t) :
  whenIssued r = true <->
  exists f, firstIssue r = Some f /\ Row.date r < f.
Proof.
  unfold whenIssued, isWhenIssued, firstIssue.
  destruct (Attrs.firstIssueDate (Row.attrs r)) as [f|]; simpl.
  - destruct (Z.ltb_spec (Row.date r) f); split.
    + intros _. exists f. auto.
    + reflexivity.
    + discriminate.
    + intros (f' & [= <-] & H'). lia.
  - split; [discriminate|]. intros (f & H & _). discriminate.
Qed.

Lemma zeroAmountIssued_whenIssued (a : Row.t) :
  whenIssued a = true ->
  Attrs.amountIssued (Row.attrs (zeroAmountIssued a)) = Some 0.
Proof.
  unfold whenIssued, zeroAmountIssued.
  cbn [Row.attrs Row.with_attrs Attrs.amountIssued Attrs.set_amountIssued].
  destruct (isWhenIssued a) as [[]|]; cbn; [reflexivity|discriminate..].
Qed.

(** The running sum stays at zero as long as the amounts of the cusip are
    zero. *)
Lemma cum_sum_from_zero (c : string) (d : Z) (rows : list Row.t) :
  StronglySorted dateOrdered rows ->
  (forall x, In x rows -> Row.cusip x = c -> Row.date x <= d ->
             Attrs.amountIssued (Row.attrs x) = Some 0) ->
  forall acc, acc c = 0 ->
  forall s, In s (cum_sum_from acc rows) -> Row.cusip s = c ->
            Row.date s <= d -> Row.totalIssued s = Some 0.
Proof.
  induction 1 as [|r0 rows Hs IH H0]; intros Hz acc Hacc s Hin Hc Hd;
    [destruct Hin|].
  assert (Hz' : forall x, In x rows -> Row.cusip x = c -> Row.date x <= d ->
                  Attrs.amountIssued (Row.attrs x) = Some 0)
    by (intros x Hx; apply Hz; right; exact Hx).
  assert (Hearly : In s (cum_sum_from acc rows) \/
                   (exists acc', In s (cum_sum_from acc' rows)) ->
                   Row.cusip r0 = c -> Row.date r0 <= d).
  { intros Hs' E.
    assert (Hx : exists x, In x rows /\ SameAttrs x s).
    { destruct Hs' as [Hs'|(acc' & Hs')];
        exact (cum_sum_from_In _ _ _ Hs'). }
    destruct Hx as (x & Hx & Hcx & Hdx & _).
    rewrite Forall_forall in H0. specialize (H0 x Hx).
    unfold dateOrdered in H0.
    assert (Row.date r0 <= Row.date x) by (apply H0; congruence). lia. }
  cbn [cum_sum_from] in Hin.
  destruct (Attrs.amountIssued (Row.attrs r0)) as [a|] eqn:E.
  - destruct Hin as [<-|Hin].
    + change (Row.cusip r0 = c) in Hc. change (Row.date r0 <= d) in Hd.
      rewrite (Hz r0 (or_introl eq_refl) Hc Hd) in E. injection E as <-.
      cbn. rewrite Hc, Hacc. reflexivity.
    + apply (IH Hz' _) with (s := s) in Hin; auto.
      unfold upd.
      destruct (String.eqb_spec (Row.cusip r0) c) as [Ec|Ec]; [|exact Hacc].
      assert (Hd0 : Row.date r0 <= d) by (apply Hearly; eauto).
      rewrite (Hz r0 (or_introl eq_refl) Ec Hd0) in E. injection E as <-.
      rewrite Ec, Hacc. reflexivity.
  - destruct Hin as [<-|Hin].
    + change (Row.cusip r0 = c) in Hc. change (Row.date r0 <= d) in Hd.
      rewrite (Hz r0 (or_introl eq_refl) Hc Hd) in E. discriminate.
    + exact (IH Hz' acc Hacc s Hin Hc Hd).
Qed.

(** X7.  A when-issued row of the panel, one dated before the
    firstIssueDate it shows, carries no issuance: its amountIssued is 0
    and so is its totalIssued. *)
Theorem when_issued_row_carries_nothing (w : World)
  (auctionsDf : list Auction.t) (panel : list Row.t) (r : Row.t) :
  _createCusipPanel w auctionsDf = Ok panel -> In r panel ->
  whenIssued r = true ->
  Attrs.amountIssued (Row.attrs r) = Some 0 /\ Row.totalIssued r = Some 0.
Proof.
  intros Hok Hr Hw. apply panel_Ok in Hok as (dates & _ & ->).
  destruct (@filled_rows (date_today w) auctionsDf dates)
    as (filled & Ez & Hcons & Hall).
  apply panel_row_zeroed in Hr
    as (s & z & Hs & Hz & (Hcz & Hdz & Haz) & (Hcs & Hds & Has) & Ht).
  rewrite Ez in Hz. apply in_map_iff in Hz as (a & <- & Ha).
  change (Row.cusip (zeroAmountIssued a)) with (Row.cusip a) in Hcz.
  change (Row.date (zeroAmountIssued a)) with (Row.date a) in Hdz.
  apply whenIssued_spec in Hw as (f & Hf & Hlt).
  assert (Hfa : firstIssue a = Some f)
    by (rewrite <- Hf; unfold firstIssue; rewrite Has, Haz; reflexivity).
  assert (Hda : Row.date a = Row.date r) by congruence.
  split.
  - rewrite Has, Haz. apply zeroAmountIssued_whenIssued.
    apply whenIssued_spec. exists f. split; [exact Hfa|lia].
  - rewrite Ht. unfold summedFrame, cumulativeIssuance in Hs.
    refine (@cum_sum_from_zero (Row.cusip a) (Row.date a) _ _ _
              (fun _ => 0) eq_refl s Hs Hcz _); [| |lia].
    + apply sorted_dateOrdered.
    + intros x Hx Hcx Hdx. apply (proj1 (sort_In _ _ _)) in Hx.
      rewrite Ez in Hx. apply in_map_iff in Hx as (b & <- & Hb).
      change (Row.cusip (zeroAmountIssued b)) with (Row.cusip b) in Hcx.
      change (Row.date (zeroAmountIssued b)) with (Row.date b) in Hdx.
      apply zeroAmountIssued_whenIssued. apply whenIssued_spec.
      exists f. split; [|lia].
      rewrite (@same_cusip_same_firstIssue _ filled b a Hcons Hall Hb Ha Hcx).
      exact Hfa.
Qed.

Lemma when_issued_row_carries_nothing_witness :
  let panel := Sample.panel_of Sample.friday Sample.one_pending in
  let r := Sample.row_at 0 panel in
  _createCusipPanel Sample.friday Sample.one_pending = Ok panel /\
  In r panel /\ whenIssued r = true /\ Row.totalIssued r = Some 0.
Proof.
  intros panel r.
  assert (Hok : _createCusipPanel Sample.friday Sample.one_pending = Ok panel)
    by (vm_compute; reflexivity).
  assert (Hr : In r panel) by (apply nth_In; vm_compute; lia).
  assert (Hw : whenIssued r = true) by (vm_compute; reflexivity).
  repeat (split; [assumption|]).
  exact (proj2 (@when_issued_row_carries_nothing Sample.friday
                  Sample.one_pending panel r Hok Hr Hw)).
Defined.

(** X14.  A null maturity date in the first record of some cusip makes the
    build raise: [min] of the null end date and today is a TypeError, and
    no panel is returned. *)
Theorem null_maturity_date_raises (w : World) (auctionsDf : list Auction.t)
  (c : string) :
  In c (map Auction.cusip auctionsDf) ->
  end_date (dateRangeOf auctionsDf c) = None ->
  exists e, _createCusipPanel w auctionsDf = Raise e.
Proof.
  intros Hc Hend.
  destruct (_createCusipPanel w auctionsDf) as [panel|e] eqn:E; [|eauto].
  exfalso. apply panel_Ok in E as (dates & Hd & _).
  unfold completeDates, calendarOf, cusipDateRanges in Hd.
  destruct (mapM _ _) as [ys|e] eqn:M; [|discriminate Hd].
  apply mapM_map_Ok in M.
  apply (proj2 (unique_In _ _)) in Hc.
  destruct (Forall2_In_l c M Hc) as (y & _ & Hy).
  apply cusipDates_Ok in Hy as (s & e & _ & He & _). congruence.
Qed.

Lemma null_maturity_date_raises_witness :
  let r := Sample.bill "912797LA" 19996 20024 19993 100 in
  let df := [{| Auction.cusip := Auction.cusip r;
                Auction.security_type := Auction.security_type r;
                Auction.issue_date := Auction.issue_date r;
                Auction.original_issue_date := None;
                Auction.maturity_date := None;
                Auction.int_rate := None;
                Auction.total_accepted := Auction.total_accepted r;
                Auction.inflation_index_security := Some false;
                Auction.floating_rate := Some false;
                Auction.announcemt_date := Auction.announcemt_date r;
                Auction.announcemtd_cusip := None;
                Auction.auction_date := Auction.auction_date r;
                Auction.unscheduledReopeningDate := None;
                Auction.tenor := None;
                Auction.issuanceType := Auction.issuanceType r |}] in
  In "912797LA"%string (map Auction.cusip df) /\
  exists e, _createCusipPanel Sample.friday df = Raise e.
Proof.
  intros r df.
  assert (Hc : In "912797LA"%string (map Auction.cusip df))
    by (left; reflexivity).
  split; [exact Hc|].
  apply (@null_maturity_date_raises Sample.friday df "912797LA" Hc).
  reflexivity.
Defined.

Lemma accepted_within (c : string) (q : Auction.t -> bool)
  (auctionsDf : list Auction.t) :
  Z.abs (Zsum (map accepted
                   (filter (fun r => has_cusip c r && q r) auctionsDf)))
  <= Zsum (map (fun r => Z.abs (accepted r))
               (filter (has_cusip c) auctionsDf)).
Proof.
  induction auctionsDf as [|a l IH]; cbn [filter]; [cbn; lia|].
  destruct (has_cusip c a); cbn [andb]; [|exact IH].
  destruct (q a); cbn [map Zsum fold_right] in *; unfold Zsum in *; lia.
Qed.

(** X15.  When the panel has one row for a cusip on a date, and the
    absolute values of the amounts accepted in the records of the cusip sum
    to 2^53 at most (so that the Float64 sums of the code are exact), the
    totalIssued of that row is the sum of total_accepted (null counting as
    0) over the records of the cusip issued on that date or before, on a day
    of the calendar span of the cusip: weekend issue dates are counted,
    though the panel has no row for them; records outside the span, or
    dated after today, are not.  That sum is within 2^53 too. *)
Theorem totalIssued_is_cumulative (w : World) (auctionsDf : list Auction.t)
  (panel : list Row.t) (r : Row.t) :
  _createCusipPanel w auctionsDf = Ok panel -> In r panel ->
  List.length (rowsAt (Row.cusip r) (Row.date r) panel) = 1%nat ->
  amountsExact (Row.cusip r) auctionsDf ->
  Row.totalIssued r
  = Some (acceptedUpTo (date_today w) (Row.cusip r) (Row.date r) auctionsDf)
  /\
  Z.abs (acceptedUpTo (date_today w) (Row.cusip r) (Row.date r) auctionsDf)
  <= 2 ^ 53.
Proof.
  intros Hok Hr Hone Hex.
  split;
    [|exact (Z.le_trans _ _ _
               (@accepted_within (Row.cusip r) _ auctionsDf) Hex)].
  apply panel_Ok in Hok as (dates & Hd & ->).
  apply completeDates_spec in Hd as (Hnd & Hdates).
  set (today := date_today w) in *.
  destruct (@panel_row_slot today auctionsDf dates r Hr) as (_ & Hwd).
  destruct (@panel_row_zeroed today auctionsDf dates r Hr)
    as (s & z & Hs & _ & _ & (Hcs & Hds & _) & Ht).
  rewrite <- (@slot_rows today auctionsDf dates _ _ Hwd) in Hone.
  rewrite Ht. unfold summedFrame, cumulativeIssuance in Hs.
  remember (zeroedFrame today auctionsDf dates) as zeroed eqn:Ez.
  pose proof (@sort_perm _ by_cusip_desc_date zeroed) as Hperm.
  assert (Hamt : forall x, In x (Order.sort by_cusip_desc_date zeroed) ->
                   Attrs.amountIssued (Row.attrs x) <> None).
  { intros x Hx. apply (proj1 (sort_In _ _ _)) in Hx. rewrite Ez in Hx.
    unfold zeroedFrame in Hx. apply in_map_iff in Hx as (a & <- & _).
    destruct (zeroAmountIssued_amount a) as (v & ->). discriminate. }
  assert (Hone' : List.length
                    (filter (at_slot (Row.cusip r) (Row.date r))
                       (Order.sort by_cusip_desc_date zeroed)) = 1%nat).
  { rewrite (Permutation_length
               (Permutation_filter (at_slot (Row.cusip r) (Row.date r))
                  Hperm)).
    exact Hone. }
  pose proof (@cum_sum_from_prefix (Row.cusip r) (Row.date r)
                (Order.sort by_cusip_desc_date zeroed)
                (sorted_dateOrdered zeroed) Hamt Hone' (fun _ => 0) s Hs
                (eq_sym Hcs) (eq_sym Hds)) as Htot.
  rewrite Htot. f_equal. rewrite Z.add_0_l.
  rewrite (@Zsum_perm _ amountOf _ _
             (Permutation_filter (before_or_at (Row.cusip r) (Row.date r))
                Hperm)).
  rewrite Ez, zeroed_sum. apply joined_upTo; assumption.
Qed.

Lemma totalIssued_is_cumulative_witness :
  let panel := Sample.panel_of Sample.friday Sample.one_bill in
  let r := Sample.row_at 0 panel in
  _createCusipPanel Sample.friday Sample.one_bill = Ok panel /\
  In r panel /\
  List.length (rowsAt (Row.cusip r) (Row.date r) panel) = 1%nat /\
  amountsExact (Row.cusip r) Sample.one_bill /\
  Row.totalIssued r = Some 100.
Proof.
  intros panel r.
  assert (Hok : _createCusipPanel Sample.friday Sample.one_bill = Ok panel)
    by (vm_compute; reflexivity).
  assert (Hr : In r panel) by (apply nth_In; vm_compute; lia).
  assert (Hone : List.length (rowsAt (Row.cusip r) (Row.date r) panel)
                 = 1%nat) by (vm_compute; reflexivity).
  assert (Hex : amountsExact (Row.cusip r) Sample.one_bill)
    by (vm_compute; discriminate).
  repeat (split; [assumption|]).
  rewrite (proj1 (@totalIssued_is_cumulative Sample.friday Sample.one_bill
                    panel r Hok Hr Hone Hex)).
  vm_compute. reflexivity.
Defined.

(** An amount issued on a Saturday is in no amountIssued of the panel, and
    in the totalIssued of the Monday after. *)
Example weekend_issue_in_total :
  let panel := Sample.panel_of Sample.friday Sample.weekend_issue in
  _createCusipPanel Sample.friday Sample.weekend_issue = Ok panel /\
  issuedInPanel "912797LA" panel = 0 /\
  map Row.totalIssued (rowsAt "912797LA" 19996 panel) = [Some 100].
Proof.
  intros panel. split; [vm_compute; reflexivity|].
  split; vm_compute; reflexivity.
Qed.

(** A row of the panel has the cells of a row of the filled frame, but
    for amountIssued. *)
Lemma panel_row_filled (today : Z) (auctionsDf : list Auction.t)
  (dates : list (string * Z)) (r : Row.t) :
  In r (buildPanel today auctionsDf dates) ->
  exists a,
    In a (backwardFillStatic
            (forwardFillStatic
               (Order.sort by_cusip_date
                  (leftJoin dates (auctionData today auctionsDf))))) /\
    Row.cusip r = Row.cusip a /\ Row.date r = Row.date a /\
    Row.attrs r = Row.attrs (zeroAmountIssued a).
Proof.
  intros Hr.
  apply panel_row_zeroed in Hr
    as (s & z & _ & Hz & (Hcz & Hdz & Haz) & (Hcs & Hds & Has) & _).
  unfold zeroedFrame in Hz. apply in_map_iff in Hz as (a & <- & Ha).
  exists a. split; [exact Ha|].
  change (Row.cusip (zeroAmountIssued a)) with (Row.cusip a) in Hcz.
  change (Row.date (zeroAmountIssued a)) with (Row.date a) in Hdz.
  split; [congruence|]. split; congruence.
Qed.

(** X16.  The filled columns have no gaps along a cusip: when one row of
    the panel shows a tenor, every row of that cusip shows one, and so for
    coupon, maturityDate, announcementDate, auctionDate, firstIssueDate,
    TIPS, floatingRate and securityType. *)
Theorem filled_columns_have_no_gaps (w : World) (auctionsDf : list Auction.t)
  (panel : list Row.t) (r1 r2 : Row.t) :
  _createCusipPanel w auctionsDf = Ok panel ->
  In r1 panel -> In r2 panel -> Row.cusip r1 = Row.cusip r2 ->
  (Attrs.tenor (Row.attrs r1) <> None ->
   Attrs.tenor (Row.attrs r2) <> None) /\
  (Attrs.coupon (Row.attrs r1) <> None ->
   Attrs.coupon (Row.attrs r2) <> None) /\
  (Attrs.maturityDate (Row.attrs r1) <> None ->
   Attrs.maturityDate (Row.attrs r2) <> None) /\
  (Attrs.announcementDate (Row.attrs r1) <> None ->
   Attrs.announcementDate (Row.attrs r2) <> None) /\
  (Attrs.auctionDate (Row.attrs r1) <> None ->
   Attrs.auctionDate (Row.attrs r2) <> None) /\
  (Attrs.firstIssueDate (Row.attrs r1) <> None ->
   Attrs.firstIssueDate (Row.attrs r2) <> None) /\
  (Attrs.TIPS (Row.attrs r1) <> None ->
   Attrs.TIPS (Row.attrs r2) <> None) /\
  (Attrs.floatingRate (Row.attrs r1) <> None ->
   Attrs.floatingRate (Row.attrs r2) <> None) /\
  (Attrs.securityType (Row.attrs r1) <> None ->
   Attrs.securityType (Row.attrs r2) <> None).
Proof.
  intros Hok H1 H2 Hc. apply panel_Ok in Hok as (dates & _ & ->).
  apply panel_row_filled in H1 as (a1 & Ha1 & Hc1 & _ & E1).
  apply panel_row_filled in H2 as (a2 & Ha2 & Hc2 & _ & E2).
  rewrite E1, E2.
  assert (Hca : Row.cusip a1 = Row.cusip a2) by congruence.
  remember (backwardFillStatic _) as filled eqn:Ef.
  repeat split.
  - apply (@no_gap _ tenor filled a1 a2); auto.
    intros c; rewrite Ef; apply filled_tenor.
  - apply (@no_gap _ coupon filled a1 a2); auto.
    intros c; rewrite Ef; apply filled_coupon.
  - apply (@no_gap _ maturityDate filled a1 a2); auto.
    intros c; rewrite Ef; apply filled_maturityDate.
  - apply (@no_gap _ announcementDate filled a1 a2); auto.
    intros c; rewrite Ef; apply filled_announcementDate.
  - apply (@no_gap _ auctionDate filled a1 a2); auto.
    intros c; rewrite Ef; apply filled_auctionDate.
  - apply (@no_gap _ firstIssueDate filled a1 a2); auto.
    intros c; rewrite Ef; apply filled_firstIssueDate.
  - apply (@no_gap _ TIPS filled a1 a2); auto.
    intros c; rewrite Ef; apply filled_TIPS.
  - apply (@no_gap _ floatingRate filled a1 a2); auto.
    intros c; rewrite Ef; apply filled_floatingRate.
  - apply (@no_gap _ securityType filled a1 a2); auto.
    intros c; rewrite Ef; apply filled_securityType.
Qed.

Lemma filled_columns_have_no_gaps_witness :
  let panel := Sample.panel_of Sample.friday Sample.one_pending in
  let r1 := Sample.row_at 7 panel in
  let r2 := Sample.row_at 8 panel in
  _createCusipPanel Sample.friday Sample.one_pending = Ok panel /\
  In r1 panel /\ In r2 panel /\ Row.cusip r1 = Row.cusip r2 /\
  Attrs.tenor (Row.attrs r1) <> None /\
  Attrs.tenor (Row.attrs r2) <> None.
Proof.
  intros panel r1 r2.
  assert (Hok : _createCusipPanel Sample.friday Sample.one_pending = Ok panel)
    by (vm_compute; reflexivity).
  assert (H1 : In r1 panel) by (apply nth_In; vm_compute; lia).
  assert (H2 : In r2 panel) by (apply nth_In; vm_compute; lia).
  assert (Hc : Row.cusip r1 = Row.cusip r2) by (vm_compute; reflexivity).
  assert (Hk : Attrs.tenor (Row.attrs r1) <> None)
    by (vm_compute; discriminate).
  repeat (split; [assumption|]).
  exact (proj1 (@filled_columns_have_no_gaps Sample.friday
                  Sample.one_pending panel r1 r2 Hok H1 H2 Hc) Hk).
Defined.

Lemma zeroAmountIssued_unscheduled (a : Row.t) :
  Attrs.unscheduledReopeningDate (Row.attrs (zeroAmountIssued a))
  = Attrs.unscheduledReopeningDate (Row.attrs a).
Proof. destruct a as [c d at0 t v]. destruct at0. reflexivity. Qed.

(** X17.  An unscheduledReopeningDate shown in a row of the panel is never
    filled backwards: it is the unscheduledReopeningDate of a record of the
    frame of the same cusip whose issue date is the date of the row or
    before. *)
Theorem unscheduled_reopening_from_earlier_record (w : World)
  (auctionsDf : list Auction.t) (panel : list Row.t) (r : Row.t) (v : Z) :
  _createCusipPanel w auctionsDf = Ok panel -> In r panel ->
  Attrs.unscheduledReopeningDate (Row.attrs r) = Some v ->
  exists a d,
    In a auctionsDf /\ Auction.cusip a = Row.cusip r /\
    Auction.issue_date a = Some d /\ d <= Row.date r /\
    Auction.unscheduledReopeningDate a = Some v.
Proof.
  intros Hok Hr Hv. apply panel_Ok in Hok as (dates & _ & ->).
  apply panel_row_filled in Hr as (a & Ha & Hc & Hd & E).
  rewrite E, zeroAmountIssued_unscheduled in Hv.
  destruct (@ForwardFacts.filled_from_earlier _
              (ForwardFacts.sorted_by_cusip_date _) a Ha v Hv)
    as (x & Hx & Hcx & Hdx & Hvx).
  apply (proj1 (sort_In _ _ _)) in Hx.
  apply leftJoin_In in Hx as (_ & [Hn|(ad & Had & Hat & Hca & Hda)]).
  - rewrite Hn in Hvx. discriminate.
  - rewrite Hat in Hvx.
    apply auctionData_In in Had as (rec & Hrec & [->|(-> & _)]).
    + exists rec, (Row.date x).
      split; [exact Hrec|]. split; [|split; [exact Hda|]].
      * change (Auction.cusip rec = Row.cusip x) in Hca. congruence.
      * split; [lia|exact Hvx].
    + discriminate.
Qed.

Lemma unscheduled_reopening_from_earlier_record_witness :
  let panel := Sample.panel_of Sample.friday Sample.reopened_midweek in
  let r := Sample.row_at 0 panel in
  _createCusipPanel Sample.friday Sample.reopened_midweek = Ok panel /\
  In r panel /\
  Attrs.unscheduledReopeningDate (Row.attrs r) = Some 19998 /\
  exists a d,
    In a Sample.reopened_midweek /\ Auction.cusip a = Row.cusip r /\
    Auction.issue_date a = Some d /\ d <= Row.date r /\
    Auction.unscheduledReopeningDate a = Some 19998.
Proof.
  intros panel r.
  assert (Hok : _createCusipPanel Sample.friday Sample.reopened_midweek
                = Ok panel) by (vm_compute; reflexivity).
  assert (Hr : In r panel) by (apply nth_In; vm_compute; lia).
  assert (Hv : Attrs.unscheduledReopeningDate (Row.attrs r) = Some 19998)
    by (vm_compute; reflexivity).
  repeat (split; [assumption|]).
  exact (@unscheduled_reopening_from_earlier_record Sample.friday
           Sample.reopened_midweek panel r 19998 Hok Hr Hv).
Defined.

(** X18.  Once a row of a cusip shows an unscheduledReopeningDate, every
    row of that cusip with a later date shows one. *)
Theorem unscheduled_reopening_persists (w : World)
  (auctionsDf : list Auction.t) (panel : list Row.t) (r1 r2 : Row.t) :
  _createCusipPanel w auctionsDf = Ok panel ->
  In r1 panel -> In r2 panel -> Row.cusip r1 = Row.cusip r2 ->
  Row.date r1 < Row.date r2 ->
  Attrs.unscheduledReopeningDate (Row.attrs r1) <> None ->
  Attrs.unscheduledReopeningDate (Row.attrs r2) <> None.
Proof.
  intros Hok H1 H2 Hc Hlt Hk. apply panel_Ok in Hok as (dates & _ & ->).
  apply panel_row_filled in H1 as (a1 & Ha1 & Hc1 & Hd1 & E1).
  apply panel_row_filled in H2 as (a2 & Ha2 & Hc2 & Hd2 & E2).
  rewrite E1, zeroAmountIssued_unscheduled in Hk.
  rewrite E2, zeroAmountIssued_unscheduled.
  pose proof (@ForwardFacts.filled_persists _
                (ForwardFacts.sorted_by_cusip_date
                   (leftJoin dates (auctionData (date_today w) auctionsDf))))
    as Hs.
  destruct (@ForwardFacts.StronglySorted_pair _ _ _ a1 a2 Hs Ha1 Ha2)
    as [Ea|[(_ & Hp)|(Ho & _)]].
  - rewrite Hd1, Hd2, Ea in Hlt. lia.
  - apply Hp; [congruence|exact Hk].
  - assert (Hle : Row.date a2 <= Row.date a1) by (apply Ho; congruence).
    lia.
Qed.

Lemma unscheduled_reopening_persists_witness :
  let panel := Sample.panel_of Sample.friday Sample.reopened_midweek in
  let r1 := Sample.row_at 2 panel in
  let r2 := Sample.row_at 0 panel in
  _createCusipPanel Sample.friday Sample.reopened_midweek = Ok panel /\
  In r1 panel /\ In r2 panel /\ Row.cusip r1 = Row.cusip r2 /\
  Row.date r1 < Row.date r2 /\
  Attrs.unscheduledReopeningDate (Row.attrs r1) <> None /\
  Attrs.unscheduledReopeningDate (Row.attrs r2) <> None.
Proof.
  intros panel r1 r2.
  assert (Hok : _createCusipPanel Sample.friday Sample.reopened_midweek
                = Ok panel) by (vm_compute; reflexivity).
  assert (H1 : In r1 panel) by (apply nth_In; vm_compute; lia).
  assert (H2 : In r2 panel) by (apply nth_In; vm_compute; lia).
  assert (Hc : Row.cusip r1 = Row.cusip r2) by (vm_compute; reflexivity).
  assert (Hlt : Row.date r1 < Row.date r2) by (vm_compute; reflexivity).
  assert (Hk : Attrs.unscheduledReopeningDate (Row.attrs r1) <> None)
    by (vm_compute; discriminate).
  repeat (split; [assumption|]).
  exact (@unscheduled_reopening_persists Sample.friday
           Sample.reopened_midweek panel r1 r2 Hok H1 H2 Hc Hlt Hk).
Defined.

(** The rows before the reopening show no unscheduledReopeningDate, though
    they show the tenor, which is filled both ways. *)
Example row_before_reopening :
  let panel := Sample.panel_of Sample.friday Sample.reopened_midweek in
  map (fun r => (Row.date r,
                 Attrs.unscheduledReopeningDate (Row.attrs r),
                 Attrs.tenor (Row.attrs r))) panel
  = [(20000, Some 19998, Some 4); (19999, Some 19998, Some 4);
     (19998, Some 19998, Some 4); (19997, None, Some 4);
     (19996, None, Some 4); (19993, None, Some 4)].
Proof. vm_compute. reflexivity. Qed.

End PanelProperties.

(** * PanelBuilder: runs that break ties differently *)

Module TieFacts.
Import PanelBuilder Panel Linked LinkedFacts PanelSteps CalendarFacts JoinFacts.
Import OrderFacts SumFacts Carry ForwardFacts PanelProperties.

#[local] Arguments buildPanel : simpl never.
#[local] Arguments auctionData : simpl never.

(** A list has one sorted arrangement when no two of its elements compare
    equal. *)
Section Sorted.
Context {A : Type} (c : Order.comparator A) (Hc : Order.Lawful c).

Lemma le_antisym (x y : A) :
  Order.le c x y -> Order.le c y x -> c x y = Eq.
Proof.
  unfold Order.le. intros H1 H2. rewrite (Order.flip x y) in H2.
  destruct (c x y); simpl in *; congruence.
Qed.

Lemma sorted_perm_eq (l1 l2 : list A) :
  StronglySorted (Order.le c) l1 -> StronglySorted (Order.le c) l2 ->
  Permutation l1 l2 ->
  (forall x y, In x l1 -> In y l1 -> c x y = Eq -> x = y) ->
  l1 = l2.
Proof.
  intros H1. revert l2.
  induction H1 as [|a l1 Hs IH Ha]; intros l2 H2 Hp Hinj.
  - apply Permutation_nil in Hp. auto.
  - destruct l2 as [|b l2];
      [apply Permutation_sym, Permutation_nil in Hp; discriminate|].
    apply StronglySorted_inv in H2 as (H2 & Hb).
    rewrite Forall_forall in Ha, Hb.
    assert (Hab : a = b).
    { assert (Hin_a : In a (b :: l2))
        by (apply (Permutation_in _ Hp); left; reflexivity).
      assert (Hin_b : In b (a :: l1))
        by (apply (Permutation_in _ (Permutation_sym Hp)); left;
            reflexivity).
      destruct Hin_a as [E|Hin_a]; [auto|].
      destruct Hin_b as [E|Hin_b]; [auto|].
      apply Hinj; [left; reflexivity|right; exact Hin_b|].
      apply le_antisym; [apply Ha; exact Hin_b|apply Hb; exact Hin_a]. }
    subst b. f_equal. apply IH; [exact H2| |].
    + exact (Permutation_cons_inv Hp).
    + intros x y Hx Hy. apply Hinj; right; assumption.
Qed.

Lemma sort_taken (l l' : list A) :
  Permutation l l' ->
  (forall x y, In x l -> In y l -> c x y = Eq -> x = y) ->
  Order.sort c l' = Order.sort c l.
Proof.
  intros Hp Hinj. symmetry. apply sorted_perm_eq.
  - apply (@sort_sorted _ c Hc).
  - apply (@sort_sorted _ c Hc).
  - rewrite (@sort_perm _ c l), (@sort_perm _ c l'). exact Hp.
  - intros x y Hx Hy. apply Hinj; apply (proj1 (@sort_In _ c _ _));
      assumption.
Qed.

End Sorted.

Lemma NoDup_map_eq {A B} (f : A -> B) (l : list A) (x y : A) :
  NoDup (map f l) -> In x l -> In y l -> f x = f y -> x = y.
Proof.
  induction l as [|a l IH]; simpl; [intros _ []|].
  intros Hnd Hx Hy E. inversion Hnd as [|? ? Hn Hnd']; subst.
  destruct Hx as [<-|Hx], Hy as [<-|Hy]; auto.
  - exfalso. apply Hn. rewrite E. apply in_map. exact Hy.
  - exfalso. apply Hn. rewrite <- E. apply in_map. exact Hx.
Qed.

(** The keys of the first two sorts tell the slots apart. *)
Lemma string_compare_Eq (x y : string) :
  String_as_OT.compare x y = Eq -> x = y.
Proof.
  intros H. destruct (String_as_OT.compare_spec x y) as [E|L|G];
    try discriminate. exact E.
Qed.

Lemma by_cusip_date_Eq (x y : Row.t) :
  by_cusip_date x y = Eq -> slotOf x = slotOf y.
Proof.
  unfold by_cusip_date, Order.lex, Order.on, slotOf.
  destruct (String_as_OT.compare (Row.cusip x) (Row.cusip y)) eqn:E;
    try discriminate.
  intros H. apply string_compare_Eq in E. apply Z.compare_eq in H.
  congruence.
Qed.

Lemma by_cusip_desc_date_Eq (x y : Row.t) :
  by_cusip_desc_date x y = Eq -> slotOf x = slotOf y.
Proof.
  unfold by_cusip_desc_date, Order.lex, Order.on, Order.desc, slotOf.
  destruct (String_as_OT.compare (Row.cusip y) (Row.cusip x)) eqn:E;
    try discriminate.
  destruct (Row.date x ?= Row.date y) eqn:D; try discriminate.
  intros _. apply string_compare_Eq in E. apply Z.compare_eq in D.
  congruence.
Qed.

(** With one record per slot at most, the join has one row for each slot
    of the calendar, and so has the frame after the fills. *)
Lemma slot_eqb_eq (k k' : string * Z) : slot_eqb k k' = true <-> k = k'.
Proof.
  unfold slot_eqb. rewrite andb_true_iff, String.eqb_eq, Z.eqb_eq.
  destruct k, k'; simpl. split; [intros (-> & ->)|intros [= -> ->]]; auto.
Qed.

Lemma matches_datedSlot (c : string) (d : Z) (a : AuctionData.t) :
  matches c d a = true <-> datedSlot a = Some (c, d).
Proof.
  unfold matches, datedSlot.
  destruct (AuctionData.date a) as [x|]; cbn.
  - destruct (Z.eqb_spec x d) as [->|Hne].
    + rewrite andb_true_r, String.eqb_eq.
      split; [intros ->|intros [= ->]]; auto.
    + rewrite andb_false_r. split; [discriminate|]. intros [= _ E].
      contradiction.
  - rewrite andb_false_r. split; discriminate.
Qed.

Lemma distinctSlots_filter (keys : list (string * Z)) (k : string * Z) :
  distinctSlots keys = true ->
  (List.length (filter (slot_eqb k) keys) <= 1)%nat.
Proof.
  induction keys as [|k0 ks IH]; cbn [distinctSlots filter]; [cbn; lia|].
  intros H. apply andb_true_iff in H as (Hn & Hd).
  destruct (slot_eqb k k0) eqn:E; [|exact (IH Hd)].
  apply slot_eqb_eq in E. subst k0.
  rewrite (@filter_none _ (slot_eqb k) ks); [cbn; lia|].
  intros x Hx. destruct (slot_eqb k x) eqn:F; [|reflexivity].
  apply negb_true_iff in Hn. rewrite <- Hn. symmetry.
  apply existsb_exists. eauto.
Qed.

Lemma matches_length (c : string) (d : Z) (aD : list AuctionData.t) :
  List.length (filter (matches c d) aD)
  = List.length (filter (slot_eqb (c, d)) (non_null (map datedSlot aD))).
Proof.
  induction aD as [|a aD IH]; [reflexivity|].
  cbn [map non_null flat_map filter].
  pose proof (@matches_datedSlot c d a) as Hm.
  destruct (datedSlot a) as [k|] eqn:K; cbn [app filter].
  - destruct (matches c d a) eqn:M.
    + assert (Hk : Some k = Some (c, d)) by (apply Hm; reflexivity).
      injection Hk as ->.
      rewrite (proj2 (@slot_eqb_eq (c, d) (c, d)) eq_refl).
      cbn [List.length]. f_equal. exact IH.
    + destruct (slot_eqb (c, d) k) eqn:S; [|exact IH].
      apply slot_eqb_eq in S. subst k.
      discriminate (proj2 Hm eq_refl).
  - destruct (matches c d a) eqn:M; [|exact IH].
    assert (Hk : None = Some (c, d)) by (apply Hm; reflexivity).
    discriminate.
Qed.

Lemma oneRecordPerSlot_spec (aD : list AuctionData.t) (c : string) (d : Z) :
  oneRecordPerSlot aD = true ->
  (List.length (filter (matches c d) aD) <= 1)%nat.
Proof.
  intros H. rewrite matches_length. apply distinctSlots_filter. exact H.
Qed.

Lemma joinSlot_slots (aD : list AuctionData.t) (cd : string * Z) :
  oneRecordPerSlot aD = true -> map slotOf (joinSlot aD cd) = [cd].
Proof.
  intros H.
  pose proof (@oneRecordPerSlot_spec aD (fst cd) (snd cd) H) as Hl.
  unfold joinSlot.
  destruct (filter (matches (fst cd) (snd cd)) aD) as [|m [|m' ms]];
    cbn in *; try lia; destruct cd; reflexivity.
Qed.

Lemma leftJoin_slots (dates : list (string * Z)) (aD : list AuctionData.t) :
  oneRecordPerSlot aD = true -> map slotOf (leftJoin dates aD) = dates.
Proof.
  intros H. induction dates as [|cd dates IH]; [reflexivity|].
  rewrite leftJoin_cons, map_app, (@joinSlot_slots aD cd H), IH.
  reflexivity.
Qed.

Lemma Forall2_slots (R : Row.t -> Row.t -> Prop) (l l' : list Row.t) :
  (forall a b, R a b -> slotOf b = slotOf a) ->
  Forall2 R l l' -> map slotOf l' = map slotOf l.
Proof.
  intros H. induction 1 as [|a b l l' Hab HF IH]; [reflexivity|].
  cbn [map]. rewrite (H a b Hab), IH. reflexivity.
Qed.

Lemma zeroed_slots (rows : list Row.t) :
  map slotOf
      (map zeroAmountIssued (backwardFillStatic (forwardFillStatic rows)))
  = map slotOf rows.
Proof.
  rewrite map_map.
  rewrite (@map_ext _ _ (fun x => slotOf (zeroAmountIssued x)) slotOf
             (fun x => eq_refl)).
  apply (@Forall2_slots FillStep).
  - intros a b (Hc & Hd & _). unfold slotOf. congruence.
  - eapply Forall2_trans; [exact FillStep_trans| |].
    + apply forwardFillStatic_step.
    + apply backwardFillStatic_step.
Qed.

(** The calendar does not depend on the order of the groups, but for the
    order of its slots. *)
Lemma Forall2_perm {A B} (R : A -> B -> Prop) (l l' : list A) (ys : list B) :
  Permutation l l' -> Forall2 R l ys ->
  exists ys', Permutation ys ys' /\ Forall2 R l' ys'.
Proof.
  intros Hp. revert ys.
  induction Hp as [|x l l' Hp IH|x x' l|l l' l'' Hp1 IH1 Hp2 IH2];
    intros ys HF.
  - inversion HF. subst. exists []. split; constructor.
  - inversion HF as [|? y ? ys0 Hy HF0]; subst.
    destruct (IH ys0 HF0) as (ys' & Hp' & HF').
    exists (y :: ys'). split; constructor; assumption.
  - inversion HF as [|? y ? ys0 Hy HF0]; subst.
    inversion HF0 as [|? y' ? ys1 Hy' HF1]; subst.
    exists (y' :: y :: ys1). split; [apply perm_swap|].
    constructor; [exact Hy'|]. constructor; [exact Hy|exact HF1].
  - destruct (IH1 ys HF) as (ys' & Hp' & HF').
    destruct (IH2 ys' HF') as (ys'' & Hp'' & HF'').
    exists ys''. split; [exact (perm_trans Hp' Hp'')|exact HF''].
Qed.

Lemma Permutation_concat {A} (ys ys' : list (list A)) :
  Permutation ys ys' -> Permutation (List.concat ys) (List.concat ys').
Proof.
  induction 1 as [|y ys ys' Hp IH|y y' ys|ys ys' ys'' Hp1 IH1 Hp2 IH2];
    cbn [List.concat].
  - constructor.
  - apply Permutation_app_head. exact IH.
  - rewrite !app_assoc. apply Permutation_app_tail, Permutation_app_comm.
  - exact (perm_trans IH1 IH2).
Qed.

Lemma Forall2_map_l {A B C} (R : B -> C -> Prop) (f : A -> B) l l' :
  Forall2 R (map f l) l' <-> Forall2 (fun a c => R (f a) c) l l'.
Proof.
  revert l'. induction l as [|a l IH]; intros l'; simpl.
  - split; intros H; inversion H; constructor.
  - split; intros H; inversion H; subst; constructor; auto; apply IH; auto.
Qed.

Lemma Forall2_functional {A B} (f : A -> result B) (l : list A)
  (ys ys' : list B) :
  Forall2 (fun x y => f x = Ok y) l ys ->
  Forall2 (fun x y => f x = Ok y) l ys' -> ys = ys'.
Proof.
  intros H. revert ys'. induction H as [|x y l ys Hy HF IH]; intros ys' H'.
  - inversion H'. reflexivity.
  - inversion H' as [|? y' ? ys0 Hy' HF']; subst.
    rewrite Hy in Hy'. injection Hy' as <-. f_equal. exact (IH _ HF').
Qed.

Lemma calendars_agree (today : Z) (ranges ranges' : list DateRange)
  (dates dates' : list (string * Z)) :
  Permutation ranges ranges' ->
  calendarOf today ranges = Ok dates ->
  calendarOf today ranges' = Ok dates' ->
  Permutation dates dates'.
Proof.
  intros Hp H H'.
  apply calendarOf_Ok in H as (y & ys & HF & _ & ->).
  apply calendarOf_Ok in H' as (y' & ys' & HF' & _ & ->).
  destruct (@Forall2_perm _ _ _ ranges ranges' (y :: ys) Hp HF)
    as (zs & Hpz & HFz).
  rewrite <- (@Forall2_functional _ _ _ ranges' zs (y' :: ys') HFz HF').
  apply Permutation_concat. exact Hpz.
Qed.

(** The groups a run takes are those of the cusips of the frame, each
    once. *)
Lemma groups_taken (t : Ties) (auctionsDf : list Auction.t) :
  Fair t ->
  exists cs,
    takeGroups t (cusipDateRanges auctionsDf)
    = map (dateRangeOf auctionsDf) cs /\
    Permutation (unique (map Auction.cusip auctionsDf)) cs.
Proof.
  intros (Hg & _). unfold cusipDateRanges.
  destruct (Permutation_map_inv _ _
              (Permutation_sym
                 (Hg (map (dateRangeOf auctionsDf)
                          (unique (map Auction.cusip auctionsDf))))))
    as (cs & E & Hp).
  exists cs. split; [exact E|exact Hp].
Qed.

Lemma run_calendar (t : Ties) (today : Z) (auctionsDf : list Auction.t)
  (dates : list (string * Z)) :
  Fair t ->
  calendarOf today (takeGroups t (cusipDateRanges auctionsDf)) = Ok dates ->
  NoDup dates.
Proof.
  intros Ht H.
  destruct (@groups_taken t auctionsDf Ht) as (cs & E & Hp).
  rewrite E in H. apply calendarOf_Ok in H as (y & ys & HF & _ & ->).
  apply Forall2_map_l in HF.
  refine (proj1 (@calendar_of today auctionsDf cs (y :: ys) _ HF)).
  exact (Permutation_NoDup Hp (unique_NoDup _)).
Qed.

Lemma run_built (t : Ties) (w : World) (auctionsDf : list Auction.t) :
  Fair t -> auctionsDf <> [] ->
  (forall c, In c (map Auction.cusip auctionsDf) ->
     exists d, inSpan (date_today w) auctionsDf c d) ->
  exists panel, run t w auctionsDf = Ok panel.
Proof.
  intros Ht Hne Hsp.
  destruct (@groups_taken t auctionsDf Ht) as (cs & E & Hp).
  destruct (@calendar_built (date_today w) auctionsDf cs) as (dates & Hd).
  - intros ->. apply Permutation_sym, Permutation_nil in Hp.
    destruct auctionsDf as [|r df]; [contradiction|].
    assert (Hin : In (Auction.cusip r)
                     (unique (map Auction.cusip (r :: df))))
      by (apply unique_In; left; reflexivity).
    rewrite Hp in Hin. destruct Hin.
  - intros c Hc. apply Hsp. apply (proj1 (unique_In _ _)).
    exact (Permutation_in _ (Permutation_sym Hp) Hc).
  - unfold run. cbv zeta. rewrite E, Hd. cbn [bind]. eauto.
Qed.

(** The panel of a run, when no two records are joined to one slot: the
    first two sorts have no ties to break, and the run returns the rows of
    [buildPanel] in some order. *)
Lemma buildPanelOf_rows (t : Ties) (today : Z) (auctionsDf : list Auction.t)
  (dates dates' : list (string * Z)) :
  Fair t -> NoDup dates -> Permutation dates dates' ->
  oneRecordPerSlot (auctionData today auctionsDf) = true ->
  Permutation (buildPanelOf t today auctionsDf dates')
              (buildPanel today auctionsDf dates).
Proof.
  intros (_ & Hj & Hz & Hr) Hnd Hp Hone.
  unfold buildPanelOf, summedFrameOf, zeroedFrameOf, unstable_sort.
  unfold buildPanel, summedFrame, zeroedFrame. cbv zeta.
  remember (auctionData today auctionsDf) as aD eqn:EaD.
  assert (Hslots : map slotOf (leftJoin dates aD) = dates)
    by (apply leftJoin_slots; exact Hone).
  assert (E1 : Order.sort by_cusip_date (takeJoined t (leftJoin dates' aD))
               = Order.sort by_cusip_date (leftJoin dates aD)).
  { apply (@sort_taken _ by_cusip_date Lawful_by_cusip_date).
    - refine (perm_trans _ (Hj _)). unfold leftJoin.
      apply Permutation_flat_map. exact Hp.
    - intros x y Hx Hy E. apply by_cusip_date_Eq in E.
      refine (@NoDup_map_eq _ _ slotOf (leftJoin dates aD) x y _ Hx Hy E).
      rewrite Hslots. exact Hnd. }
  rewrite E1.
  remember (map zeroAmountIssued
              (backwardFillStatic
                 (forwardFillStatic
                    (Order.sort by_cusip_date (leftJoin dates aD)))))
    as zeroed eqn:Ez.
  assert (Hzs : NoDup (map slotOf zeroed)).
  { rewrite Ez, zeroed_slots.
    assert (Hps : Permutation
                    (map slotOf (leftJoin dates aD))
                    (map slotOf
                       (Order.sort by_cusip_date (leftJoin dates aD))))
      by (apply Permutation_map, Permutation_sym;
          apply (@sort_perm _ by_cusip_date)).
    rewrite Hslots in Hps. exact (Permutation_NoDup Hps Hnd). }
  assert (E2 : Order.sort by_cusip_desc_date (takeZeroed t zeroed)
               = Order.sort by_cusip_desc_date zeroed).
  { apply (@sort_taken _ by_cusip_desc_date Lawful_by_cusip_desc_date).
    - apply Hz.
    - intros x y Hx Hy E. apply by_cusip_desc_date_Eq in E.
      exact (@NoDup_map_eq _ _ slotOf zeroed x y Hzs Hx Hy E). }
  rewrite E2.
  remember (filter isBusinessDay
              (computeVintage
                 (cumulativeIssuance
                    (Order.sort by_cusip_desc_date zeroed))))
    as weekdays eqn:Ew.
  rewrite (@sort_perm _ finalOrder (takeRanked t weekdays)).
  rewrite (@sort_perm _ finalOrder weekdays).
  apply Permutation_sym, Hr.
Qed.

Lemma run_Ok (t : Ties) (w : World) (auctionsDf : list Auction.t)
  (panel : list Row.t) :
  run t w auctionsDf = Ok panel <->
  exists dates,
    calendarOf (date_today w) (takeGroups t (cusipDateRanges auctionsDf))
    = Ok dates /\
    panel = buildPanelOf t (date_today w) auctionsDf dates.
Proof.
  unfold run. cbv zeta.
  destruct (calendarOf _ _) as [dates|e]; cbn [bind]; split.
  - intros [= <-]. eauto.
  - intros (d & [= <-] & ->). reflexivity.
  - discriminate.
  - intros (d & H & _). discriminate.
Qed.

(** [_createCusipPanel] is the run that takes everything as it finds
    it. *)
Lemma createCusipPanel_asFound (w : World) (auctionsDf : list Auction.t) :
  _createCusipPanel w auctionsDf = run asFound w auctionsDf.
Proof. reflexivity. Qed.

(** C4 (amended).  The builder takes no reference date: it reads the
    clock.  Take two runs on the same records whose clocks show the same
    date, whatever the order in which [group_by] gives the groups and the
    sorts leave tied rows.  When the frame is not empty and the span of
    every cusip has a day, both return a panel.  When both return a panel
    and no two records of the auction data are joined to one slot, the two
    panels hold the same rows, each as many times, and both are in the
    final sort order: they differ in the order of rows with equal sort keys
    at most. *)
Theorem same_date_same_rows (t t' : Ties) (w w' : World)
  (auctionsDf : list Auction.t) :
  Fair t -> Fair t' -> date_today w = date_today w' ->
  (auctionsDf <> [] ->
   (forall c, In c (map Auction.cusip auctionsDf) ->
      exists d, inSpan (date_today w) auctionsDf c d) ->
   exists panel panel',
     run t w auctionsDf = Ok panel /\ run t' w' auctionsDf = Ok panel') /\
  (oneRecordPerSlot (auctionData (date_today w) auctionsDf) = true ->
   forall panel panel',
     run t w auctionsDf = Ok panel -> run t' w' auctionsDf = Ok panel' ->
     Permutation panel panel' /\
     StronglySorted (Order.le finalOrder) panel /\
     StronglySorted (Order.le finalOrder) panel').
Proof.
  intros Ht Ht' Hw.
  assert (Hrun : run t' w' auctionsDf = run t' w auctionsDf)
    by (unfold run; rewrite Hw; reflexivity).
  rewrite Hrun. clear Hrun Hw w'. split.
  - intros Hne Hsp.
    destruct (@run_built t w auctionsDf Ht Hne Hsp) as (panel & H).
    destruct (@run_built t' w auctionsDf Ht' Hne Hsp) as (panel' & H').
    eauto.
  - intros Hone panel panel' H H'.
    apply run_Ok in H as (dt & Hdt & ->).
    apply run_Ok in H' as (dt' & Hdt' & ->).
    pose proof (@run_calendar t (date_today w) auctionsDf dt Ht Hdt)
      as Hnd.
    assert (Hp : Permutation dt dt').
    { refine (@calendars_agree (date_today w) _ _ dt dt' _ Hdt Hdt').
      exact (perm_trans (Permutation_sym (proj1 Ht _)) (proj1 Ht' _)). }
    split; [|split].
    + rewrite (@buildPanelOf_rows t (date_today w) auctionsDf dt dt
                 Ht Hnd (Permutation_refl _) Hone).
      rewrite (@buildPanelOf_rows t' (date_today w) auctionsDf dt dt'
                 Ht' Hnd Hp Hone).
      reflexivity.
    + unfold buildPanelOf, unstable_sort.
      apply (@sort_sorted _ finalOrder Lawful_finalOrder).
    + unfold buildPanelOf, unstable_sort.
      apply (@sort_sorted _ finalOrder Lawful_finalOrder).
Qed.

Lemma Fair_asFound : Fair asFound.
Proof. repeat split; intros l; apply Permutation_refl. Defined.

Lemma Fair_reversed : Fair reversed.
Proof. repeat split; intros l; apply Permutation_rev. Defined.

Lemma Fair_reversedBeforeSum : Fair reversedBeforeSum.
Proof.
  repeat split; intros l;
    first [apply Permutation_refl|apply Permutation_rev].
Defined.

Lemma same_date_same_rows_witness :
  Fair asFound /\ Fair reversed /\
  date_today Sample.friday = date_today Sample.friday_later /\
  oneRecordPerSlot
    (auctionData (date_today Sample.friday) Sample.one_pending) = true /\
  (exists panel panel',
     run asFound Sample.friday Sample.one_pending = Ok panel /\
     run reversed Sample.friday_later Sample.one_pending = Ok panel') /\
  Permutation (panel_in asFound Sample.friday Sample.one_pending)
              (panel_in reversed Sample.friday_later Sample.one_pending).
Proof.
  assert (Hd : date_today Sample.friday = date_today Sample.friday_later)
    by reflexivity.
  assert (Hone : oneRecordPerSlot
                   (auctionData (date_today Sample.friday)
                      Sample.one_pending) = true)
    by (vm_compute; reflexivity).
  assert (H1 : run asFound Sample.friday Sample.one_pending
               = Ok (panel_in asFound Sample.friday Sample.one_pending))
    by (vm_compute; reflexivity).
  assert (H2 : run reversed Sample.friday_later Sample.one_pending
               = Ok (panel_in reversed Sample.friday_later
                       Sample.one_pending))
    by (vm_compute; reflexivity).
  assert (Hne : Sample.one_pending <> []) by discriminate.
  assert (Hsp : forall c, In c (map Auction.cusip Sample.one_pending) ->
                  exists d, inSpan (date_today Sample.friday)
                              Sample.one_pending c d).
  { intros c [<-|[<-|[]]].
    - exists 19993, 19993, 20024. repeat split; vm_compute; congruence.
    - exists 19998, 19998, 20031. repeat split; vm_compute; congruence. }
  split; [exact Fair_asFound|]. split; [exact Fair_reversed|].
  split; [exact Hd|]. split; [exact Hone|].
  destruct (@same_date_same_rows asFound reversed Sample.friday
              Sample.friday_later Sample.one_pending
              Fair_asFound Fair_reversed Hd) as (Hboth & Hsame).
  split; [exact (Hboth Hne Hsp)|].
  exact (proj1 (Hsame Hone _ _ H1 H2)).
Defined.

(** With two records joined to one slot, two runs on the same day can
    return rows that differ: the running total of a row depends on which
    of the two rows of the slot the sort before the sum puts first. *)
Example tied_rows_differ_between_runs :
  Fair asFound /\ Fair reversedBeforeSum /\
  map (fun r => (Attrs.amountIssued (Row.attrs r), Row.totalIssued r))
      (rowsAt "912797LA" 19996
         (panel_in asFound Sample.friday Sample.same_day_twice))
  = [(Some 100, Some 100); (Some 50, Some 150)] /\
  map (fun r => (Attrs.amountIssued (Row.attrs r), Row.totalIssued r))
      (rowsAt "912797LA" 19996
         (panel_in reversedBeforeSum Sample.friday Sample.same_day_twice))
  = [(Some 50, Some 50); (Some 100, Some 150)].
Proof.
  split; [exact Fair_asFound|]. split; [exact Fair_reversedBeforeSum|].
  split; vm_compute; reflexivity.
Qed.

End TieFacts.

(** * TenorClassifier: further properties *)

Module TenorProperties.
Import TenorClassifier TenorTable TenorFacts.

Lemma in_band_days (b : Band) (d : DayBand) (t : Z) :
  (lo b <= inject_Z t <-> inject_Z (first_day d) <= inject_Z t)%Q ->
  (inject_Z t <= hi b <-> inject_Z t <= inject_Z (last_day d))%Q ->
  in_band b t = in_days d t.
Proof.
  intros Hlo Hhi. apply eq_true_iff_eq.
  rewrite in_band_iff. unfold in_days.
  rewrite andb_true_iff, !Z.leb_le, Hlo, Hhi, <- !Zle_Qle. reflexivity.
Qed.

Lemma tables_agree :
  Forall2 (fun b d => label b = tenor_of d /\
                      forall t, in_band b t = in_days d t)
          bands day_bands.
Proof.
  unfold bands, day_bands.
  repeat (constructor;
          [split; [reflexivity|];
           intros t; apply in_band_days; unfold Qle; simpl; lia|]).
  constructor.
Qed.

Lemma first_match_days (bs : list Band) (ds : list DayBand) (t : Z) :
  Forall2 (fun b d => label b = tenor_of d /\
                      forall t, in_band b t = in_days d t) bs ds ->
  first_match bs t = first_in_days ds t.
Proof.
  induction 1 as [|b d bs ds (Hl & Hb) _ IH]; [reflexivity|].
  cbn [first_match first_in_days]. rewrite Hb, Hl, IH. reflexivity.
Qed.

Lemma assignTenor_days (t : Z) :
  assignTenor (Some t) = first_in_days day_bands t.
Proof.
  rewrite assignTenor_first_match. apply first_match_days, tables_agree.
Qed.

(** X8.  In whole days, the chain of bands is the table [day_bands]: the
    tenor of a term of [t] days is that of the one range of the table that
    holds [t] (bills of 6-8, 13-15, 26-30, 53-59, 86-96, 114-124, 149-159,
    176-188 and 357-371 days; notes and bonds of 638-823, 1003-1188,
    1368-1554, 1647-2006, 2377-2736, 3413-3892, 6765-7845 and 10238-11677
    days), and null when no range holds it or the term is null. *)
Theorem tenor_in_whole_days (t : Z) :
  assignTenor None = None /\
  assignTenor (Some t) = first_in_days day_bands t /\
  (forall w, assignTenor (Some t) = Some w <->
             exists d, In d day_bands /\ in_days d t = true /\
                       tenor_of d = w) /\
  (assignTenor (Some t) = None <->
   forall d, In d day_bands -> in_days d t = false).
Proof.
  split; [reflexivity|]. split; [apply assignTenor_days|].
  rewrite assignTenor_days.
  assert (Hone : forall d1 d2, In d1 day_bands -> In d2 day_bands ->
            in_days d1 t = true -> in_days d2 t = true -> d1 = d2).
  { unfold day_bands, in_days. intros d1 d2 H1 H2 T1 T2.
    apply andb_true_iff in T1 as (A1 & B1).
    apply andb_true_iff in T2 as (A2 & B2).
    apply Z.leb_le in A1, B1, A2, B2.
    cbn [In] in H1, H2.
    repeat (destruct H1 as [<-|H1]); try contradiction;
      repeat (destruct H2 as [<-|H2]); try contradiction;
      cbn in A1, B1, A2, B2; first [reflexivity|lia]. }
  assert (Hfirst : forall ds, (forall d, In d ds -> In d day_bands) ->
            forall w, first_in_days ds t = Some w <->
              exists d, In d ds /\ in_days d t = true /\ tenor_of d = w).
  { induction ds as [|d ds IH]; intros Hsub w; cbn [first_in_days].
    - split; [discriminate|]. intros (d & [] & _).
    - destruct (in_days d t) eqn:E.
      + split.
        * intros [= <-]. exists d. split; [left; reflexivity|auto].
        * intros (d' & Hd' & E' & <-).
          rewrite (Hone d d' (Hsub d (or_introl eq_refl)) (Hsub d' Hd')
                     E E').
          reflexivity.
      + rewrite IH by (intros d' Hd'; apply Hsub; right; exact Hd').
        split; intros (d' & Hd' & E' & Hw).
        * exists d'. split; [right; exact Hd'|auto].
        * destruct Hd' as [<-|Hd']; [congruence|]. exists d'. auto. }
  split.
  - apply Hfirst. auto.
  - split.
    + intros Hn d Hd. destruct (in_days d t) eqn:E; [|reflexivity].
      assert (H : first_in_days day_bands t = Some (tenor_of d))
        by (apply Hfirst; [auto|exists d; auto]).
      congruence.
    + intros Hn. destruct (first_in_days day_bands t) as [w|] eqn:E;
        [|reflexivity].
      apply Hfirst in E as (d & Hd & E & _); [|auto].
      rewrite (Hn d Hd) in E. discriminate.
Qed.

Ltac decide_days :=
  repeat match goal with
         | |- context [Z.leb ?a ?b] =>
             destruct (Z.leb_spec a b); try lia; cbn [andb]
         end.

(** X9.  Nominal terms get their tenor: a term within a day of [w] weeks,
    for a bill tenor [w], is classified [w]; a term of [n] years counted at
    365 to 366 days a year, for a note or bond tenor [n], is classified
    [n]. *)
Theorem nominal_terms_classified :
  (forall w t, In w bill_tenors -> 7 * w - 1 <= t <= 7 * w + 1 ->
     assignTenor (Some t) = Some w) /\
  (forall n t, In n coupon_tenors -> 365 * n <= t <= 366 * n ->
     assignTenor (Some t) = Some n).
Proof.
  split; intros n t Hn Ht; rewrite assignTenor_days;
    unfold bill_tenors, coupon_tenors in Hn; cbn [In] in Hn;
    repeat (destruct Hn as [<-|Hn]); try contradiction;
    unfold day_bands, first_in_days, in_days;
    cbn [first_day last_day tenor_of]; decide_days; reflexivity.
Qed.

Lemma nominal_terms_classified_witness :
  In 10 coupon_tenors /\ 365 * 10 <= 3653 <= 366 * 10 /\
  assignTenor (Some 3653) = Some 10.
Proof.
  assert (Hn : In 10 coupon_tenors) by (vm_compute; tauto).
  assert (Ht : 365 * 10 <= 3653 <= 366 * 10) by lia.
  split; [exact Hn|]. split; [exact Ht|].
  exact (proj2 nominal_terms_classified 10 3653 Hn Ht).
Defined.




End TenorProperties.

(** * Fetcher: the pages of a download *)

Module FetchFacts.
Import Fetcher.

Lemma pageSize_pos : 0 < pageSize.
Proof. reflexivity. Qed.

Section Steps.
Context {R : Type} (server : Request -> Response R).
Context (startDate endDate : string).

#[local] Abbreviation loop := (fetch_loop server startDate endDate).
#[local] Abbreviation query := (params startDate endDate).

(** One round of the loop, by what the service answers. *)
Lemma round_full (fuel : nat) (p : Z) (all : list R) (sent : list Request) :
  FullPage (server (query p)) ->
  exists rows,
    data (server (query p)) = Some rows /\
    loop (S fuel) p all sent
    = loop fuel (p + 1) (all ++ rows) (sent ++ [query p]).
Proof.
  intros (Hs & rows & Hd & Hlen). exists rows. split; [exact Hd|].
  pose proof pageSize_pos.
  cbn [fetch_loop]. rewrite Hs, Hd. cbn [Z.eqb Pos.eqb negb].
  destruct (Z.eqb_spec (Z.of_nat (List.length rows)) 0); [lia|].
  destruct (Z.ltb_spec (Z.of_nat (List.length rows)) pageSize); [lia|].
  reflexivity.
Qed.

Lemma round_failed (fuel : nat) (p : Z) (all : list R) (sent : list Request) :
  status_code (server (query p)) <> 200 ->
  loop (S fuel) p all sent
  = Some (ApiRequestFailed p (status_code (server (query p))),
          sent ++ [query p]).
Proof.
  intros Hs. cbn [fetch_loop].
  destruct (Z.eqb_spec (status_code (server (query p))) 200);
    [contradiction|reflexivity].
Qed.

Lemma round_short (fuel : nat) (p : Z) (all rows : list R)
  (sent : list Request) :
  status_code (server (query p)) = 200 ->
  data (server (query p)) = Some rows ->
  Z.of_nat (List.length rows) < pageSize ->
  loop (S fuel) p all sent = Some (Fetched (all ++ rows), sent ++ [query p]).
Proof.
  intros Hs Hd Hlen. cbn [fetch_loop]. rewrite Hs, Hd.
  cbn [Z.eqb Pos.eqb negb].
  destruct (Z.eqb_spec (Z.of_nat (List.length rows)) 0) as [E|E].
  - destruct rows; [|discriminate E]. rewrite app_nil_r. reflexivity.
  - destruct (Z.ltb_spec (Z.of_nat (List.length rows)) pageSize); [|lia].
    reflexivity.
Qed.

(** The loop goes through a run of full pages. *)
Lemma loop_full_pages (m : nat) :
  forall (fuel : nat) (p : Z) (all : list R) (sent : list Request),
    (forall i, p <= i < p + Z.of_nat m -> FullPage (server (query i))) ->
    exists all',
      loop (m + fuel) p all sent
      = loop fuel (p + Z.of_nat m) all'
          (sent ++ map (fun i => query (p + Z.of_nat i)) (seq 0 m)).
Proof.
  induction m as [|m IH]; intros fuel p all sent Hfull.
  - exists all. cbn [Nat.add seq map]. rewrite app_nil_r, Z.add_0_r.
    reflexivity.
  - destruct (@round_full (m + fuel) p all sent) as (rows & _ & E);
      [apply Hfull; lia|].
    cbn [Nat.add]. rewrite E.
    destruct (IH fuel (p + 1) (all ++ rows) (sent ++ [query p]))
      as (all' & E'); [intros i Hi; apply Hfull; lia|].
    exists all'. rewrite E'. f_equal; [lia|].
    rewrite <- app_assoc. f_equal. cbn [app seq map].
    rewrite Z.add_0_r. f_equal.
    rewrite <- seq_shift, map_map. apply map_ext. intros i.
    f_equal. lia.
Qed.

Lemma requests_from_one (k : nat) :
  requests startDate endDate k
  = map (fun i => query (1 + Z.of_nat i)) (seq 0 k).
Proof.
  unfold requests. rewrite <- seq_shift, map_map. apply map_ext.
  intros i. f_equal. lia.
Qed.

Lemma requests_S (k : nat) :
  requests startDate endDate (S k)
  = requests startDate endDate k ++ [query (Z.of_nat (S k))].
Proof.
  unfold requests. rewrite seq_S, map_app. reflexivity.
Qed.

End Steps.

(** X12.  A status other than 200 ends the download with the exception:
    when the pages before page [p] are full pages and page [p] comes with
    status [st], not 200, the call raises for page [p] and status [st],
    returns none of the rows already read, and has sent the requests for
    the pages 1 to [p] and no other. *)
Theorem fetch_fails_on_bad_status {R : Type}
  (server : Request -> Response R) (startDate endDate : string)
  (p : nat) (st : Z) (fuel : nat) :
  (forall i, 1 <= i < Z.of_nat (S p) ->
     FullPage (server (params startDate endDate i))) ->
  status_code (server (params startDate endDate (Z.of_nat (S p)))) = st ->
  st <> 200 -> (p < fuel)%nat ->
  _fetchAuctionData server startDate endDate fuel
  = Some (ApiRequestFailed (Z.of_nat (S p)) st,
          requests startDate endDate (S p)).
Proof.
  intros Hfull Hst Hne Hfuel. unfold _fetchAuctionData.
  replace fuel with (p + S (fuel - S p))%nat by lia.
  destruct (@loop_full_pages R server startDate endDate p
              (S (fuel - S p)) 1 [] []) as (all' & E);
    [intros i Hi; apply Hfull; lia|].
  rewrite E. replace (1 + Z.of_nat p) with (Z.of_nat (S p)) by lia.
  rewrite round_failed by (rewrite Hst; exact Hne).
  rewrite Hst, requests_S, requests_from_one. reflexivity.
Qed.

Lemma fetch_fails_on_bad_status_witness :
  let server := fun _ : Request =>
                  {| status_code := 503; data := @None (list nat) |} in
  status_code (server (params "2024-01-01" "2024-01-31" 1)) = 503 /\
  _fetchAuctionData server "2024-01-01" "2024-01-31" 1
  = Some (ApiRequestFailed 1 503, requests "2024-01-01" "2024-01-31" 1).
Proof.
  intros server.
  assert (Hst : status_code (server (params "2024-01-01" "2024-01-31"
                                            (Z.of_nat 1))) = 503)
    by reflexivity.
  split; [exact Hst|].
  apply (@fetch_fails_on_bad_status nat server "2024-01-01" "2024-01-31"
           0 503 1).
  - intros i Hi. lia.
  - exact Hst.
  - discriminate.
  - lia.
Defined.

(** X13.  The loop has no bound of its own: as long as every page comes
    with status 200 and at least [pageSize] rows it asks for the next one,
    so against a service all of whose pages are full no number of rounds
    ends the call. *)
Theorem fetch_runs_while_pages_are_full {R : Type}
  (server : Request -> Response R) (startDate endDate : string) :
  (forall i, 1 <= i -> FullPage (server (params startDate endDate i))) ->
  forall fuel, _fetchAuctionData server startDate endDate fuel = None.
Proof.
  intros Hfull fuel. unfold _fetchAuctionData.
  destruct (@loop_full_pages R server startDate endDate fuel 0 1 [] [])
    as (all' & E); [intros i Hi; apply Hfull; lia|].
  rewrite Nat.add_0_r in E. rewrite E. reflexivity.
Qed.

Lemma fetch_runs_while_pages_are_full_witness :
  let server := fun _ : Request =>
                  {| status_code := 200;
                     data := Some (repeat 0%nat (Z.to_nat pageSize)) |} in
  (forall i, 1 <= i ->
     FullPage (server (params "2024-01-01" "2024-01-31" i))) /\
  _fetchAuctionData server "2024-01-01" "2024-01-31" 3 = None.
Proof.
  intros server.
  assert (Hfull : forall i, 1 <= i ->
            FullPage (server (params "2024-01-01" "2024-01-31" i))).
  { intros i _. split; [reflexivity|].
    exists (repeat 0%nat (Z.to_nat pageSize)). split; [reflexivity|].
    rewrite repeat_length, Z2Nat.id; [lia|]. discriminate. }
  split; [exact Hfull|].
  exact (@fetch_runs_while_pages_are_full nat server "2024-01-01"
           "2024-01-31" Hfull 3%nat).
Defined.

(** *** A service that pages through its records *)

Lemma firstn_plus {A} (a b : nat) (l : list A) :
  firstn (a + b) l = firstn a l ++ firstn b (skipn a l).
Proof.
  revert l. induction a as [|a IH]; intros l; [reflexivity|].
  destruct l as [|x l]; cbn [Nat.add firstn skipn app].
  - rewrite firstn_nil. reflexivity.
  - rewrite IH. reflexivity.
Qed.

Section Paging.
Context {R : Type} (records : list R) (startDate endDate : string).

#[local] Abbreviation sz := (Z.to_nat pageSize).

Lemma sz_pos : (0 < sz)%nat.
Proof. pose proof pageSize_pos. lia. Qed.

Lemma page_of (i : nat) :
  pageOf records pageSize (Z.of_nat (S i))
  = firstn sz (skipn (i * sz) records).
Proof.
  unfold pageOf. f_equal. f_equal. pose proof pageSize_pos. nia.
Qed.

Lemma page_length (i : nat) :
  List.length (pageOf records pageSize (Z.of_nat (S i)))
  = Nat.min sz (List.length records - i * sz).
Proof. rewrite page_of, length_firstn, length_skipn. reflexivity. Qed.

(** From page [i + 1] on, with the rows of the first [i] pages in hand,
    the loop ends with all the records. *)
Lemma loop_paginating (fuel : nat) :
  forall (i : nat) (sent : list Request),
    (i * sz <= List.length records)%nat ->
    (List.length records / sz - i < fuel)%nat ->
    fetch_loop (paginating records) startDate endDate fuel
      (Z.of_nat (S i)) (firstn (i * sz) records) sent
    = Some (Fetched records,
            sent ++ map (fun j => params startDate endDate (Z.of_nat j))
                        (seq (S i) (List.length records / sz - i + 1))).
Proof.
  pose proof sz_pos as Hsz. pose proof pageSize_pos as Hps.
  induction fuel as [|fuel IH]; intros i sent Hi Hfuel; [lia|].
  set (n := List.length records) in *.
  set (rows := pageOf records pageSize (Z.of_nat (S i))).
  assert (Hlen : List.length rows = Nat.min sz (n - i * sz))
    by apply page_length.
  assert (Hdata : data (paginating records
                          (params startDate endDate (Z.of_nat (S i))))
                  = Some rows) by reflexivity.
  assert (Hstatus : status_code (paginating records
                          (params startDate endDate (Z.of_nat (S i))))
                    = 200) by reflexivity.
  destruct (Nat.lt_ge_cases (n - i * sz) sz) as [Hshort|Hfull].
  - (* the last page *)
    rewrite (@round_short R (paginating records) startDate endDate fuel
               (Z.of_nat (S i)) (firstn (i * sz) records) rows sent
               Hstatus Hdata) by lia.
    assert (Hdiv : (n / sz = i)%nat).
    { symmetry. apply (Nat.div_unique n sz i (n - i * sz)); lia. }
    rewrite Hdiv, Nat.sub_diag. cbn [Nat.add seq map].
    f_equal. f_equal. f_equal. unfold rows. rewrite page_of.
    rewrite (@firstn_all2 _ sz (skipn (i * sz) records))
      by (rewrite length_skipn; fold n; lia).
    apply firstn_skipn.
  - (* a full page *)
    destruct (@round_full R (paginating records) startDate endDate fuel
                (Z.of_nat (S i)) (firstn (i * sz) records) sent)
      as (rows' & Hd' & E).
    { split; [exact Hstatus|]. exists rows. split; [exact Hdata|]. lia. }
    rewrite Hdata in Hd'. injection Hd' as <-.
    rewrite E. replace (Z.of_nat (S i) + 1) with (Z.of_nat (S (S i))) by lia.
    assert (Hall : firstn (i * sz) records ++ rows
                   = firstn (S i * sz) records).
    { unfold rows. rewrite page_of.
      replace (S i * sz)%nat with (i * sz + sz)%nat by lia.
      symmetry. apply firstn_plus. }
    rewrite Hall.
    assert (Hdiv : (S i <= n / sz)%nat)
      by (apply Nat.div_le_lower_bound; lia).
    rewrite IH by lia.
    f_equal. f_equal. rewrite <- app_assoc. f_equal.
    replace (n / sz - i + 1)%nat with (S (n / sz - S i + 1)) by lia.
    reflexivity.
Qed.

End Paging.

(** X11.  Against a service that pages through its records, the download
    returns exactly those records, in their order, after asking for the
    pages 1 to [k + 1], where [k] is the number of full pages (the last
    request is the one answered by a short or an empty page); any number of
    rounds above [k] is enough. *)
Theorem fetch_returns_all_records {R : Type} (records : list R)
  (startDate endDate : string) (fuel : nat) :
  let k := Z.to_nat (Z.of_nat (List.length records) / pageSize) in
  (k < fuel)%nat ->
  _fetchAuctionData (paginating records) startDate endDate fuel
  = Some (Fetched records, requests startDate endDate (k + 1)).
Proof.
  intros k Hfuel. unfold _fetchAuctionData, requests.
  assert (Hk : k = (List.length records / Z.to_nat pageSize)%nat).
  { unfold k. pose proof pageSize_pos.
    rewrite <- (Z2Nat.id pageSize) at 1 by lia.
    rewrite <- Nat2Z.inj_div, Nat2Z.id. reflexivity. }
  pose proof (@loop_paginating R records startDate endDate fuel 0 []) as H.
  cbn [Nat.mul firstn app] in H. rewrite Nat.sub_0_r in H.
  rewrite <- Hk in H. apply H; lia.
Qed.

Lemma fetch_returns_all_records_witness :
  (Z.to_nat (Z.of_nat (List.length [1; 2; 3]%nat) / pageSize) < 1)%nat /\
  _fetchAuctionData (paginating [1; 2; 3]%nat) "2024-01-01" "2024-01-31" 1
  = Some (Fetched [1; 2; 3]%nat, requests "2024-01-01" "2024-01-31" 1).
Proof.
  assert (H : (Z.to_nat (Z.of_nat (List.length [1; 2; 3]%nat) / pageSize)
               < 1)%nat) by (vm_compute; lia).
  split; [exact H|].
  exact (@fetch_returns_all_records nat [1; 2; 3]%nat "2024-01-01"
           "2024-01-31" 1 H).
Defined.

End FetchFacts.
